(** * Workspace folders in the extension host

    A shallow embedding of [src/vs/workbench/api/node/extHostWorkspace.ts]:
    the classes [Workspace2] and [ExtHostWorkspace], with the state of an
    instance threaded explicitly through every method.

    Conventions of the embedding.
    - JavaScript strings are [string]; the code only compares, splits and
      concatenates them.
    - JavaScript numbers that hold array positions are [Z]; the request
      counter is a [nat]: it starts at 0 and is only ever incremented, and
      a double holds every integer below 2^53 exactly.
    - [undefined]/[null] results are [None].
    - An argument that may be [null] or [undefined] where the code reads
      a property of it is an [option] in the [...Call] form of the
      method, whose outcome is a [JsResult]: a value, or the [TypeError]
      thrown.
    - Paths follow the POSIX conventions (Linux, macOS); [isLinux]
      distinguishes the two where the code does.  The working directory
      of the process, which [relative] of Node's [path] reads, is the
      argument [cwd]. *)

From Stdlib Require Import ZArith Ascii String List Permutation Bool Lia.
From Stdlib Require Import OrderedTypeEx.
From stdpp Require Import base list strings gmap sorting.

Local Open Scope string_scope.
Local Open Scope list_scope.
Local Open Scope Z_scope.

(** ** Strings *)

Module Strings.

(** Modelled from the spec: [compare] of [vs/base/common/strings], the
    three-way comparison of two strings with [<] and [>] that the
    comparators of the folder lists are built from. *)
Definition compare (a b : string) : Z :=
  match String.compare a b with
  | Lt => -1
  | Gt => 1
  | Eq => 0
  end.

Definition toLowerCaseChar (c : ascii) : ascii :=
  let n := nat_of_ascii c in
  if (65 <=? n)%nat && (n <=? 90)%nat then ascii_of_nat (n + 32) else c.

Fixpoint toLowerCase (s : string) : string :=
  match s with
  | EmptyString => EmptyString
  | String c s' => String (toLowerCaseChar c) (toLowerCase s')
  end.

(** Modelled from the spec: [equalsIgnoreCase] of
    [vs/base/common/strings], equality up to the case of letters. *)
Definition equalsIgnoreCase (a b : string) : bool :=
  String.eqb (toLowerCase a) (toLowerCase b).

Definition isSlash (c : ascii) : bool := Ascii.eqb c "/"%char.

Definition isBackslash (c : ascii) : bool := Ascii.eqb c "\"%char.

Definition isSep (c : ascii) : bool := isSlash c || isBackslash c.

(** The pieces of [cs] between the characters that satisfy [p]; empty
    pieces are kept, so the result is never empty. *)
Fixpoint split_on (p : ascii -> bool) (cs : list ascii) : list (list ascii) :=
  match cs with
  | [] => [[]]
  | c :: cs' =>
      if p c then [] :: split_on p cs'
      else match split_on p cs' with
           | [] => [[c]]
           | seg :: segs => (c :: seg) :: segs
           end
  end.

Fixpoint skipWhile (p : ascii -> bool) (cs : list ascii) : list ascii :=
  match cs with
  | [] => []
  | c :: cs' => if p c then skipWhile p cs' else cs
  end.

Fixpoint keepWhile (p : ascii -> bool) (cs : list ascii) : list ascii :=
  match cs with
  | [] => []
  | c :: cs' => if p c then c :: keepWhile p cs' else []
  end.

Definition nonEmpty (cs : list ascii) : bool :=
  match cs with [] => false | _ => true end.

Definition join (sep : string) (parts : list string) : string :=
  match parts with
  | [] => ""
  | p :: ps => fold_left (fun acc q => acc +:+ sep +:+ q) ps p
  end.

Definition startsWith (p : ascii -> bool) (s : string) : bool :=
  match s with
  | String c _ => p c
  | EmptyString => false
  end.

End Strings.

(** ** Paths *)

Module Paths.
Import Strings.

(** The segments of a key as the iterator of the path index cuts it: the
    non-empty pieces between [/] and [\]. *)
Definition segments (key : string) : list string :=
  map string_of_list_ascii
      (List.filter nonEmpty (split_on isSep (list_ascii_of_string key))).

(** The non-empty pieces of a POSIX path between slashes. *)
Definition posixSegments (path : string) : list string :=
  map string_of_list_ascii
      (List.filter nonEmpty (split_on isSlash (list_ascii_of_string path))).

(** One step of the resolution of [.] and [..] over a stack of segments
    (innermost first). *)
Definition resolveStep (stack : list string) (seg : string) : list string :=
  if String.eqb seg "." then stack
  else if String.eqb seg ".." then tl stack
  else seg :: stack.

(** [resolve] of Node's [path] module with one argument: a path that
    does not start with a slash is taken from the working directory
    [cwd] of the process, and [.] and [..] are resolved. *)
Definition resolve (cwd path : string) : list string :=
  let absolute := if startsWith isSlash path then path else cwd +:+ "/" +:+ path in
  rev (fold_left resolveStep (posixSegments absolute) []).

Fixpoint stripCommon (from to : list string) : list string * list string :=
  match from, to with
  | f :: from', t :: to' =>
      if String.eqb f t then stripCommon from' to' else (from, to)
  | _, _ => (from, to)
  end.

(** [relative] of Node's [path] module on POSIX paths: both paths are
    resolved against the working directory [cwd] of the process, their
    common leading segments dropped, and one [..] is emitted for each
    segment left of [from]. *)
Definition relative (cwd from to : string) : string :=
  if String.eqb from to then ""
  else
    let '(f, t) := stripCommon (resolve cwd from) (resolve cwd to) in
    join "/" (map (fun _ => "..") f ++ t).

(** [dirname] of Node's [path] module on POSIX paths: the text before
    the slash that precedes the last segment, trailing slashes set
    aside; [/] or [.] when there is no such slash. *)
Definition dirname (path : string) : string :=
  match list_ascii_of_string path with
  | [] => "."
  | c0 :: rest =>
      let hasRoot := isSlash c0 in
      let upToSlash :=
        skipWhile (fun c => negb (isSlash c)) (skipWhile isSlash (rev rest)) in
      match upToSlash with
      | [] => if hasRoot then "/" else "."
      | _ :: [] => if hasRoot then "//" else string_of_list_ascii [c0]
      | _ :: kept => string_of_list_ascii (c0 :: rev kept)
      end
  end.

(** [basename] on the reversed text [r] of a path. *)
Fixpoint basenameRev (r : list ascii) : list ascii :=
  match r with
  | [] => []
  | c0 :: r' =>
      if existsb isSlash r then
        if isSlash c0 then basenameRev r'
        else rev (keepWhile (fun c => negb (isSlash c)) r)
      else if existsb isBackslash r then
        if isBackslash c0 then basenameRev r'
        else rev (keepWhile (fun c => negb (isBackslash c)) r)
      else rev r
  end.

(** Modelled from the spec: [basename] of [vs/base/common/paths], the
    text behind the last slash (the last backslash when there is no
    slash), a separator at the end set aside. *)
Definition basename (path : string) : string :=
  string_of_list_ascii (basenameRev (rev (list_ascii_of_string path))).

(** One round of the loop of [normalize]: [res] holds the pieces of the
    text built so far, last piece first (an empty piece stands for a
    separator at the end); [more] says whether text follows the separator
    that ends [part]. *)
Definition normalizeStep (root : string) (res : list string) (part : string)
                         (more : bool) : list string :=
  if String.eqb part ".." then
    match res with
    | prev :: res' =>
        if String.eqb prev ".." then part :: res
        else if negb (String.eqb root "") || negb (String.eqb prev "") then res'
        else part :: res'
    | [] => if negb (String.eqb root "") then [] else [part]
    end
  else if String.eqb part "."
          && (negb (String.eqb root "") || negb (bool_decide (res = [])) || more)
  then res
  else if String.eqb part "" then
    match res with
    | [] => res
    | prev :: _ => if String.eqb prev "" then res else part :: res
    end
  else
    match res with
    | prev :: res' => if String.eqb prev "" then part :: res' else part :: res
    | [] => [part]
    end.

Fixpoint normalizeLoop (root : string) (res : list string) (parts : list string)
  : list string :=
  match parts with
  | [] => res
  | part :: parts' =>
      let more := match parts' with
                  | [] => false
                  | [last] => negb (String.eqb last "")
                  | _ => true
                  end in
      normalizeLoop root (normalizeStep root res part more) parts'
  end.

(** Modelled from the spec: the path-normalization primitive
    [normalize] of [vs/base/common/paths] off Windows, which resolves
    [.] and [..] segments and collapses repeated separators, keeps a
    leading separator as the root [/] and answers [.] for the empty
    path.  UNC shares, drive letters and scheme prefixes are outside this
    model. *)
Definition normalize (path : string) (toOSPath : bool) : string :=
  match path with
  | EmptyString => "."
  | String c body =>
      let root := if isSep c then "/" else "" in
      let body := if isSep c then body else path in
      let parts := map string_of_list_ascii
                       (split_on isSep (list_ascii_of_string body)) in
      root +:+ join "/" (rev (normalizeLoop root [] parts))
  end.

End Paths.

(** ** Resource identifiers *)

(** Modelled from the spec: the URI-like resource key of
    [vs/base/common/uri], reduced to the components the workspace code
    reads.  Query, fragment, percent-encoding and drive letters are
    outside this model. *)
Record URI : Type := mkURI {
  scheme : string;
  authority : string;
  path : string
}.

Global Instance URI_eq_dec : EqDecision URI.
Proof. solve_decision. Defined.

Module Uri.
Import Strings.

(** [uri.toString()]: the scheme and a colon, two slashes before the
    authority (always for a [file] resource), then the path. *)
Definition toString (u : URI) : string :=
  (if String.eqb (scheme u) "" then "" else scheme u +:+ ":")
    +:+ (if negb (String.eqb (authority u) "") || String.eqb (scheme u) "file"
         then "//" else "")
    +:+ toLowerCase (authority u) +:+ path u.

(** [uri.fsPath] off Windows. *)
Definition fsPath (u : URI) : string :=
  if negb (String.eqb (authority u) "") && negb (String.eqb (path u) "")
     && String.eqb (scheme u) "file"
  then "//" +:+ authority u +:+ path u
  else path u.

(** [URI.file] off Windows: a path that starts with two slashes gives its
    first piece to the authority, and the path of the result starts with
    a slash. *)
Definition file (p : string) : URI :=
  let '(authority, path) :=
    match p with
    | String c0 (String c1 rest) =>
        if isSlash c0 && isSlash c1 then
          let cs := list_ascii_of_string rest in
          (string_of_list_ascii (keepWhile (fun c => negb (isSlash c)) cs),
           string_of_list_ascii (skipWhile (fun c => negb (isSlash c)) cs))
        else ("", p)
    | _ => ("", p)
    end in
  mkURI "file" authority (if startsWith isSlash path then path else "/" +:+ path).

(** [uri.with({ path })] *)
Definition with_path (u : URI) (p : string) : URI :=
  mkURI (scheme u) (authority u) p.

(** [URI.revive] gives back a resource that is one already. *)
Definition revive (u : URI) : URI := u.

End Uri.

Module Resources.

(** Modelled from the spec: [isEqual] of [vs/base/common/resources],
    identifier equality on the string form, up to case when
    [ignoreCase] is set. *)
Definition isEqual (first second : URI) (ignoreCase : bool) : bool :=
  if ignoreCase
  then Strings.equalsIgnoreCase (Uri.toString first) (Uri.toString second)
  else String.eqb (Uri.toString first) (Uri.toString second).

(** Modelled from the spec: [basenameOrAuthority] of
    [vs/base/common/resources], "display name defaults from the
    identifier's basename", and the authority where there is none. *)
Definition basenameOrAuthority (resource : URI) : string :=
  let b := Paths.basename (Uri.fsPath resource) in
  if String.eqb b "" then authority resource else b.

End Resources.

(** ** Arrays *)

Module Arrays.

Section Delta.
Context {T : Type}.
Variable compare : T -> T -> Z.

(** Modelled from the spec: [delta] of [vs/base/common/arrays], "a
    sorted merge-style comparison producing: elements present only in
    oldList -> removed; present only in newList -> added; present in
    both -> neither".  The result is the pair (removed, added). *)
Fixpoint delta (before after : list T) : list T * list T :=
  match before with
  | [] => ([], after)
  | b :: before' =>
      (fix scan (after : list T) : list T * list T :=
         match after with
         | [] => (before, [])
         | a :: after' =>
             let n := compare b a in
             if n =? 0 then delta before' after'
             else if n <? 0 then
               let '(removed, added) := delta before' after in
               (b :: removed, added)
             else
               let '(removed, added) := scan after' in
               (removed, a :: added)
         end) after
  end.

(** [Array.prototype.sort] with a comparator, as a stable insertion
    sort. *)
Fixpoint insert (x : T) (sorted : list T) : list T :=
  match sorted with
  | [] => [x]
  | y :: sorted' =>
      if compare x y <? 0 then x :: sorted else y :: insert x sorted'
  end.

Definition sort (l : list T) : list T :=
  fold_left (fun acc x => insert x acc) l [].

End Delta.

(** [Array.prototype.splice] for integer arguments with [0 <= start]. *)
Definition splice {T : Type} (l : list T) (start deleteCount : Z) (items : list T)
  : list T :=
  let len := Z.of_nat (length l) in
  let actualStart := Z.min start len in
  let actualDeleteCount := Z.min (Z.max deleteCount 0) (len - actualStart) in
  take (Z.to_nat actualStart) l ++ items
    ++ drop (Z.to_nat (actualStart + actualDeleteCount)) l.

(** [Array.prototype.map] with the callback's position argument. *)
Fixpoint mapi_from {A B : Type} (f : A -> Z -> B) (i : Z) (l : list A) : list B :=
  match l with
  | [] => []
  | x :: l' => f x i :: mapi_from f (i + 1) l'
  end.

Definition mapi {A B : Type} (f : A -> Z -> B) (l : list A) : list B :=
  mapi_from f 0 l.

End Arrays.

(** ** The path index *)

Module TernarySearchTree.
Section Tree.
Context {E : Type}.

(** Modelled from the spec: the PathIndex ([TernarySearchTree.forPaths]
    of [vs/base/common/map]), "a prefix/ancestor lookup structure
    mapping normalized folder-identifier strings to folder records":
    a finite map keyed by the path segments of the inserted key. *)
Definition forPaths : gmap (list string) E := ∅.

Definition set (key : string) (element : E) (t : gmap (list string) E)
  : gmap (list string) E :=
  <[Paths.segments key := element]> t.

Definition get (key : string) (t : gmap (list string) E) : option E :=
  t !! Paths.segments key.

(** The entry stored under the longest of the prefixes
    [pre ++ take k rest] of the query. *)
Fixpoint findLongest (t : gmap (list string) E) (pre rest : list string)
  : option E :=
  match rest with
  | [] => t !! pre
  | s :: rest' =>
      match findLongest t (pre ++ [s]) rest' with
      | Some e => Some e
      | None => t !! pre
      end
  end.

(** Modelled from the spec: findContaining "must return the record
    whose key is the longest ancestor prefix of the query key (prefix
    match on path-segment boundaries, not raw string prefix)", the
    exact key included. *)
Definition findSubstr (key : string) (t : gmap (list string) E) : option E :=
  findLongest t [] (Paths.segments key).

End Tree.
End TernarySearchTree.

(** ** The data model *)

(** A folder record ([vscode.WorkspaceFolder]). *)
Record WorkspaceFolder : Type := mkFolder {
  uri : URI;
  name : string;
  index : Z
}.

Global Instance WorkspaceFolder_eq_dec : EqDecision WorkspaceFolder.
Proof. solve_decision. Defined.

(** The snapshot pushed by the main side ([IWorkspaceData]). *)
Record IWorkspaceData : Type := mkData {
  data_id : string;
  data_name : string;
  data_folders : list WorkspaceFolder
}.

(** The payload of the change notification. *)
Record WorkspaceFoldersChangeEvent : Type := mkEvent {
  added : list WorkspaceFolder;
  removed : list WorkspaceFolder
}.

(** A folder offered to [updateWorkspaceFolders], an object; [add_uri] is
    [None] for a value that [URI.isUri] refuses, [add_name] is [None]
    when the name is left out.  An entry that is no object at all is
    [None] in [updateWorkspaceFoldersCall]. *)
Record FolderToAdd : Type := mkAdd {
  add_uri : option URI;
  add_name : option string
}.

(** A folder that passed [URI.isUri]. *)
Record ValidatedFolder : Type := mkValidated {
  v_uri : URI;
  v_name : option string
}.

(** A JavaScript value received where a number is expected: an integral
    number, or a value whose [typeof] is not ['number']. *)
Inductive JsValue : Type :=
| JsNumber (z : Z)
| JsNotNumber.

Inductive GlobPattern : Type :=
| GlobString (s : string)
| RelativePattern (base pattern : string).

(** The argument of [getRelativePath] when it is not [null]; [null] is
    [None] in [getRelativePathCall]. *)
Inductive PathOrUri : Type :=
| PathString (s : string)
| PathUri (u : URI)
| PathUndefined.

(** The requests the host sends through [MainThreadWorkspaceShape]. *)
Inductive ProxyCall : Type :=
| UpdateWorkspaceFolders (extensionName : string) (index deleteCount : Z)
                         (folders : list ValidatedFolder)
| StartSearch (includePattern includeFolder excludePattern : option string)
              (maxResults : option Z) (requestId : nat)
| CancelSearch (requestId : nat)
| SaveAll (includeUntitled : option bool).

(** ** Workspace2 *)

Module Workspace2.

(** [new WorkspaceFolder({ name, index, uri: URI.revive(uri) })] *)
Definition reviveFolder (f : WorkspaceFolder) : WorkspaceFolder :=
  mkFolder (Uri.revive (uri f)) (name f) (index f).

(** The object literal [{ name, uri, index }] *)
Definition pickFolder (f : WorkspaceFolder) : WorkspaceFolder :=
  mkFolder (uri f) (name f) (index f).

(** [id], [name] and [folders] are the fields of the base class
    [Workspace]; the other two are the fields [Workspace2] adds. *)
Record t : Type := mk {
  id : string;
  name : string;
  folders : list WorkspaceFolder;
  _workspaceFolders : list WorkspaceFolder;
  _structure : gmap (list string) WorkspaceFolder
}.

(** The constructor: every folder is pushed on [_workspaceFolders] and
    set in [_structure] under the string form of its identifier. *)
Definition new (id name : string) (folders : list WorkspaceFolder) : t :=
  let init := ([], TernarySearchTree.forPaths) in
  let '(wf, st) :=
    fold_left (fun '(wf, st) f =>
                 let workspaceFolder := pickFolder f in
                 (wf ++ [workspaceFolder],
                  TernarySearchTree.set (Uri.toString (uri workspaceFolder))
                                        workspaceFolder st))
              folders init in
  mk id name folders wf st.

Definition fromData (data : option IWorkspaceData) : option t :=
  match data with
  | None => None
  | Some d => Some (new (data_id d) (data_name d) (map reviveFolder (data_folders d)))
  end.

Definition workspaceFolders (w : t) : list WorkspaceFolder :=
  _workspaceFolders w.

Definition trySetWorkspaceFolders (w : t) (folders : list WorkspaceFolder) : t :=
  mk (id w) (name w) (Workspace2.folders w) (map reviveFolder folders) (_structure w).

Definition getWorkspaceFolder (w : t) (uri : URI) (resolveParent : bool)
  : option WorkspaceFolder :=
  let uri :=
    if resolveParent
       && bool_decide (is_Some (TernarySearchTree.get (Uri.toString uri) (_structure w)))
    then Uri.with_path uri (Paths.dirname (path uri))
    else uri in
  TernarySearchTree.findSubstr (Uri.toString uri) (_structure w).

End Workspace2.

(** ** ExtHostWorkspace *)

Module ExtHostWorkspace.

(** The state of an instance.  [_proxy] is the sequence of requests the
    instance has sent to the main side so far, [_onDidChangeWorkspace]
    the sequence of events it has fired so far (both oldest first);
    [_listeners] holds, for every cancellation token handed to
    [findFiles], the request it cancels.  The static counter
    [_requestIdPool] belongs to the class, not to an instance: the one
    method that uses it takes it and gives it back. *)
Record t : Type := mk {
  _proxy : list ProxyCall;
  _onDidChangeWorkspace : list WorkspaceFoldersChangeEvent;
  _workspace : option Workspace2.t;
  _listeners : list (nat * nat)
}.

Definition send (this : t) (call : ProxyCall) : t :=
  mk (_proxy this ++ [call]) (_onDidChangeWorkspace this)
     (_workspace this) (_listeners this).

Definition fire (this : t) (e : WorkspaceFoldersChangeEvent) : t :=
  mk (_proxy this) (_onDidChangeWorkspace this ++ [e])
     (_workspace this) (_listeners this).

Definition setWorkspace (this : t) (w : option Workspace2.t) : t :=
  mk (_proxy this) (_onDidChangeWorkspace this) w (_listeners this).

Definition constructor (data : option IWorkspaceData) : t :=
  mk [] [] (Workspace2.fromData data) [].

(** *** workspace *)

Definition workspace (this : t) : option Workspace2.t := _workspace this.

Definition getWorkspaceFolders (this : t) : option (list WorkspaceFolder) :=
  match _workspace this with
  | None => None
  | Some w => Some (Workspace2.workspaceFolders w)
  end.

Definition _compareWorkspaceFolderByUri (a b : WorkspaceFolder) : Z :=
  Strings.compare (Uri.toString (uri a)) (Uri.toString (uri b)).

Definition _compareWorkspaceFolderByUriAndName (a b : WorkspaceFolder) : Z :=
  Strings.compare (Uri.toString (uri a)) (Uri.toString (uri b))
  + Strings.compare (name a) (name b).

(** The loop that fills [validatedDistinctWorkspaceFoldersToAdd]. *)
Definition validateStep (isLinux : bool) (acc : list ValidatedFolder)
                        (folderToAdd : FolderToAdd) : list ValidatedFolder :=
  match add_uri folderToAdd with
  | Some u =>
      if existsb (fun f => Resources.isEqual (v_uri f) u (negb isLinux)) acc
      then acc
      else acc ++ [mkValidated u (add_name folderToAdd)]
  | None => acc
  end.

Definition validatedDistinct (isLinux : bool) (workspaceFoldersToAdd : list FolderToAdd)
  : list ValidatedFolder :=
  fold_left (validateStep isLinux) workspaceFoldersToAdd [].

(** [{ uri: f.uri, name: f.name || basenameOrAuthority(f.uri), index }] *)
Definition toWorkspaceFolder (f : ValidatedFolder) (index : Z) : WorkspaceFolder :=
  let name := match v_name f with
              | Some n => if String.eqb n "" then Resources.basenameOrAuthority (v_uri f)
                          else n
              | None => Resources.basenameOrAuthority (v_uri f)
              end in
  mkFolder (v_uri f) name index.

Definition currentWorkspaceFolders (this : t) : list WorkspaceFolder :=
  match _workspace this with
  | Some w => Workspace2.workspaceFolders w
  | None => []
  end.

(** The list [newWorkspaceFolders] after the splice. *)
Definition prospective (isLinux : bool) (this : t) (index deleteCount : Z)
                       (workspaceFoldersToAdd : list FolderToAdd)
  : list WorkspaceFolder :=
  Arrays.splice (currentWorkspaceFolders this) index deleteCount
                (Arrays.mapi toWorkspaceFolder
                             (validatedDistinct isLinux workspaceFoldersToAdd)).

Definition updateWorkspaceFolders (isLinux : bool) (this : t) (extensionName : string)
                                  (index deleteCount : JsValue)
                                  (workspaceFoldersToAdd : list FolderToAdd)
  : bool * t :=
  let validatedDistinctWorkspaceFoldersToAdd :=
    validatedDistinct isLinux workspaceFoldersToAdd in
  match index, deleteCount with
  | JsNumber index, JsNumber deleteCount =>
      if (index <? 0) || (deleteCount <? 0) then (false, this)
      else if (deleteCount =? 0)
              && (length validatedDistinctWorkspaceFoldersToAdd =? 0)%nat
      then (false, this)
      else
        let currentWorkspaceFolders := currentWorkspaceFolders this in
        if index + deleteCount >? Z.of_nat (length currentWorkspaceFolders)
        then (false, this)
        else
          let newWorkspaceFolders :=
            Arrays.splice currentWorkspaceFolders index deleteCount
                          (Arrays.mapi toWorkspaceFolder
                                       validatedDistinctWorkspaceFoldersToAdd) in
          let '(removed, added) :=
            Arrays.delta _compareWorkspaceFolderByUriAndName
                         currentWorkspaceFolders newWorkspaceFolders in
          if (length added =? 0)%nat && (length removed =? 0)%nat
          then (false, this)
          else
            let this := send this (UpdateWorkspaceFolders
                                     extensionName index deleteCount
                                     validatedDistinctWorkspaceFoldersToAdd) in
            let this :=
              match _workspace this with
              | Some w =>
                  setWorkspace this
                    (Some (Workspace2.trySetWorkspaceFolders w newWorkspaceFolders))
              | None => this
              end in
            (true, this)
  | _, _ => (false, this)
  end.

Definition getWorkspaceFolder (this : t) (uri : URI) (resolveParent : bool)
  : option WorkspaceFolder :=
  match _workspace this with
  | None => None
  | Some w => Workspace2.getWorkspaceFolder w uri resolveParent
  end.

Definition getPath (this : t) : option string :=
  match _workspace this with
  | None => None
  | Some w =>
      match Workspace2.folders w with
      | [] => None
      | f :: _ => Some (Uri.fsPath (uri f))
      end
  end.

(** [cwd] is the working directory of the process, which [relative]
    reads. *)
Definition getRelativePath (cwd : string) (this : t) (pathOrUri : PathOrUri)
                           (includeWorkspace : option bool) : option string :=
  let path := match pathOrUri with
              | PathString s => Some s
              | PathUri u => Some (Uri.fsPath u)
              | PathUndefined => None
              end in
  match path with
  | None => path
  | Some p =>
      if String.eqb p "" then path
      else
        let folder := match pathOrUri with
                      | PathString s => getWorkspaceFolder this (Uri.file s) true
                      | PathUri u => getWorkspaceFolder this u true
                      | PathUndefined => None
                      end in
        match folder with
        | None => path
        | Some folder =>
            let includeWorkspace :=
              match includeWorkspace with
              | Some b => b
              | None =>
                  match workspace this with
                  | Some w => (1 <? length (Workspace2.folders w))%nat
                  | None => false
                  end
              end in
            let result := Paths.relative cwd (Uri.fsPath (uri folder)) p in
            let result := if includeWorkspace
                          then name folder +:+ "/" +:+ result
                          else result in
            Some (Paths.normalize result true)
        end
  end.

Definition acceptWorkspaceData (this : t) (data : option IWorkspaceData) : t :=
  let oldRoots := match _workspace this with
                  | Some w => Arrays.sort _compareWorkspaceFolderByUri
                                          (Workspace2.workspaceFolders w)
                  | None => []
                  end in
  let this := setWorkspace this (Workspace2.fromData data) in
  let newRoots := match _workspace this with
                  | Some w => Arrays.sort _compareWorkspaceFolderByUri
                                          (Workspace2.workspaceFolders w)
                  | None => []
                  end in
  let '(removed, added) :=
    Arrays.delta _compareWorkspaceFolderByUri oldRoots newRoots in
  fire this (mkEvent added removed).

(** *** arguments as they come *)

(** The outcome of a call: the value returned, or the [TypeError] that
    reading a property of [null] or [undefined] throws. *)
Inductive JsResult (A : Type) : Type :=
| Returns (a : A)
| ThrowsTypeError.

Arguments Returns {A} a.
Arguments ThrowsTypeError {A}.

(** One round of the loop of lines 99-103 on an entry as it comes: [None]
    is an entry that is [null] or [undefined], on which reading
    [folderToAdd.uri] throws. *)
Definition validateEntry (isLinux : bool) (acc : JsResult (list ValidatedFolder))
                         (folderToAdd : option FolderToAdd)
  : JsResult (list ValidatedFolder) :=
  match acc, folderToAdd with
  | Returns acc, Some folderToAdd => Returns (validateStep isLinux acc folderToAdd)
  | Returns _, None => ThrowsTypeError
  | ThrowsTypeError, _ => ThrowsTypeError
  end.

Definition validatedDistinctOf (isLinux : bool)
                               (workspaceFoldersToAdd : list (option FolderToAdd))
  : JsResult (list ValidatedFolder) :=
  fold_left (validateEntry isLinux) workspaceFoldersToAdd (Returns []).

(** Lines 106-134: the method from the check of the numbers on, with the
    validated folders at hand. *)
Definition updateValidated (this : t) (extensionName : string)
                           (index deleteCount : JsValue)
                           (validatedDistinctWorkspaceFoldersToAdd : list ValidatedFolder)
  : bool * t :=
  match index, deleteCount with
  | JsNumber index, JsNumber deleteCount =>
      if (index <? 0) || (deleteCount <? 0) then (false, this)
      else if (deleteCount =? 0)
              && (length validatedDistinctWorkspaceFoldersToAdd =? 0)%nat
      then (false, this)
      else
        let currentWorkspaceFolders := currentWorkspaceFolders this in
        if index + deleteCount >? Z.of_nat (length currentWorkspaceFolders)
        then (false, this)
        else
          let newWorkspaceFolders :=
            Arrays.splice currentWorkspaceFolders index deleteCount
                          (Arrays.mapi toWorkspaceFolder
                                       validatedDistinctWorkspaceFoldersToAdd) in
          let '(removed, added) :=
            Arrays.delta _compareWorkspaceFolderByUriAndName
                         currentWorkspaceFolders newWorkspaceFolders in
          if (length added =? 0)%nat && (length removed =? 0)%nat
          then (false, this)
          else
            let this := send this (UpdateWorkspaceFolders
                                     extensionName index deleteCount
                                     validatedDistinctWorkspaceFoldersToAdd) in
            let this :=
              match _workspace this with
              | Some w =>
                  setWorkspace this
                    (Some (Workspace2.trySetWorkspaceFolders w newWorkspaceFolders))
              | None => this
              end in
            (true, this)
  | _, _ => (false, this)
  end.

(** [updateWorkspaceFolders] on entries as they come: the loop over the
    entries runs first and throws at an entry that is [null] or
    [undefined]; [updateWorkspaceFolders] above is the method on entries
    that are all objects. *)
Definition updateWorkspaceFoldersCall (isLinux : bool) (this : t)
                                      (extensionName : string)
                                      (index deleteCount : JsValue)
                                      (workspaceFoldersToAdd : list (option FolderToAdd))
  : JsResult (bool * t) :=
  match validatedDistinctOf isLinux workspaceFoldersToAdd with
  | Returns validated =>
      Returns (updateValidated this extensionName index deleteCount validated)
  | ThrowsTypeError => ThrowsTypeError
  end.

(** [getRelativePath] on an argument as it comes: [None] is [null], whose
    [typeof] is ['object'], so that line 164 reads [pathOrUri.fsPath] and
    throws; [getRelativePath] above is the method on the other
    arguments. *)
Definition getRelativePathCall (cwd : string) (this : t)
                               (pathOrUri : option PathOrUri)
                               (includeWorkspace : option bool)
  : JsResult (option string) :=
  match pathOrUri with
  | Some pathOrUri => Returns (getRelativePath cwd this pathOrUri includeWorkspace)
  | None => ThrowsTypeError
  end.

(** *** search *)

Definition truthy (s : string) : option string :=
  if String.eqb s "" then None else Some s.

(** [findFiles] reads and increments the static counter; the result is
    the new value of the counter and the new state of the instance. *)
Definition findFiles (_requestIdPool : nat) (this : t)
                     (include exclude : option GlobPattern)
                     (maxResults : option Z) (token : option nat) : nat * t :=
  let requestId := _requestIdPool in
  let _requestIdPool := S _requestIdPool in
  let '(includePattern, includeFolder) :=
    match include with
    | Some (GlobString s) => (truthy s, None)
    | Some (RelativePattern base pattern) => (Some pattern, Some base)
    | None => (None, None)
    end in
  let excludePattern :=
    match exclude with
    | Some (GlobString s) => truthy s
    | Some (RelativePattern _ pattern) => Some pattern
    | None => None
    end in
  let this := send this (StartSearch includePattern includeFolder excludePattern
                                     maxResults requestId) in
  let this :=
    match token with
    | Some tk => mk (_proxy this) (_onDidChangeWorkspace this)
                    (_workspace this) (_listeners this ++ [(tk, requestId)])
    | None => this
    end in
  (_requestIdPool, this).

Definition saveAll (this : t) (includeUntitled : option bool) : t :=
  send this (SaveAll includeUntitled).

(** A cancellation token fires: each listener registered on it by
    [findFiles] sends [$cancelSearch] for its request. *)
Definition cancel (this : t) (token : nat) : t :=
  fold_left (fun this '(tk, requestId) =>
               if (tk =? token)%nat then send this (CancelSearch requestId) else this)
            (_listeners this) this.

End ExtHostWorkspace.

(** ** The extension host process *)

(** The process holds the static counter of the class, the instances
    created so far, and [wire], everything the main side has received from
    the proxies of all instances, in the order it was sent. *)
Record Process : Type := mkProcess {
  requestIdPool : nat;
  hosts : list ExtHostWorkspace.t;
  wire : list ProxyCall
}.

(** What can happen to the process: a method of the instance at position
    [host] is called, a cancellation token fires, a new instance is
    constructed, or the main side completes a search. *)
Inductive Call : Type :=
| CallConstruct (data : option IWorkspaceData)
| CallFindFiles (host : nat) (include exclude : option GlobPattern)
                (maxResults : option Z) (token : option nat)
| CallCancel (host : nat) (token : nat)
| CallComplete (requestId : nat)
| CallSaveAll (host : nat) (includeUntitled : option bool)
| CallUpdate (isLinux : bool) (host : nat) (extensionName : string)
             (index deleteCount : JsValue) (workspaceFoldersToAdd : list FolderToAdd)
| CallAccept (host : nat) (data : option IWorkspaceData).

(** The instance at [host] goes from [h] to [h'] and the counter to
    [pool]; what [h'] sent beyond [h] reaches the main side. *)
Definition commit (p : Process) (host : nat) (pool : nat)
                  (h h' : ExtHostWorkspace.t) : Process :=
  mkProcess pool (<[host := h']> (hosts p))
            (wire p ++ drop (length (ExtHostWorkspace._proxy h))
                            (ExtHostWorkspace._proxy h')).

Definition step (p : Process) (c : Call) : Process :=
  match c with
  | CallConstruct data =>
      mkProcess (requestIdPool p) (hosts p ++ [ExtHostWorkspace.constructor data])
                (wire p)
  | CallFindFiles host include exclude maxResults token =>
      match hosts p !! host with
      | Some h =>
          let '(pool, h') :=
            ExtHostWorkspace.findFiles (requestIdPool p) h include exclude
                                       maxResults token in
          commit p host pool h h'
      | None => p
      end
  | CallCancel host token =>
      match hosts p !! host with
      | Some h => commit p host (requestIdPool p) h (ExtHostWorkspace.cancel h token)
      | None => p
      end
  | CallComplete _ => p
  | CallSaveAll host includeUntitled =>
      match hosts p !! host with
      | Some h =>
          commit p host (requestIdPool p) h (ExtHostWorkspace.saveAll h includeUntitled)
      | None => p
      end
  | CallUpdate isLinux host extensionName index deleteCount workspaceFoldersToAdd =>
      match hosts p !! host with
      | Some h =>
          commit p host (requestIdPool p) h
                 (snd (ExtHostWorkspace.updateWorkspaceFolders
                         isLinux h extensionName index deleteCount
                         workspaceFoldersToAdd))
      | None => p
      end
  | CallAccept host data =>
      match hosts p !! host with
      | Some h =>
          commit p host (requestIdPool p) h (ExtHostWorkspace.acceptWorkspaceData h data)
      | None => p
      end
  end.

Definition run (p : Process) (calls : list Call) : Process :=
  fold_left step calls p.

(** The request identifiers of the searches in a sequence of requests. *)
Definition searchIds (calls : list ProxyCall) : list nat :=
  omap (fun c => match c with
                 | StartSearch _ _ _ _ requestId => Some requestId
                 | _ => None
                 end) calls.

(** The number of [findFiles] calls of [calls] that reach an instance. *)
Fixpoint served (p : Process) (calls : list Call) : nat :=
  match calls with
  | [] => 0
  | c :: calls' =>
      (match c with
       | CallFindFiles host _ _ _ _ =>
           match hosts p !! host with Some _ => 1 | None => 0 end
       | _ => 0
       end + served (step p c) calls')%nat
  end.

(** * Vocabulary of the statements *)

Import ExtHostWorkspace.

(** [s] is not after [u]. *)
Definition str_le (s u : string) : Prop := Strings.compare s u <= 0.

(** The comparator that orders by a string key. *)
Definition byKey {T : Type} (key : T -> string) (a b : T) : Z :=
  Strings.compare (key a) (key b).

(** The string form of a folder's identifier, the key of the path index
    and of both comparators. *)
Definition folderKey (f : WorkspaceFolder) : string := Uri.toString (uri f).

Definition dataFolders (data : option IWorkspaceData) : list WorkspaceFolder :=
  match data with
  | Some d => data_folders d
  | None => []
  end.

(** The path index after setting the folders of [fs] in order. *)
Definition indexOf (fs : list WorkspaceFolder) (t : gmap (list string) WorkspaceFolder)
  : gmap (list string) WorkspaceFolder :=
  fold_left (fun st f => TernarySearchTree.set (folderKey f) f st) fs t.

(** The sorted list of roots that [$acceptWorkspaceData] diffs. *)
Definition sortedRoots (w : option Workspace2.t) : list WorkspaceFolder :=
  match w with
  | Some w => Arrays.sort _compareWorkspaceFolderByUri (Workspace2.workspaceFolders w)
  | None => []
  end.

(** The state [updateWorkspaceFolders] leaves behind when it answers
    [true]: the request is sent, and the folder list of the workspace, if
    there is one, is replaced. *)
Definition accepted (isLinux : bool) (this : t) (extensionName : string)
                    (index deleteCount : Z) (workspaceFoldersToAdd : list FolderToAdd)
  : t :=
  let sent := send this (UpdateWorkspaceFolders
                           extensionName index deleteCount
                           (validatedDistinct isLinux workspaceFoldersToAdd)) in
  match _workspace this with
  | Some w =>
      setWorkspace sent
        (Some (Workspace2.trySetWorkspaceFolders
                 w (prospective isLinux this index deleteCount workspaceFoldersToAdd)))
  | None => sent
  end.

(** The call gets past the three validation checks. *)
Definition validCall (isLinux : bool) (this : t) (index deleteCount : Z)
                     (workspaceFoldersToAdd : list FolderToAdd) : Prop :=
  0 <= index /\ 0 <= deleteCount
  /\ ~ (deleteCount = 0 /\ validatedDistinct isLinux workspaceFoldersToAdd = [])
  /\ index + deleteCount <= Z.of_nat (length (currentWorkspaceFolders this)).

(** The call is one of those the validation checks turn down. *)
Definition rejected (isLinux : bool) (this : t) (index deleteCount : JsValue)
                    (workspaceFoldersToAdd : list FolderToAdd) : Prop :=
  match index, deleteCount with
  | JsNumber i, JsNumber d =>
      i < 0 \/ d < 0
      \/ (d = 0 /\ validatedDistinct isLinux workspaceFoldersToAdd = [])
      \/ Z.of_nat (length (currentWorkspaceFolders this)) < i + d
  | _, _ => True
  end.

(** The comparator of the no-change guard answers 0 at every position of
    two lists of the same length. *)
Definition sameByUriAndName (l1 l2 : list WorkspaceFolder) : Prop :=
  Forall2 (fun a b => _compareWorkspaceFolderByUriAndName a b = 0) l1 l2.

(** ** Sample data *)

Module Sample.

Definition a : WorkspaceFolder := mkFolder (Uri.file "/a") "a" 0.
Definition b : WorkspaceFolder := mkFolder (Uri.file "/b") "b" 1.
Definition x : WorkspaceFolder := mkFolder (Uri.file "/x") "x" 1.
Definition az : WorkspaceFolder := mkFolder (Uri.file "/a") "z" 0.

Definition data (folders : list WorkspaceFolder) : option IWorkspaceData :=
  Some (mkData "id" "ws" folders).

(** No workspace is open. *)
Definition closed : t := constructor None.
Definition empty : t := constructor (data []).
Definition single : t := constructor (data [a]).
Definition double : t := constructor (data [a; x]).
Definition ab : t := constructor (data [a; b]).
Definition renamed : t := constructor (data [az]).

Definition add (p : string) : FolderToAdd := mkAdd (Some (Uri.file p)) None.
Definition addNamed (p n : string) : FolderToAdd :=
  mkAdd (Some (Uri.file p)) (Some n).

End Sample.

(** ** Containment *)

(** The path segments of a folder's identifier and of a resource. *)
Definition keySegments (f : WorkspaceFolder) : list string :=
  Paths.segments (folderKey f).

Definition uriSegments (u : URI) : list string :=
  Paths.segments (Uri.toString u).

(** The identifier of [f] is an ancestor of [u] or [u] itself, on
    segment boundaries. *)
Definition contains (f : WorkspaceFolder) (u : URI) : Prop :=
  keySegments f `prefix_of` uriSegments u.

(** [u] is strictly nested under the identifier of [f]. *)
Definition strictlyContains (f : WorkspaceFolder) (u : URI) : Prop :=
  contains f u /\ keySegments f <> uriSegments u.

(** The resource of the parent directory. *)
Definition parentOf (u : URI) : URI :=
  Uri.with_path u (Paths.dirname (path u)).

(** [r] is the folder of [fs] that owns [u]: a folder with the longest
    identifier among those that contain [u], or nothing when no folder
    contains [u]. *)
Definition owner (fs : list WorkspaceFolder) (u : URI) (r : option WorkspaceFolder)
  : Prop :=
  match r with
  | Some g =>
      In g fs /\ contains g u
      /\ forall h, In h fs -> contains h u ->
                   (length (keySegments h) <= length (keySegments g))%nat
  | None => forall h, In h fs -> ~ contains h u
  end.

(** The path index of the model is the one its constructor built from
    the folders of the snapshot. *)
Definition indexed (w : Workspace2.t) : Prop :=
  Workspace2._structure w = indexOf (Workspace2.folders w) TernarySearchTree.forPaths.

Definition hostIndexed (this : t) : Prop :=
  forall w, _workspace this = Some w -> indexed w.

Module SampleModel.

Definition inner : WorkspaceFolder := mkFolder (Uri.file "/a/b") "b" 1.

(** The model of the snapshot with the folders [/a] and [/x]. *)
Definition double : Workspace2.t := Workspace2.new "id" "ws" [Sample.a; Sample.x].

(** A snapshot with a folder nested in another one. *)
Definition nested : t := constructor (Sample.data [Sample.a; inner]).

End SampleModel.

(** ** Duplicates among the folders to add *)

(** The folders of the argument list that carry a resource identifier. *)
Definition validFolders (workspaceFoldersToAdd : list FolderToAdd)
  : list ValidatedFolder :=
  omap (fun f => match add_uri f with
                 | Some u => Some (mkValidated u (add_name f))
                 | None => None
                 end) workspaceFoldersToAdd.

(** Identifier equality as the platform has it: up to case everywhere but
    on Linux. *)
Definition sameIdentifier (isLinux : bool) (f g : ValidatedFolder) : bool :=
  Resources.isEqual (v_uri f) (v_uri g) (negb isLinux).

(** The string the platform compares identifiers by. *)
Definition identifierKey (isLinux : bool) (u : URI) : string :=
  if isLinux then Uri.toString u else Strings.toLowerCase (Uri.toString u).

(** Written from the spec's words, "dedups foldersToAdd by identifier
    keeping first occurrence": an element stays exactly when no element
    before it in the list ([earlier] holds those) has the same
    identifier. *)
Fixpoint firstOccurrences (same : ValidatedFolder -> ValidatedFolder -> bool)
                          (earlier l : list ValidatedFolder) : list ValidatedFolder :=
  match l with
  | [] => []
  | f :: l' =>
      (if existsb (fun e => same e f) earlier then [] else [f])
        ++ firstOccurrences same (f :: earlier) l'
  end.

(** ** Relative paths *)

(** The path and the resource [getRelativePath] reads off its argument. *)
Definition inputOf (pathOrUri : PathOrUri) : option (string * URI) :=
  match pathOrUri with
  | PathString s => Some (s, Uri.file s)
  | PathUri u => Some (Uri.fsPath u, u)
  | PathUndefined => None
  end.

(** The folder name is put in front: asked for, or not said and the
    snapshot has more than one folder. *)
Definition wantsName (this : t) (includeWorkspace : option bool) : bool :=
  match includeWorkspace with
  | Some b => b
  | None =>
      match workspace this with
      | Some w => (1 <? length (Workspace2.folders w))%nat
      | None => false
      end
  end.

(** ** Search requests *)

(** The process before any instance exists. *)
Definition start : Process := mkProcess 0 [] [].

(** Two instances in one process: a search on each, the token of the
    first one cancelled, the first search completed, another search on
    the first instance. *)
Definition sampleCalls : list Call :=
  [ CallConstruct (Sample.data [Sample.a]);
    CallConstruct None;
    CallFindFiles 0 (Some (GlobString "**/*.ts")) None None (Some 7%nat);
    CallFindFiles 1 (Some (RelativePattern "/a" "*.md")) (Some (GlobString "")) (Some 10)
                  None;
    CallCancel 0 7;
    CallComplete 0;
    CallFindFiles 0 None None None None ].

(** ** The change event *)

(** [a] comes strictly before [b] in the order of the keys. *)
Definition keyBefore {T : Type} (key : T -> string) (a b : T) : Prop :=
  Strings.compare (key a) (key b) < 0.

(** ** Edits *)

(** The folders the edit puts in: the validated folders with the name
    filled in and the position among them as index. *)
Definition addedFolders (isLinux : bool) (workspaceFoldersToAdd : list FolderToAdd)
  : list WorkspaceFolder :=
  Arrays.mapi toWorkspaceFolder (validatedDistinct isLinux workspaceFoldersToAdd).

(** The argument that offers the folder [f] again, under the name [n]. *)
Definition offer (f : WorkspaceFolder) (n : string) : FolderToAdd :=
  mkAdd (Some (uri f)) (Some n).

(** The key a validated folder is compared by on the platform. *)
Definition validatedKey (isLinux : bool) (v : ValidatedFolder) : string :=
  identifierKey isLinux (v_uri v).

(** A validated folder offered again as an argument. *)
Definition asOffer (v : ValidatedFolder) : FolderToAdd :=
  mkAdd (Some (v_uri v)) (v_name v).

(** ** Reachable states *)

(** Every instance of the process has the path index its constructor
    built from the base folders of its model. *)
Definition allIndexed (p : Process) : Prop :=
  forall j h, hosts p !! j = Some h -> hostIndexed h.

(** Every request a listener would cancel, and every request a
    cancellation on the wire names, was started on the wire. *)
Definition cancelsKnown (p : Process) : Prop :=
  (forall j h tk requestId,
      hosts p !! j = Some h -> In (tk, requestId) (_listeners h) ->
      In requestId (searchIds (wire p)))
  /\ (forall requestId,
         In (CancelSearch requestId) (wire p) -> In requestId (searchIds (wire p))).

(** The folders of [l] are in the order of their identifiers. *)
Definition byIdentifier (l : list WorkspaceFolder) : Prop :=
  StronglySorted (fun a b => str_le (folderKey a) (folderKey b)) l.

Module SampleEdit.

Definition c : WorkspaceFolder := mkFolder (Uri.file "/c") "c" 1.

(** The model of the snapshot with the folders [/a] and [/b]. *)
Definition ab : Workspace2.t := Workspace2.new "id" "ws" [Sample.a; Sample.b].

(** The model of the snapshot with the folder [/a]. *)
Definition single : Workspace2.t := Workspace2.new "id" "ws" [Sample.a].

(** One instance, constructed from the snapshot with [/a] and [/x]. *)
Definition oneHost : list Call := [CallConstruct (Sample.data [Sample.a; Sample.x])].

End SampleEdit.

(** ** Plain paths *)

(** A segment that can stand between two separators: not empty and free
    of [/] and [\]. *)
Definition cleanSegment (s : string) : bool :=
  Strings.nonEmpty (list_ascii_of_string s)
  && forallb (fun c => negb (Strings.isSep c)) (list_ascii_of_string s).


(** The absolute POSIX path with the segments [segs]. *)
Fixpoint pathOf (segs : list string) : string :=
  match segs with
  | [] => ""
  | s :: segs' => "/" +:+ s +:+ pathOf segs'
  end.

(** [r] is the folder of [fs] that owns the segments [segs]: a folder
    with the longest identifier among those whose segments lead [segs],
    or nothing when there is no such folder. *)
Definition ownerAt (fs : list WorkspaceFolder) (segs : list string)
                   (r : option WorkspaceFolder) : Prop :=
  match r with
  | Some g =>
      In g fs /\ keySegments g `prefix_of` segs
      /\ forall h, In h fs -> keySegments h `prefix_of` segs ->
                   (length (keySegments h) <= length (keySegments g))%nat
  | None => forall h, In h fs -> ~ keySegments h `prefix_of` segs
  end.

(** The non-empty pieces of a text between the characters that satisfy
    [p]. *)
Definition pieces (p : ascii -> bool) (cs : list ascii) : list (list ascii) :=
  List.filter Strings.nonEmpty (Strings.split_on p cs).

(** The entries of a call whose folders are all objects. *)
Definition objects (adds : list FolderToAdd) : list (option FolderToAdd) :=
  map Some adds.

(** The string form of a resource up to its path. *)
Definition uriPrefix (u : URI) : string :=
  (if String.eqb (scheme u) "" then "" else scheme u +:+ ":")
    +:+ (if negb (String.eqb (authority u) "") || String.eqb (scheme u) "file"
         then "//" else "")
    +:+ Strings.toLowerCase (authority u).

Module SampleNested.

(** The model of the snapshot with the folders [/a] and [/a/b]. *)
Definition model : Workspace2.t :=
  Workspace2.new "id" "ws" [Sample.a; SampleModel.inner].

(** One instance, constructed from that snapshot. *)
Definition oneHost : list Call :=
  [CallConstruct (Sample.data [Sample.a; SampleModel.inner])].

End SampleNested.

Module SampleSlash.

(** The folder [/a/], whose identifier has the segments of [/a]. *)
Definition slash : WorkspaceFolder := mkFolder (Uri.file "/a/") "a2" 1.

(** The model of the snapshot with the folders [/a] and [/a/]. *)
Definition model : Workspace2.t := Workspace2.new "id" "ws" [Sample.a; slash].

Definition host : t := constructor (Sample.data [Sample.a; slash]).

(** One instance, constructed from that snapshot. *)
Definition oneHost : list Call := [CallConstruct (Sample.data [Sample.a; slash])].

End SampleSlash.

(** * Properties *)

(** ** The order on strings *)

Section StringOrder.

Lemma compare_refl (s : string) : Strings.compare s s = 0.
Proof.
  unfold Strings.compare.
  pose proof (proj2 (String_as_OT.cmp_eq s s) eq_refl) as H.
  unfold String_as_OT.cmp in H. now rewrite H.
Qed.

Lemma compare_zero_eq (s u : string) : Strings.compare s u = 0 -> s = u.
Proof.
  unfold Strings.compare.
  destruct (String.compare s u) eqn:E; try discriminate.
  intros _. now apply String_as_OT.cmp_eq.
Qed.

Lemma compare_neg_iff (s u : string) :
  Strings.compare s u < 0 <-> String.compare s u = Lt.
Proof.
  unfold Strings.compare. destruct (String.compare s u); split; (lia || congruence).
Qed.

Lemma compare_flip (s u : string) :
  Strings.compare u s = - Strings.compare s u.
Proof.
  unfold Strings.compare.
  pose proof (String_as_OT.cmp_antisym u s) as H.
  unfold String_as_OT.cmp in H. rewrite H.
  now destruct (String.compare s u).
Qed.

Lemma compare_range (s u : string) :
  Strings.compare s u = -1 \/ Strings.compare s u = 0 \/ Strings.compare s u = 1.
Proof. unfold Strings.compare. destruct (String.compare s u); auto. Qed.

Lemma str_le_refl s : str_le s s.
Proof. unfold str_le. rewrite compare_refl. lia. Qed.

Lemma str_le_trans s u v : str_le s u -> str_le u v -> str_le s v.
Proof.
  unfold str_le. intros H1 H2.
  destruct (Z.eq_dec (Strings.compare s u) 0) as [E1|N1];
    [apply compare_zero_eq in E1; now subst|].
  destruct (Z.eq_dec (Strings.compare u v) 0) as [E2|N2];
    [apply compare_zero_eq in E2; now subst|].
  assert (L1 : String.compare s u = Lt) by (apply compare_neg_iff; lia).
  assert (L2 : String.compare u v = Lt) by (apply compare_neg_iff; lia).
  apply String_as_OT.cmp_lt in L1, L2.
  pose proof (String_as_OT.lt_trans _ _ _ L1 L2) as L.
  apply String_as_OT.cmp_lt in L. unfold String_as_OT.cmp in L.
  apply compare_neg_iff in L. lia.
Qed.

Lemma str_le_antisym s u : str_le s u -> str_le u s -> s = u.
Proof.
  unfold str_le. intros H1 H2. rewrite compare_flip in H2.
  apply compare_zero_eq. lia.
Qed.

Lemma str_le_total s u : ~ Strings.compare s u < 0 -> str_le u s.
Proof. unfold str_le. rewrite (compare_flip s u). lia. Qed.

End StringOrder.

(** ** The diff of two folder lists *)

Section DeltaFacts.
Context {T : Type}.
Variable cmp : T -> T -> Z.

Lemma delta_cons_cons (b a : T) (bs as' : list T) :
  Arrays.delta cmp (b :: bs) (a :: as') =
    if cmp b a =? 0 then Arrays.delta cmp bs as'
    else if cmp b a <? 0 then
      let '(removed, added) := Arrays.delta cmp bs (a :: as') in (b :: removed, added)
    else
      let '(removed, added) := Arrays.delta cmp (b :: bs) as' in (removed, a :: added).
Proof. reflexivity. Qed.

(** The diff is empty exactly when the two lists have the same length
    and the comparator answers 0 at every position. *)
Lemma delta_empty_iff (before after : list T) :
  Arrays.delta cmp before after = ([], []) <->
  Forall2 (fun b a => cmp b a = 0) before after.
Proof.
  revert after. induction before as [|b bs IHb]; intros after.
  - simpl. split.
    + intros H. injection H as ->. constructor.
    + intros H. inversion H. reflexivity.
  - induction after as [|a as' IHa].
    + simpl. split; intros H; [discriminate | inversion H].
    + rewrite delta_cons_cons.
      destruct (cmp b a =? 0) eqn:E0.
      * apply Z.eqb_eq in E0. rewrite IHb. split.
        -- intros H. now constructor.
        -- intros H. now inversion H.
      * apply Z.eqb_neq in E0.
        split; [|intros H; inversion H; contradiction].
        destruct (cmp b a <? 0).
        -- destruct (Arrays.delta cmp bs (a :: as')). discriminate.
        -- destruct (Arrays.delta cmp (b :: bs) as'). discriminate.
Qed.

Lemma delta_same (l : list T) :
  (forall x, cmp x x = 0) -> Arrays.delta cmp l l = ([], []).
Proof.
  intros Hrefl. apply delta_empty_iff.
  induction l; constructor; auto.
Qed.

End DeltaFacts.

(** ** Sorting by identifier *)

Global Instance str_le_transitive : Transitive str_le.
Proof. intros s u v. apply str_le_trans. Qed.

Global Instance str_le_antisymm : AntiSymm (=) str_le.
Proof. intros s u. apply str_le_antisym. Qed.

Section SortFacts.
Context {T : Type}.
Variable key : T -> string.

Lemma insert_Permutation (cmp : T -> T -> Z) (x : T) (l : list T) :
  Arrays.insert cmp x l ≡ₚ x :: l.
Proof.
  induction l as [|y l IH]; simpl; [reflexivity|].
  destruct (cmp x y <? 0); [reflexivity|].
  rewrite IH. apply perm_swap.
Qed.

Lemma sort_from_Permutation (cmp : T -> T -> Z) (l acc : list T) :
  fold_left (fun acc x => Arrays.insert cmp x acc) l acc ≡ₚ acc ++ l.
Proof.
  revert acc. induction l as [|x l IH]; intros acc; simpl.
  - now rewrite app_nil_r.
  - rewrite IH, insert_Permutation. simpl. apply Permutation_middle.
Qed.

Lemma sort_Permutation (cmp : T -> T -> Z) (l : list T) :
  Arrays.sort cmp l ≡ₚ l.
Proof. unfold Arrays.sort. now rewrite sort_from_Permutation. Qed.

Lemma map_key_insert (x : T) (l : list T) :
  map key (Arrays.insert (byKey key) x l)
  = Arrays.insert Strings.compare (key x) (map key l).
Proof.
  induction l as [|y l IH]; simpl; [reflexivity|].
  unfold byKey at 1. destruct (Strings.compare (key x) (key y) <? 0); simpl.
  - reflexivity.
  - now rewrite IH.
Qed.

Lemma map_key_sort_from (l acc : list T) :
  map key (fold_left (fun acc x => Arrays.insert (byKey key) x acc) l acc)
  = fold_left (fun acc x => Arrays.insert Strings.compare x acc)
              (map key l) (map key acc).
Proof.
  revert acc. induction l as [|x l IH]; intros acc; simpl; [reflexivity|].
  now rewrite IH, map_key_insert.
Qed.

(** Sorting by a key and reading the keys is sorting the keys. *)
Lemma map_key_sort (l : list T) :
  map key (Arrays.sort (byKey key) l) = Arrays.sort Strings.compare (map key l).
Proof. unfold Arrays.sort. now rewrite map_key_sort_from. Qed.

End SortFacts.

Lemma insert_HdRel (a x : string) (l : list string) :
  str_le a x -> HdRel str_le a l ->
  HdRel str_le a (Arrays.insert Strings.compare x l).
Proof.
  intros Hax Hal. destruct l as [|y l]; simpl.
  - now constructor.
  - destruct (Strings.compare x y <? 0); constructor; auto.
    now inversion Hal.
Qed.

Lemma insert_Sorted (x : string) (l : list string) :
  Sorted str_le l -> Sorted str_le (Arrays.insert Strings.compare x l).
Proof.
  induction 1 as [|y l Hs IH Hhd]; simpl.
  - repeat constructor.
  - destruct (Strings.compare x y <? 0) eqn:E.
    + apply Z.ltb_lt in E. constructor; [now constructor|].
      constructor. unfold str_le. lia.
    + apply Z.ltb_ge in E. constructor; [exact IH|].
      apply insert_HdRel; [|exact Hhd].
      apply str_le_total. lia.
Qed.

Lemma sort_from_Sorted (l acc : list string) :
  Sorted str_le acc ->
  Sorted str_le (fold_left (fun acc x => Arrays.insert Strings.compare x acc) l acc).
Proof.
  revert acc. induction l as [|x l IH]; intros acc Hacc; simpl; [exact Hacc|].
  apply IH. now apply insert_Sorted.
Qed.

Lemma sort_Sorted (l : list string) :
  Sorted str_le (Arrays.sort Strings.compare l).
Proof. apply sort_from_Sorted. constructor. Qed.

(** Two lists with the same strings, in any order, sort to the same list. *)
Lemma sort_strings_unique (l1 l2 : list string) :
  l1 ≡ₚ l2 -> Arrays.sort Strings.compare l1 = Arrays.sort Strings.compare l2.
Proof.
  intros Hp. apply (Sorted_unique str_le); try apply sort_Sorted.
  now rewrite !sort_Permutation.
Qed.

(** ** The model built from a snapshot *)

Lemma pickFolder_id (f : WorkspaceFolder) : Workspace2.pickFolder f = f.
Proof. now destruct f. Qed.

Lemma reviveFolder_id (f : WorkspaceFolder) : Workspace2.reviveFolder f = f.
Proof. now destruct f. Qed.

Lemma map_reviveFolder (fs : list WorkspaceFolder) :
  map Workspace2.reviveFolder fs = fs.
Proof. induction fs as [|f fs IH]; simpl; [|rewrite IH, reviveFolder_id]; reflexivity. Qed.

Lemma new_unfold (id name : string) (fs : list WorkspaceFolder) :
  Workspace2.new id name fs
  = Workspace2.mk id name fs fs (indexOf fs TernarySearchTree.forPaths).
Proof.
  unfold Workspace2.new.
  assert (G : forall wf st,
             fold_left (fun '(wf, st) f =>
                          let workspaceFolder := Workspace2.pickFolder f in
                          (wf ++ [workspaceFolder],
                           TernarySearchTree.set (Uri.toString (uri workspaceFolder))
                                                 workspaceFolder st)) fs (wf, st)
             = (wf ++ fs, indexOf fs st)).
  { induction fs as [|f fs IH]; intros wf st; simpl.
    - now rewrite app_nil_r.
    - rewrite pickFolder_id, IH, <- app_assoc. reflexivity. }
  now rewrite G.
Qed.

Lemma fromData_Some (d : IWorkspaceData) :
  Workspace2.fromData (Some d)
  = Some (Workspace2.mk (data_id d) (data_name d) (data_folders d) (data_folders d)
                        (indexOf (data_folders d) TernarySearchTree.forPaths)).
Proof. simpl. now rewrite map_reviveFolder, new_unfold. Qed.

Lemma workspaceFolders_fromData (data : option IWorkspaceData) :
  match Workspace2.fromData data with
  | Some w => Workspace2.workspaceFolders w
  | None => []
  end = dataFolders data.
Proof. destruct data as [d|]; [rewrite fromData_Some|]; reflexivity. Qed.

(** ** Authoritative snapshots and the change event *)

Lemma acceptWorkspaceData_unfold (this : t) (data : option IWorkspaceData) :
  acceptWorkspaceData this data
  = let '(removed, added) :=
      Arrays.delta _compareWorkspaceFolderByUri
                   (sortedRoots (_workspace this))
                   (sortedRoots (Workspace2.fromData data)) in
    fire (setWorkspace this (Workspace2.fromData data)) (mkEvent added removed).
Proof. reflexivity. Qed.

Lemma sortedRoots_fromData (data : option IWorkspaceData) :
  sortedRoots (Workspace2.fromData data)
  = Arrays.sort _compareWorkspaceFolderByUri (dataFolders data).
Proof. destruct data as [d|]; [rewrite fromData_Some|]; reflexivity. Qed.

Lemma delta_sorted_same_keys (l1 l2 : list WorkspaceFolder) :
  map folderKey l1 ≡ₚ map folderKey l2 ->
  Arrays.delta _compareWorkspaceFolderByUri
               (Arrays.sort _compareWorkspaceFolderByUri l1)
               (Arrays.sort _compareWorkspaceFolderByUri l2) = ([], []).
Proof.
  intros Hp. apply delta_empty_iff.
  pose proof (sort_strings_unique _ _ Hp) as Hk.
  rewrite <- !(map_key_sort folderKey) in Hk.
  change (byKey folderKey) with _compareWorkspaceFolderByUri in Hk.
  revert Hk.
  generalize (Arrays.sort _compareWorkspaceFolderByUri l1) as s1.
  generalize (Arrays.sort _compareWorkspaceFolderByUri l2) as s2.
  intros s2 s1. revert s2.
  induction s1 as [|a s1 IH]; intros [|b s2] Hk; simpl in Hk;
    try discriminate; constructor.
  - injection Hk as Hab _. unfold _compareWorkspaceFolderByUri.
    fold (folderKey a). fold (folderKey b). rewrite Hab. apply compare_refl.
  - injection Hk as _ Hk. now apply IH.
Qed.

(** C1 (as amended).  Every call of [$acceptWorkspaceData] fires exactly
    one change event, which carries the diff of the old and the new sorted
    roots; and when two consecutive snapshots name the same folder
    identifiers, in any order, the event of the second call has an empty
    [added] and an empty [removed] list. *)
Theorem acceptWorkspaceData_fires_once
        (this : t) (data1 data2 : option IWorkspaceData) :
  map folderKey (dataFolders data1) ≡ₚ map folderKey (dataFolders data2) ->
  (forall (s : t) (data : option IWorkspaceData),
      exists e,
        _onDidChangeWorkspace (acceptWorkspaceData s data)
        = _onDidChangeWorkspace s ++ [e]
        /\ (removed e, added e)
           = Arrays.delta _compareWorkspaceFolderByUri
                          (sortedRoots (_workspace s))
                          (sortedRoots (Workspace2.fromData data)))
  /\ let s1 := acceptWorkspaceData this data1 in
     _onDidChangeWorkspace (acceptWorkspaceData s1 data2)
     = _onDidChangeWorkspace s1 ++ [mkEvent [] []].
Proof.
  intros Hp. split.
  - intros s data. rewrite acceptWorkspaceData_unfold.
    destruct (Arrays.delta _ _ _) as [rem add]. now exists (mkEvent add rem).
  - cbv zeta.
    rewrite (acceptWorkspaceData_unfold (acceptWorkspaceData this data1) data2).
    assert (Hw : _workspace (acceptWorkspaceData this data1) = Workspace2.fromData data1).
    { rewrite acceptWorkspaceData_unfold. now destruct (Arrays.delta _ _ _). }
    rewrite Hw, !sortedRoots_fromData, (delta_sorted_same_keys _ _ Hp).
    reflexivity.
Qed.

(** The second of two identical snapshots still fires an event: the claim
    that it stays silent fails on the code (C1). *)
Lemma acceptWorkspaceData_same_snapshot_fires :
  let s1 := acceptWorkspaceData Sample.single (Sample.data [Sample.a]) in
  let s2 := acceptWorkspaceData s1 (Sample.data [Sample.a]) in
  _onDidChangeWorkspace s2 = _onDidChangeWorkspace s1 ++ [mkEvent [] []]
  /\ _onDidChangeWorkspace s2 <> _onDidChangeWorkspace s1.
Proof.
  cbv zeta. split.
  - reflexivity.
  - intros H. apply (f_equal length) in H. vm_compute in H. discriminate.
Qed.

Lemma acceptWorkspaceData_fires_once_witness :
  map folderKey (dataFolders (Sample.data [Sample.x; Sample.a]))
    ≡ₚ map folderKey (dataFolders (Sample.data [Sample.a; Sample.x]))
  /\ _onDidChangeWorkspace
       (acceptWorkspaceData
          (acceptWorkspaceData Sample.single (Sample.data [Sample.x; Sample.a]))
          (Sample.data [Sample.a; Sample.x]))
     = _onDidChangeWorkspace
         (acceptWorkspaceData Sample.single (Sample.data [Sample.x; Sample.a]))
       ++ [mkEvent [] []].
Proof.
  split.
  - simpl. apply perm_swap.
  - apply (acceptWorkspaceData_fires_once Sample.single
             (Sample.data [Sample.x; Sample.a]) (Sample.data [Sample.a; Sample.x])).
    simpl. apply perm_swap.
Defined.

(** ** Proposing an edit of the folder list *)

Lemma updateWorkspaceFolders_unfold
      (isLinux : bool) (this : t) (ext : string) (i d : Z) (adds : list FolderToAdd) :
  updateWorkspaceFolders isLinux this ext (JsNumber i) (JsNumber d) adds
  = if (i <? 0) || (d <? 0) then (false, this)
    else if (d =? 0) && (length (validatedDistinct isLinux adds) =? 0)%nat
    then (false, this)
    else if i + d >? Z.of_nat (length (currentWorkspaceFolders this))
    then (false, this)
    else
      let '(removed, added) :=
        Arrays.delta _compareWorkspaceFolderByUriAndName
                     (currentWorkspaceFolders this)
                     (prospective isLinux this i d adds) in
      if (length added =? 0)%nat && (length removed =? 0)%nat
      then (false, this)
      else (true, accepted isLinux this ext i d adds).
Proof. reflexivity. Qed.

Lemma length_zero_nil {A : Type} (l : list A) : (length l =? 0)%nat = true <-> l = [].
Proof. destruct l; simpl; split; (reflexivity || discriminate). Qed.

(** A call that passes validation is answered by the no-change guard. *)
Lemma updateWorkspaceFolders_valid
      (isLinux : bool) (this : t) (ext : string) (i d : Z) (adds : list FolderToAdd) :
  validCall isLinux this i d adds ->
  updateWorkspaceFolders isLinux this ext (JsNumber i) (JsNumber d) adds
  = if bool_decide (Arrays.delta _compareWorkspaceFolderByUriAndName
                                 (currentWorkspaceFolders this)
                                 (prospective isLinux this i d adds) = ([], []))
    then (false, this)
    else (true, accepted isLinux this ext i d adds).
Proof.
  intros (Hi & Hd & Hsome & Hlen). rewrite updateWorkspaceFolders_unfold.
  replace ((i <? 0) || (d <? 0)) with false
    by (symmetry; apply orb_false_iff; split; apply Z.ltb_ge; lia).
  destruct ((d =? 0) && (length (validatedDistinct isLinux adds) =? 0)%nat) eqn:E.
  { apply andb_true_iff in E as [E1 E2]. apply Z.eqb_eq in E1.
    apply length_zero_nil in E2. tauto. }
  replace (i + d >? Z.of_nat (length (currentWorkspaceFolders this))) with false
    by (symmetry; rewrite Z.gtb_ltb; apply Z.ltb_ge; lia).
  destruct (Arrays.delta _ _ _) as [rem add].
  destruct add, rem; simpl; try reflexivity;
    rewrite bool_decide_eq_false_2; (reflexivity || discriminate).
Qed.

(** Whatever the arguments, an answer [false] comes with the state the
    call started from. *)
Lemma updateWorkspaceFolders_false_keeps_state
      (isLinux : bool) (this this' : t) (ext : string) (index deleteCount : JsValue)
      (adds : list FolderToAdd) :
  updateWorkspaceFolders isLinux this ext index deleteCount adds = (false, this') ->
  this' = this.
Proof.
  destruct index as [i|], deleteCount as [d|]; try (simpl; congruence).
  rewrite updateWorkspaceFolders_unfold.
  repeat (match goal with |- context [if ?c then _ else _] => destruct c end;
          try congruence).
  destruct (Arrays.delta _ _ _) as [rem add].
  destruct ((length add =? 0)%nat && (length rem =? 0)%nat); congruence.
Qed.

(** An answer [true] means the call passed validation, the guard saw a
    difference, and the state is the accepted one. *)
Lemma updateWorkspaceFolders_true_inv
      (isLinux : bool) (this this' : t) (ext : string) (index deleteCount : JsValue)
      (adds : list FolderToAdd) :
  updateWorkspaceFolders isLinux this ext index deleteCount adds = (true, this') ->
  exists i d,
    index = JsNumber i /\ deleteCount = JsNumber d
    /\ validCall isLinux this i d adds
    /\ ~ sameByUriAndName (currentWorkspaceFolders this)
                          (prospective isLinux this i d adds)
    /\ this' = accepted isLinux this ext i d adds.
Proof.
  destruct index as [i|], deleteCount as [d|]; try (simpl; congruence).
  rewrite updateWorkspaceFolders_unfold. intros H. exists i, d.
  destruct ((i <? 0) || (d <? 0)) eqn:E1; [congruence|].
  destruct ((d =? 0) && (length (validatedDistinct isLinux adds) =? 0)%nat) eqn:E2;
    [congruence|].
  destruct (i + d >? Z.of_nat (length (currentWorkspaceFolders this))) eqn:E3;
    [congruence|].
  apply orb_false_iff in E1 as [E1a E1b]. apply Z.ltb_ge in E1a, E1b.
  rewrite Z.gtb_ltb in E3. apply Z.ltb_ge in E3.
  assert (Hv : validCall isLinux this i d adds).
  { repeat split; try lia. intros [Hd Hn]. subst d. rewrite Hn in E2.
    simpl in E2. discriminate. }
  destruct (Arrays.delta _ _ _) as [rem add] eqn:Ed.
  destruct ((length add =? 0)%nat && (length rem =? 0)%nat) eqn:E4; [congruence|].
  repeat split; try (apply Hv); try congruence.
  intros Hsame. apply delta_empty_iff in Hsame. rewrite Hsame in Ed.
  injection Ed as <- <-. simpl in E4. discriminate.
Qed.

(** C2.  With the folders [/a] (index 0) and [/b] (index 1), inserting
    [/c] at position 1 is accepted, and the list then read back carries
    the indices 0, 0, 1: the inserted folder is numbered by its place
    among the added folders and the folders behind it keep their old
    numbers, so the indices are not the list positions 0, 1, 2. *)
Theorem updateWorkspaceFolders_index_not_position :
  let call := updateWorkspaceFolders true Sample.ab "ext" (JsNumber 1) (JsNumber 0)
                                     [Sample.add "/c"] in
  fst call = true
  /\ option_map (map folderKey) (getWorkspaceFolders (snd call))
     = Some ["file:///a"; "file:///c"; "file:///b"]
  /\ option_map (map index) (getWorkspaceFolders (snd call)) = Some [0; 0; 1].
Proof. cbv zeta. repeat split; reflexivity. Qed.

(** C3.  With the single folder [/a] named [z], replacing it by [/b]
    named [y] passes validation and changes both the identifier and the
    name, yet the call answers [false], sends nothing and keeps the state:
    the comparator adds -1 for the identifiers to +1 for the names and the
    guard takes the sum 0 for "nothing changed". *)
Theorem updateWorkspaceFolders_suppresses_a_change :
  let adds := [Sample.addNamed "/b" "y"] in
  validCall true Sample.renamed 0 1 adds
  /\ currentWorkspaceFolders Sample.renamed = [mkFolder (Uri.file "/a") "z" 0]
  /\ prospective true Sample.renamed 0 1 adds = [mkFolder (Uri.file "/b") "y" 0]
  /\ _compareWorkspaceFolderByUriAndName
       (mkFolder (Uri.file "/a") "z" 0) (mkFolder (Uri.file "/b") "y" 0) = 0
  /\ updateWorkspaceFolders true Sample.renamed "ext" (JsNumber 0) (JsNumber 1) adds
     = (false, Sample.renamed).
Proof.
  cbv zeta. repeat split; try reflexivity; try (vm_compute; congruence).
  intros [_ H]. vm_compute in H. discriminate.
Qed.

(** In the state without a workspace an accepted call is not visible in
    [getWorkspaceFolders]: the claim that it is fails there (C4). *)
Lemma updateWorkspaceFolders_closed_not_visible :
  let call := updateWorkspaceFolders true Sample.closed "ext" (JsNumber 0) (JsNumber 0)
                                     [Sample.add "/a"] in
  fst call = true
  /\ prospective true Sample.closed 0 0 [Sample.add "/a"] = [Sample.a]
  /\ getWorkspaceFolders (snd call) = None
  /\ getWorkspaceFolders (snd call)
     <> Some (prospective true Sample.closed 0 0 [Sample.add "/a"]).
Proof. cbv zeta. repeat split; try reflexivity. discriminate. Qed.

Lemma getWorkspaceFolders_accepted
      (isLinux : bool) (this : t) (ext : string) (i d : Z) (adds : list FolderToAdd) :
  getWorkspaceFolders (accepted isLinux this ext i d adds)
  = match _workspace this with
    | Some _ => Some (prospective isLinux this i d adds)
    | None => None
    end.
Proof.
  unfold accepted, getWorkspaceFolders.
  destruct (_workspace this) as [w|] eqn:E; simpl.
  - unfold Workspace2.workspaceFolders. simpl. now rewrite map_reviveFolder.
  - now rewrite E.
Qed.

(** C4 (as amended).  When a workspace is open and
    [updateWorkspaceFolders] answers [true], the next
    [getWorkspaceFolders] returns the prospective folder list; when no
    workspace is open it still returns nothing. *)
Theorem updateWorkspaceFolders_optimistic
        (isLinux : bool) (this this' : t) (ext : string) (index deleteCount : JsValue)
        (adds : list FolderToAdd) :
  updateWorkspaceFolders isLinux this ext index deleteCount adds = (true, this') ->
  exists i d,
    index = JsNumber i /\ deleteCount = JsNumber d
    /\ getWorkspaceFolders this'
       = match _workspace this with
         | Some _ => Some (prospective isLinux this i d adds)
         | None => None
         end.
Proof.
  intros H. apply updateWorkspaceFolders_true_inv in H
    as (i & d & -> & -> & _ & _ & ->).
  exists i, d. repeat split. apply getWorkspaceFolders_accepted.
Qed.

Lemma updateWorkspaceFolders_optimistic_witness :
  updateWorkspaceFolders true Sample.single "ext" (JsNumber 1) (JsNumber 0)
                         [Sample.add "/b"]
  = (true, accepted true Sample.single "ext" 1 0 [Sample.add "/b"])
  /\ exists i d,
      JsNumber 1 = JsNumber i /\ JsNumber 0 = JsNumber d
      /\ getWorkspaceFolders (accepted true Sample.single "ext" 1 0 [Sample.add "/b"])
         = match _workspace Sample.single with
           | Some _ => Some (prospective true Sample.single i d [Sample.add "/b"])
           | None => None
           end.
Proof.
  split.
  - reflexivity.
  - apply (updateWorkspaceFolders_optimistic true Sample.single _ "ext").
    reflexivity.
Defined.

(** On entries that are all objects, a call that the validation turns
    down answers [false] and returns the state it was given. *)
Lemma updateWorkspaceFolders_turned_down
      (isLinux : bool) (this : t) (ext : string) (index deleteCount : JsValue)
      (adds : list FolderToAdd) :
  rejected isLinux this index deleteCount adds ->
  updateWorkspaceFolders isLinux this ext index deleteCount adds = (false, this).
Proof.
  destruct index as [i|], deleteCount as [d|]; try reflexivity.
  unfold rejected. rewrite updateWorkspaceFolders_unfold.
  intros [Hi | [Hd | [[Hd Hn] | Hlen]]].
  - now replace (i <? 0) with true by (symmetry; apply Z.ltb_lt; lia).
  - replace (d <? 0) with true by (symmetry; apply Z.ltb_lt; lia).
    now rewrite orb_true_r.
  - subst d. rewrite Hn. simpl. destruct (i <? 0); reflexivity.
  - destruct ((i <? 0) || (d <? 0)); [reflexivity|].
    destruct ((d =? 0) && _); [reflexivity|].
    now replace (i + d >? Z.of_nat (length (currentWorkspaceFolders this))) with true
      by (symmetry; rewrite Z.gtb_ltb; apply Z.ltb_lt; lia).
Qed.

(** *** entries as they come *)

Lemma validatedDistinctOf_from (isLinux : bool) (adds : list FolderToAdd)
      (acc : list ValidatedFolder) :
  fold_left (validateEntry isLinux) (objects adds) (Returns acc)
  = Returns (fold_left (validateStep isLinux) adds acc).
Proof.
  revert acc. induction adds as [|f adds IH]; intros acc; [reflexivity|].
  simpl. apply IH.
Qed.

(** On entries that are all objects the loop does not throw, and leaves
    the validated folders of [validatedDistinct]. *)
Lemma validatedDistinctOf_objects (isLinux : bool) (adds : list FolderToAdd) :
  validatedDistinctOf isLinux (objects adds)
  = Returns (validatedDistinct isLinux adds).
Proof. apply validatedDistinctOf_from. Qed.

Lemma validateEntry_thrown (isLinux : bool) (entries : list (option FolderToAdd)) :
  fold_left (validateEntry isLinux) entries ThrowsTypeError = ThrowsTypeError.
Proof. induction entries as [|e entries IH]; [reflexivity | exact IH]. Qed.

(** The loop throws exactly when one of the entries is no object. *)
Lemma validatedDistinctOf_throws (isLinux : bool)
      (entries : list (option FolderToAdd)) :
  validatedDistinctOf isLinux entries = ThrowsTypeError <-> In None entries.
Proof.
  unfold validatedDistinctOf. generalize (@nil ValidatedFolder) as acc.
  induction entries as [|e entries IH]; intros acc; simpl.
  - split; [discriminate | tauto].
  - destruct e as [f|]; simpl.
    + rewrite IH. split; [tauto | intros [H | H]; [discriminate | exact H]].
    + rewrite validateEntry_thrown. split; auto.
Qed.

(** On entries that are all objects the call is the method on these
    objects. *)
Lemma updateWorkspaceFoldersCall_objects
      (isLinux : bool) (this : t) (ext : string) (index deleteCount : JsValue)
      (adds : list FolderToAdd) :
  updateWorkspaceFoldersCall isLinux this ext index deleteCount (objects adds)
  = Returns (updateWorkspaceFolders isLinux this ext index deleteCount adds).
Proof.
  unfold updateWorkspaceFoldersCall. now rewrite validatedDistinctOf_objects.
Qed.

(** The call throws exactly when one of the entries is no object,
    whatever the numbers are: the entries are read before the numbers are
    looked at. *)
Lemma updateWorkspaceFoldersCall_throws
      (isLinux : bool) (this : t) (ext : string) (index deleteCount : JsValue)
      (entries : list (option FolderToAdd)) :
  updateWorkspaceFoldersCall isLinux this ext index deleteCount entries
  = ThrowsTypeError
  <-> In None entries.
Proof.
  rewrite <- (validatedDistinctOf_throws isLinux).
  unfold updateWorkspaceFoldersCall.
  destruct (validatedDistinctOf isLinux entries); split; congruence.
Qed.

(** C5.  A call whose entries to add are all objects and that the
    validation turns down (an index or a delete count that is not a
    number or is negative, nothing to delete and nothing to add after the
    duplicates are dropped, or more to delete than there is) does not
    throw: it answers [false] and returns the state it was given, in
    which folder list, requests sent, events fired and listeners are all
    untouched. *)
Theorem updateWorkspaceFolders_rejected
        (isLinux : bool) (this : t) (ext : string) (index deleteCount : JsValue)
        (entries : list (option FolderToAdd)) (adds : list FolderToAdd) :
  entries = objects adds ->
  rejected isLinux this index deleteCount adds ->
  updateWorkspaceFoldersCall isLinux this ext index deleteCount entries
  = Returns (false, this).
Proof.
  intros -> Hrej. rewrite updateWorkspaceFoldersCall_objects.
  now rewrite (updateWorkspaceFolders_turned_down isLinux this ext _ _ adds Hrej).
Qed.

Lemma updateWorkspaceFolders_rejected_witness :
  [Some (Sample.add "/b")] = objects [Sample.add "/b"]
  /\ rejected false Sample.double (JsNumber 1) (JsNumber 2) [Sample.add "/b"]
  /\ updateWorkspaceFoldersCall false Sample.double "ext" (JsNumber 1) (JsNumber 2)
                                [Some (Sample.add "/b")]
     = Returns (false, Sample.double).
Proof.
  split; [reflexivity|]. split.
  - right. right. right. vm_compute. reflexivity.
  - apply (updateWorkspaceFolders_rejected false Sample.double "ext"
                                           (JsNumber 1) (JsNumber 2)
                                           [Some (Sample.add "/b")] [Sample.add "/b"]).
    + reflexivity.
    + right. right. right. vm_compute. reflexivity.
Defined.

(** A call with a negative index, or with an index that is not a number,
    and an entry that is [undefined]: line 100 reads [folderToAdd.uri]
    before line 106 looks at the numbers, so the call throws instead of
    answering [false]. *)
Lemma updateWorkspaceFolders_rejected_throws :
  -1 < 0
  /\ updateWorkspaceFoldersCall true Sample.double "ext" (JsNumber (-1)) (JsNumber 0)
                                [None]
     = ThrowsTypeError
  /\ updateWorkspaceFoldersCall true Sample.double "ext" JsNotNumber (JsNumber 0)
                                [Some (Sample.add "/b"); None]
     = ThrowsTypeError
  /\ updateWorkspaceFoldersCall true Sample.double "ext" (JsNumber (-1)) (JsNumber 0)
                                [None]
     <> Returns (false, Sample.double).
Proof.
  split; [lia|]. split; [reflexivity|]. split; [reflexivity | discriminate].
Qed.

(** ** The path index *)

Section PathIndex.
Context {E : Type}.
Implicit Types (t : gmap (list string) E) (pre rest : list string).

Lemma findLongest_None t pre rest :
  TernarySearchTree.findLongest t pre rest = None ->
  forall k, (k <= length rest)%nat -> t !! (pre ++ take k rest) = None.
Proof.
  revert pre. induction rest as [|s rest IH]; intros pre H k Hk; simpl in *.
  - rewrite take_nil, app_nil_r. exact H.
  - destruct (TernarySearchTree.findLongest t (pre ++ [s]) rest) eqn:E1;
      [discriminate|].
    destruct k as [|k]; simpl.
    + now rewrite app_nil_r.
    + rewrite (cons_middle s), app_assoc. apply IH; [exact E1 | lia].
Qed.

Lemma findLongest_Some t pre rest (e : E) :
  TernarySearchTree.findLongest t pre rest = Some e ->
  exists k, (k <= length rest)%nat
            /\ t !! (pre ++ take k rest) = Some e
            /\ forall j, (k < j <= length rest)%nat ->
                         t !! (pre ++ take j rest) = None.
Proof.
  revert pre. induction rest as [|s rest IH]; intros pre H; simpl in *.
  - exists 0%nat. rewrite take_nil, app_nil_r. repeat split; auto. lia.
  - destruct (TernarySearchTree.findLongest t (pre ++ [s]) rest) eqn:E1.
    + injection H as ->. destruct (IH _ E1) as (k & Hk & Hget & Hmax).
      exists (S k). simpl. rewrite (cons_middle s), app_assoc.
      repeat split; [lia | exact Hget |].
      intros [|j] Hj; [lia|]. simpl. rewrite (cons_middle s), app_assoc.
      apply Hmax. lia.
    + exists 0%nat. simpl. rewrite app_nil_r. repeat split; [lia | exact H |].
      intros [|j] Hj; [lia|]. simpl. rewrite (cons_middle s), app_assoc.
      apply (findLongest_None _ _ _ E1). lia.
Qed.

End PathIndex.

Lemma indexOf_lookup_Some (fs : list WorkspaceFolder)
      (t : gmap (list string) WorkspaceFolder) (k : list string) (g : WorkspaceFolder) :
  indexOf fs t !! k = Some g ->
  (In g fs /\ keySegments g = k) \/ t !! k = Some g.
Proof.
  revert t. induction fs as [|f fs IH]; intros t H; simpl in *; [now right|].
  apply IH in H as [[Hin Hk] | H]; [left; auto|].
  unfold TernarySearchTree.set in H.
  destruct (decide (Paths.segments (folderKey f) = k)) as [Heq|Hne].
  - subst k. rewrite lookup_insert_eq in H. injection H as ->. left. auto.
  - rewrite lookup_insert_ne in H by exact Hne. now right.
Qed.

Lemma indexOf_lookup_None (fs : list WorkspaceFolder)
      (t : gmap (list string) WorkspaceFolder) (k : list string) :
  indexOf fs t !! k = None ->
  t !! k = None /\ forall g, In g fs -> keySegments g <> k.
Proof.
  revert t. induction fs as [|f fs IH]; intros t H; simpl in *.
  - split; [exact H | tauto].
  - apply IH in H as [H Hfs]. unfold TernarySearchTree.set in H.
    destruct (decide (Paths.segments (folderKey f) = k)) as [Heq|Hne].
    + subst k. rewrite lookup_insert_eq in H. discriminate.
    + rewrite lookup_insert_ne in H by exact Hne. split; [exact H|].
      intros g [<- | Hin]; [exact Hne | now apply Hfs].
Qed.

(** Every folder of the snapshot has an entry under its own key, held by
    a folder of the snapshot with that key. *)
Lemma indexOf_lookup_folder (fs : list WorkspaceFolder) (f : WorkspaceFolder) :
  In f fs ->
  exists g, In g fs /\ keySegments g = keySegments f
            /\ indexOf fs TernarySearchTree.forPaths !! keySegments f = Some g.
Proof.
  intros Hin.
  destruct (indexOf fs TernarySearchTree.forPaths !! keySegments f) as [g|] eqn:E.
  - exists g. apply indexOf_lookup_Some in E as [[Hg Hk] | E].
    + auto.
    + unfold TernarySearchTree.forPaths in E. rewrite lookup_empty in E. discriminate.
  - apply indexOf_lookup_None in E as [_ E]. now destruct (E f Hin).
Qed.

Lemma contains_take (f : WorkspaceFolder) (u : URI) :
  contains f u ->
  keySegments f = take (length (keySegments f)) (uriSegments u)
  /\ (length (keySegments f) <= length (uriSegments u))%nat.
Proof.
  intros [k Hk]. unfold contains. rewrite Hk. split.
  - now rewrite take_app_length.
  - rewrite length_app. lia.
Qed.

(** What the path index answers is the owner among the folders it was
    built from. *)
Lemma findSubstr_owner (fs : list WorkspaceFolder) (u : URI) :
  owner fs u (TernarySearchTree.findSubstr
                (Uri.toString u) (indexOf fs TernarySearchTree.forPaths)).
Proof.
  unfold TernarySearchTree.findSubstr. fold (uriSegments u).
  destruct (TernarySearchTree.findLongest _ [] (uriSegments u)) as [g|] eqn:E; simpl.
  - apply findLongest_Some in E as (k & Hk & Hget & Hmax). simpl in Hget, Hmax.
    apply indexOf_lookup_Some in Hget as [[Hin Hkey] | Hget];
      [|unfold TernarySearchTree.forPaths in Hget; rewrite lookup_empty in Hget;
        discriminate].
    assert (Hlen : length (keySegments g) = k)
      by (rewrite Hkey; now apply length_take_le).
    repeat split; [exact Hin | unfold contains; rewrite Hkey; apply prefix_take |].
    intros h Hh Hc. apply contains_take in Hc as [Htake Hle].
    destruct (le_lt_dec (length (keySegments h)) k) as [Hok|Hlt]; [lia|].
    destruct (indexOf_lookup_folder fs h Hh) as (g' & _ & _ & Hsome).
    rewrite Htake, Hmax in Hsome by lia. discriminate.
  - intros h Hh Hc. apply contains_take in Hc as [Htake Hle].
    destruct (indexOf_lookup_folder fs h Hh) as (g' & _ & _ & Hsome).
    pose proof (findLongest_None _ _ _ E (length (keySegments h)) Hle) as Hnone.
    simpl in Hnone. rewrite <- Htake in Hnone. congruence.
Qed.

(** ** Resolving a resource to its folder *)

Lemma fromData_indexed (data : option IWorkspaceData) (w : Workspace2.t) :
  Workspace2.fromData data = Some w -> indexed w.
Proof.
  destruct data as [d|]; [|discriminate].
  rewrite fromData_Some. intros [= <-]. reflexivity.
Qed.

Lemma constructor_hostIndexed (data : option IWorkspaceData) :
  hostIndexed (constructor data).
Proof. intros w H. now apply (fromData_indexed data). Qed.

Lemma acceptWorkspaceData_workspace (this : t) (data : option IWorkspaceData) :
  _workspace (acceptWorkspaceData this data) = Workspace2.fromData data.
Proof. rewrite acceptWorkspaceData_unfold. now destruct (Arrays.delta _ _ _). Qed.

Lemma acceptWorkspaceData_hostIndexed (this : t) (data : option IWorkspaceData) :
  hostIndexed (acceptWorkspaceData this data).
Proof.
  intros w H. rewrite acceptWorkspaceData_workspace in H.
  now apply (fromData_indexed data).
Qed.

Lemma updateWorkspaceFolders_hostIndexed
      (isLinux : bool) (this : t) (ext : string) (index deleteCount : JsValue)
      (adds : list FolderToAdd) :
  hostIndexed this ->
  hostIndexed (snd (updateWorkspaceFolders isLinux this ext index deleteCount adds)).
Proof.
  intros Hidx.
  destruct (updateWorkspaceFolders isLinux this ext index deleteCount adds)
    as [[|] this'] eqn:E; simpl.
  - apply updateWorkspaceFolders_true_inv in E as (i & d & _ & _ & _ & _ & ->).
    unfold accepted. destruct (_workspace this) as [w|] eqn:Ew; simpl.
    + intros w' [= <-]. unfold indexed. simpl. now apply Hidx.
    + intros w' H. simpl in H. congruence.
  - apply updateWorkspaceFolders_false_keeps_state in E. now subst.
Qed.

(** With [/a] and [/a/b] as folders: a file below [/a/b] belongs to
    [/a/b], the folder [/a/b] itself belongs to [/a] when the parent is
    asked for, and [/a] then belongs to no folder. *)
Example getWorkspaceFolder_nested :
  getWorkspaceFolder SampleModel.nested (Uri.file "/a/b/c.txt") false
    = Some SampleModel.inner
  /\ getWorkspaceFolder SampleModel.nested (Uri.file "/a/b") true = Some Sample.a
  /\ getWorkspaceFolder SampleModel.nested (Uri.file "/a/b") false
     = Some SampleModel.inner
  /\ getWorkspaceFolder SampleModel.nested (Uri.file "/a") true = None
  /\ getWorkspaceFolder SampleModel.nested (Uri.file "/ab/c.txt") false = None.
Proof. repeat split; reflexivity. Qed.

(** ** What an accepted edit leaves alone *)

Lemma accepted_frame
      (isLinux : bool) (this : t) (ext : string) (i d : Z) (adds : list FolderToAdd) :
  let this' := accepted isLinux this ext i d adds in
  match _workspace this, _workspace this' with
  | Some w, Some w' =>
      Workspace2._structure w' = Workspace2._structure w
      /\ Workspace2.folders w' = Workspace2.folders w
      /\ Workspace2.id w' = Workspace2.id w
      /\ Workspace2.name w' = Workspace2.name w
  | None, None => True
  | _, _ => False
  end.
Proof.
  unfold accepted. destruct (_workspace this) as [w|] eqn:E; simpl.
  - repeat split.
  - now rewrite E.
Qed.

(** C7.  After an accepted [updateWorkspaceFolders], the answers of
    [getWorkspaceFolder], [getRelativePath] and [getPath] are those of the
    state before the call: [trySetWorkspaceFolders] replaces the folder
    list that [getWorkspaceFolders] reads (when a workspace is open) and
    leaves the path index and the base folder list as they were.  The next
    [$acceptWorkspaceData] installs the model built from its snapshot,
    whatever the state before. *)
Theorem updateWorkspaceFolders_frame
        (isLinux : bool) (this this' : t) (ext : string) (index deleteCount : JsValue)
        (adds : list FolderToAdd) :
  updateWorkspaceFolders isLinux this ext index deleteCount adds = (true, this') ->
  (forall u resolveParent,
      getWorkspaceFolder this' u resolveParent = getWorkspaceFolder this u resolveParent)
  /\ (forall cwd pathOrUri includeWorkspace,
         getRelativePath cwd this' pathOrUri includeWorkspace
         = getRelativePath cwd this pathOrUri includeWorkspace)
  /\ getPath this' = getPath this
  /\ (forall w' : Workspace2.t,
         _workspace this' = Some w' ->
         exists (w : Workspace2.t) (i d : Z),
           _workspace this = Some w
           /\ index = JsNumber i /\ deleteCount = JsNumber d
           /\ Workspace2._structure w' = Workspace2._structure w
           /\ Workspace2.folders w' = Workspace2.folders w
           /\ Workspace2.workspaceFolders w' = prospective isLinux this i d adds)
  /\ (forall data,
         _workspace (acceptWorkspaceData this' data) = Workspace2.fromData data).
Proof.
  intros H.
  apply updateWorkspaceFolders_true_inv in H as (i & d & -> & -> & _ & _ & ->).
  pose proof (getWorkspaceFolders_accepted isLinux this ext i d adds) as Hvis.
  pose proof (accepted_frame isLinux this ext i d adds) as Hf. cbv zeta in Hf.
  assert (Hget : forall u r,
             getWorkspaceFolder (accepted isLinux this ext i d adds) u r
             = getWorkspaceFolder this u r).
  { intros u r. unfold getWorkspaceFolder.
    destruct (_workspace this) as [w|], (_workspace (accepted _ _ _ _ _ _)) as [w'|];
      try tauto.
    destruct Hf as (Hs & _). unfold Workspace2.getWorkspaceFolder. now rewrite Hs. }
  split; [exact Hget|]. split; [|split; [|split]].
  - intros cwd p inc. unfold getRelativePath, workspace.
    destruct p as [s|u|]; try reflexivity; rewrite Hget;
      (destruct (_workspace this) as [w|],
               (_workspace (accepted _ _ _ _ _ _)) as [w'|]; try tauto;
       destruct Hf as (_ & Hfs & _); now rewrite Hfs).
  - unfold getPath.
    destruct (_workspace this) as [w|], (_workspace (accepted _ _ _ _ _ _)) as [w'|];
      try tauto.
    destruct Hf as (_ & Hfs & _). now rewrite Hfs.
  - intros w' Hw'. unfold getWorkspaceFolders in Hvis. rewrite Hw' in Hvis. rewrite Hw' in Hf.
    destruct (_workspace this) as [w|]; [|tauto].
    exists w, i, d. destruct Hf as (Hs & Hfs & _). injection Hvis as Hvis.
    repeat split; assumption.
  - intros data. apply acceptWorkspaceData_workspace.
Qed.

Lemma updateWorkspaceFolders_frame_witness :
  updateWorkspaceFolders true Sample.single "ext" (JsNumber 1) (JsNumber 0)
                         [Sample.add "/c"]
  = (true, accepted true Sample.single "ext" 1 0 [Sample.add "/c"])
  /\ getPath (accepted true Sample.single "ext" 1 0 [Sample.add "/c"])
     = getPath Sample.single.
Proof.
  split.
  - reflexivity.
  - apply (updateWorkspaceFolders_frame true Sample.single _ "ext" (JsNumber 1)
             (JsNumber 0) [Sample.add "/c"]).
    reflexivity.
Defined.

(** After [/c] is added to the single folder [/a], the folder list shows
    [/c], while a file below [/c] still resolves to no folder and is not
    made relative. *)
Example updateWorkspaceFolders_stale_index :
  let this' := snd (updateWorkspaceFolders true Sample.single "ext" (JsNumber 1)
                                           (JsNumber 0) [Sample.add "/c"]) in
  option_map (map folderKey) (getWorkspaceFolders this')
    = Some ["file:///a"; "file:///c"]
  /\ getWorkspaceFolder this' (Uri.file "/c/x.txt") false = None
  /\ getRelativePath "/home" this' (PathString "/c/x.txt") None = Some "/c/x.txt"
  /\ getRelativePath "/home" this' (PathString "/a/x.txt") None = Some "x.txt".
Proof. cbv zeta. repeat split; reflexivity. Qed.

(** ** Duplicates among the folders to add *)

Lemma sameIdentifier_key (isLinux : bool) (f g : ValidatedFolder) :
  sameIdentifier isLinux f g = true
  <-> identifierKey isLinux (v_uri f) = identifierKey isLinux (v_uri g).
Proof.
  unfold sameIdentifier, Resources.isEqual, identifierKey, Strings.equalsIgnoreCase.
  destruct isLinux; simpl; apply String.eqb_eq.
Qed.

Lemma sameIdentifier_trans (isLinux : bool) (f g h : ValidatedFolder) :
  sameIdentifier isLinux f g = true -> sameIdentifier isLinux g h = true ->
  sameIdentifier isLinux f h = true.
Proof. rewrite !sameIdentifier_key. congruence. Qed.

Lemma validateStep_valid (isLinux : bool) (acc : list ValidatedFolder)
      (f : FolderToAdd) (u : URI) :
  add_uri f = Some u ->
  validateStep isLinux acc f
  = if existsb (fun e => sameIdentifier isLinux e (mkValidated u (add_name f))) acc
    then acc else acc ++ [mkValidated u (add_name f)].
Proof. intros H. unfold validateStep. now rewrite H. Qed.

(** The loop, started from the folders [acc] kept so far, against the
    spec's definition started from the folders [earlier] seen so far,
    when the two lists cover the same identifiers. *)
Lemma validatedDistinct_from (isLinux : bool) (adds : list FolderToAdd) :
  forall acc earlier : list ValidatedFolder,
    (forall g, existsb (fun e => sameIdentifier isLinux e g) acc
               = existsb (fun e => sameIdentifier isLinux e g) earlier) ->
    fold_left (validateStep isLinux) adds acc
    = acc ++ firstOccurrences (sameIdentifier isLinux) earlier (validFolders adds).
Proof.
  induction adds as [|f adds IH]; intros acc earlier Hcover; simpl.
  - now rewrite app_nil_r.
  - unfold validFolders. simpl. fold (validFolders adds).
    destruct (add_uri f) as [u|] eqn:Eu.
    + rewrite (validateStep_valid _ _ _ _ Eu). simpl.
      set (v := mkValidated u (add_name f)). rewrite <- (Hcover v).
      destruct (existsb (fun e => sameIdentifier isLinux e v) acc) eqn:Ev.
      * simpl. apply IH. intros g. simpl. rewrite <- Hcover.
        destruct (sameIdentifier isLinux v g) eqn:Evg; [|reflexivity].
        simpl. apply existsb_exists in Ev as (e & He & Hev).
        apply existsb_exists. exists e. split; [exact He|].
        now apply (sameIdentifier_trans _ _ v).
      * rewrite (IH (acc ++ [v]) (v :: earlier)).
        -- now rewrite <- app_assoc.
        -- intros g. rewrite existsb_app. simpl. rewrite <- Hcover.
           now rewrite orb_false_r, orb_comm.
    + unfold validateStep. rewrite Eu. now apply IH.
Qed.

(** C8.  The loop over the folders to add computes the first occurrences
    by identifier of the folders that carry a resource identifier, where
    two identifiers are the same when their string forms agree, on Linux
    exactly and elsewhere up to case.  Adding [/a] twice at position 0 of
    an empty folder list is accepted with one folder in the request and
    one folder in the list; [/a] and [/A] are one folder off Linux and
    two on Linux. *)
Theorem updateWorkspaceFolders_dedup :
  (forall (isLinux : bool) (adds : list FolderToAdd),
      validatedDistinct isLinux adds
      = firstOccurrences (sameIdentifier isLinux) [] (validFolders adds))
  /\ (forall (isLinux : bool) (f g : ValidatedFolder),
         sameIdentifier isLinux f g = true
         <-> (if isLinux
              then Uri.toString (v_uri f) = Uri.toString (v_uri g)
              else Strings.toLowerCase (Uri.toString (v_uri f))
                   = Strings.toLowerCase (Uri.toString (v_uri g))))
  /\ (forall isLinux : bool,
         let call := updateWorkspaceFolders isLinux Sample.empty "ext"
                       (JsNumber 0) (JsNumber 0) [Sample.add "/a"; Sample.add "/a"] in
         fst call = true
         /\ getWorkspaceFolders (snd call) = Some [Sample.a]
         /\ _proxy (snd call)
            = [UpdateWorkspaceFolders "ext" 0 0 [mkValidated (Uri.file "/a") None]])
  /\ validatedDistinct false [Sample.add "/a"; Sample.add "/A"; Sample.add "/a"]
     = [mkValidated (Uri.file "/a") None]
  /\ validatedDistinct true [Sample.add "/a"; Sample.add "/A"; Sample.add "/a"]
     = [mkValidated (Uri.file "/a") None; mkValidated (Uri.file "/A") None].
Proof.
  split; [|split; [|split; [|split]]].
  - intros isLinux adds. unfold validatedDistinct.
    now rewrite (validatedDistinct_from isLinux adds [] []).
  - intros isLinux f g. rewrite sameIdentifier_key. unfold identifierKey.
    now destruct isLinux.
  - intros [|]; cbv zeta; repeat split; reflexivity.
  - reflexivity.
  - reflexivity.
Qed.

(** ** Relative paths *)

Lemma getRelativePath_unfold (cwd : string) (this : t) (pathOrUri : PathOrUri)
      (includeWorkspace : option bool) :
  getRelativePath cwd this pathOrUri includeWorkspace
  = match inputOf pathOrUri with
    | None => None
    | Some (p, u) =>
        if String.eqb p "" then Some p
        else match getWorkspaceFolder this u true with
             | None => Some p
             | Some folder =>
                 let result := Paths.relative cwd (Uri.fsPath (uri folder)) p in
                 Some (Paths.normalize
                         (if wantsName this includeWorkspace
                          then name folder +:+ "/" +:+ result else result) true)
             end
    end.
Proof. destruct pathOrUri; reflexivity. Qed.

(** ** Search requests *)

Lemma searchIds_app (l1 l2 : list ProxyCall) :
  searchIds (l1 ++ l2) = searchIds l1 ++ searchIds l2.
Proof. apply omap_app. Qed.

Lemma drop_sent {A : Type} (l more : list A) : drop (length l) (l ++ more) = more.
Proof. now rewrite drop_app_length. Qed.

Lemma findFiles_sends (pool : nat) (h : t) (include exclude : option GlobPattern)
      (maxResults : option Z) (token : option nat) :
  exists includePattern includeFolder excludePattern h',
    findFiles pool h include exclude maxResults token = (S pool, h')
    /\ _proxy h' = _proxy h ++ [StartSearch includePattern includeFolder excludePattern
                                            maxResults pool].
Proof.
  unfold findFiles.
  destruct include as [[s|base pattern]|], exclude as [[s'|base' pattern']|],
    token as [tk|]; simpl; eauto 10.
Qed.

Lemma cancel_sends (h : t) (token : nat) :
  exists more, _proxy (cancel h token) = _proxy h ++ more /\ searchIds more = [].
Proof.
  unfold cancel. generalize (_listeners h) as ls. intros ls. revert h.
  induction ls as [|[tk requestId] ls IH]; intros h; simpl.
  - exists []. now rewrite app_nil_r.
  - destruct (tk =? token)%nat.
    + destruct (IH (send h (CancelSearch requestId))) as (more & Hp & Hs).
      exists (CancelSearch requestId :: more). simpl in Hp.
      rewrite Hp, <- app_assoc. split; [reflexivity | exact Hs].
    + apply IH.
Qed.

Lemma updateWorkspaceFolders_sends
      (isLinux : bool) (h : t) (ext : string) (index deleteCount : JsValue)
      (adds : list FolderToAdd) :
  exists more,
    _proxy (snd (updateWorkspaceFolders isLinux h ext index deleteCount adds))
    = _proxy h ++ more
    /\ searchIds more = [].
Proof.
  destruct (updateWorkspaceFolders isLinux h ext index deleteCount adds)
    as [[|] h'] eqn:E; simpl.
  - apply updateWorkspaceFolders_true_inv in E as (i & d & _ & _ & _ & _ & ->).
    exists [UpdateWorkspaceFolders ext i d (validatedDistinct isLinux adds)].
    split; [|reflexivity]. unfold accepted. now destruct (_workspace h).
  - apply updateWorkspaceFolders_false_keeps_state in E. subst h'.
    exists []. now rewrite app_nil_r.
Qed.

Lemma acceptWorkspaceData_proxy (h : t) (data : option IWorkspaceData) :
  _proxy (acceptWorkspaceData h data) = _proxy h.
Proof. rewrite acceptWorkspaceData_unfold. now destruct (Arrays.delta _ _ _). Qed.

(** One step: a [findFiles] call that reaches an instance forwards the
    current value of the counter and increments it; nothing else forwards
    a search or touches the counter. *)
Lemma step_searchIds (p : Process) (c : Call) :
  searchIds (wire (step p c))
  = searchIds (wire p) ++ seq (requestIdPool p) (served p [c])
  /\ requestIdPool (step p c) = (requestIdPool p + served p [c])%nat.
Proof.
  destruct c as [data | host inc exc maxResults token | host token | requestId
                | host includeUntitled | isLinux host ext index deleteCount adds
                | host data]; simpl;
    try (rewrite app_nil_r; split; [reflexivity | lia]);
    destruct (hosts p !! host) as [h|]; simpl;
    try (rewrite app_nil_r; split; [reflexivity | lia]).
  - destruct (findFiles_sends (requestIdPool p) h inc exc maxResults token)
      as (ip & ifo & ep & h' & -> & Hp).
    unfold commit. simpl. rewrite Hp, drop_sent, searchIds_app. simpl.
    split; [reflexivity | lia].
  - destruct (cancel_sends h token) as (more & Hp & Hs).
    rewrite Hp, drop_sent, searchIds_app, Hs. split; [reflexivity | lia].
  - unfold saveAll, send. simpl. rewrite drop_sent, searchIds_app. simpl.
    split; [reflexivity | lia].
  - destruct (updateWorkspaceFolders_sends isLinux h ext index deleteCount adds)
      as (more & Hp & Hs).
    rewrite Hp, drop_sent, searchIds_app, Hs. split; [reflexivity | lia].
  - rewrite acceptWorkspaceData_proxy, drop_all, searchIds_app.
    split; [reflexivity | lia].
Qed.

Lemma run_searchIds (p : Process) (calls : list Call) :
  searchIds (wire (run p calls))
  = searchIds (wire p) ++ seq (requestIdPool p) (served p calls)
  /\ requestIdPool (run p calls) = (requestIdPool p + served p calls)%nat.
Proof.
  revert p. induction calls as [|c calls IH]; intros p.
  - simpl. rewrite app_nil_r. split; [reflexivity | lia].
  - change (run p (c :: calls)) with (run (step p c) calls).
    destruct (IH (step p c)) as [Hw Hp].
    destruct (step_searchIds p c) as [Hw1 Hp1].
    rewrite Hw, Hp, Hw1, Hp1, <- app_assoc, <- seq_app.
    change (served p (c :: calls)) with
      (match c with
       | CallFindFiles host _ _ _ _ =>
           match hosts p !! host with Some _ => 1 | None => 0 end
       | _ => 0
       end + served (step p c) calls)%nat.
    replace (served p [c]) with
      (match c with
       | CallFindFiles host _ _ _ _ =>
           match hosts p !! host with Some _ => 1 | None => 0 end
       | _ => 0
       end)%nat by (simpl; lia).
    split; [reflexivity | lia].
Qed.

Lemma seq_increasing (a n : nat) : StronglySorted Nat.lt (seq a n).
Proof.
  revert a. induction n as [|n IH]; intros a; simpl; constructor.
  - apply IH.
  - apply Forall_forall. intros x Hx. apply elem_of_seq in Hx. lia.
Qed.

(** C10.  Whatever happens in the process — instances constructed,
    searches started on any of them, tokens cancelled, searches
    completed, snapshots and edits — the request identifiers that reach
    the main side are the successive values of the one counter: the
    [n]-th [findFiles] call from the start forwards [n - 1].  From any
    state on, the identifiers forwarded by further calls are as many as
    the [findFiles] calls that reached an instance, strictly increasing
    and without repetition. *)
Theorem findFiles_request_ids (p : Process) (calls : list Call) :
  searchIds (wire (run start calls)) = seq 0 (served start calls)
  /\ (let ids := seq (requestIdPool p) (served p calls) in
      searchIds (wire (run p calls)) = searchIds (wire p) ++ ids
      /\ requestIdPool (run p calls) = (requestIdPool p + served p calls)%nat
      /\ length ids = served p calls
      /\ StronglySorted Nat.lt ids
      /\ List.NoDup ids).
Proof.
  split.
  - now destruct (run_searchIds start calls) as [-> _].
  - cbv zeta. destruct (run_searchIds p calls) as [Hw Hp].
    repeat split; [exact Hw | exact Hp | apply length_seq | apply seq_increasing
                   | apply seq_NoDup].
Qed.

(** The identifiers 0, 1, 2 go to the searches in the order of the calls,
    across both instances and the cancellation in between. *)
Example findFiles_two_instances :
  wire (run start sampleCalls)
  = [ StartSearch (Some "**/*.ts") None None None 0;
      StartSearch (Some "*.md") (Some "/a") None (Some 10) 1;
      CancelSearch 0;
      StartSearch None None None None 2 ]
  /\ requestIdPool (run start sampleCalls) = 3%nat.
Proof. split; reflexivity. Qed.

(** ** The no-change guard *)

(** For a call that passes validation, the answer is [false] exactly when
    the comparator answers 0 at every position of the current and the
    prospective list. *)
Lemma updateWorkspaceFolders_guard
      (isLinux : bool) (this : t) (ext : string) (i d : Z) (adds : list FolderToAdd) :
  validCall isLinux this i d adds ->
  (fst (updateWorkspaceFolders isLinux this ext (JsNumber i) (JsNumber d) adds) = false
   <-> sameByUriAndName (currentWorkspaceFolders this)
                        (prospective isLinux this i d adds)).
Proof.
  intros Hv. rewrite (updateWorkspaceFolders_valid _ _ _ _ _ _ Hv).
  unfold sameByUriAndName. rewrite <- delta_empty_iff.
  destruct (bool_decide _) eqn:E.
  - apply bool_decide_eq_true_1 in E. simpl. tauto.
  - apply bool_decide_eq_false_1 in E. simpl. split; [discriminate | tauto].
Qed.

(** A folder whose identifier stays and whose name changes is seen by the
    comparator. *)
Lemma rename_is_a_change (a b : WorkspaceFolder) :
  folderKey a = folderKey b -> name a <> name b ->
  _compareWorkspaceFolderByUriAndName a b <> 0.
Proof.
  intros Hk Hn. unfold _compareWorkspaceFolderByUriAndName.
  fold (folderKey a). fold (folderKey b). rewrite Hk, compare_refl. simpl.
  intros H. now apply compare_zero_eq in H.
Qed.

(** * Further properties *)

(** ** What the diff reports *)

Section DeltaSound.
Context {T : Type}.
Variable cmp : T -> T -> Z.

Lemma delta_nil_r (before : list T) : Arrays.delta cmp before [] = (before, []).
Proof. now destruct before. Qed.

(** Whatever the comparator and the order of the lists, the diff reports
    only elements of the list they are dropped from or added to, and the
    elements it pairs off are as many on both sides. *)
Lemma delta_sound (before after removed added : list T) :
  Arrays.delta cmp before after = (removed, added) ->
  (forall x, In x removed -> In x before)
  /\ (forall x, In x added -> In x after)
  /\ (length removed + length after = length added + length before)%nat.
Proof.
  revert after removed added.
  induction before as [|b bs IHb]; intros after removed added.
  - simpl. intros [= <- <-]. repeat split; auto; simpl; lia.
  - induction after as [|a as' IHa] in removed, added |- *.
    + simpl. intros [= <- <-]. repeat split; auto; simpl; lia.
    + rewrite delta_cons_cons. destruct (cmp b a =? 0).
      * intros H. apply IHb in H as (Hr & Ha & Hl).
        repeat split; [intros x Hx; right; auto | intros x Hx; right; auto |].
        simpl. lia.
      * destruct (cmp b a <? 0).
        -- destruct (Arrays.delta cmp bs (a :: as')) as [r ad] eqn:E.
           intros [= <- <-]. destruct (IHb _ _ _ E) as (Hr & Ha & Hl).
           repeat split.
           ++ intros x [<- | Hx]; [now left | right; auto].
           ++ exact Ha.
           ++ simpl in *. lia.
        -- destruct (Arrays.delta cmp (b :: bs) as') as [r ad] eqn:E.
           intros [= <- <-]. destruct (IHa _ _ eq_refl) as (Hr & Ha & Hl).
           repeat split.
           ++ exact Hr.
           ++ intros x [<- | Hx]; [now left | right; auto].
           ++ simpl in *. lia.
Qed.

End DeltaSound.

Section DeltaSorted.
Context {T : Type}.
Variable key : T -> string.

Lemma keyBefore_trans (a b c : T) :
  keyBefore key a b -> keyBefore key b c -> keyBefore key a c.
Proof.
  unfold keyBefore. intros H1 H2.
  assert (L1 : String.compare (key a) (key b) = Lt) by (apply compare_neg_iff; lia).
  assert (L2 : String.compare (key b) (key c) = Lt) by (apply compare_neg_iff; lia).
  apply String_as_OT.cmp_lt in L1, L2.
  pose proof (String_as_OT.lt_trans _ _ _ L1 L2) as L.
  apply String_as_OT.cmp_lt in L. unfold String_as_OT.cmp in L.
  now apply compare_neg_iff in L.
Qed.

Lemma keyBefore_neq (a b : T) : keyBefore key a b -> key a <> key b.
Proof. unfold keyBefore. intros H E. rewrite E, compare_refl in H. lia. Qed.

(** A key that comes before the head of a strictly sorted list is not
    among the keys of the list. *)
Lemma keyBefore_head_not_in (x a : T) (l : list T) :
  StronglySorted (keyBefore key) (a :: l) ->
  (key x = key a \/ keyBefore key x a) ->
  forall y, In y l -> key y <> key x.
Proof.
  intros Hs Hx y Hy. apply StronglySorted_inv in Hs as [_ Hall].
  rewrite List.Forall_forall in Hall. specialize (Hall y Hy).
  destruct Hx as [E | Hlt].
  - rewrite E. intros E'. apply keyBefore_neq in Hall. congruence.
  - intros E'. apply (keyBefore_neq x y); [|now symmetry].
    now apply (keyBefore_trans x a y).
Qed.

(** On two lists strictly sorted by key, the diff by key drops exactly
    the elements whose key the new list lacks and adds exactly the
    elements whose key the old list lacks. *)
Lemma delta_sorted_exact (before after removed added : list T) :
  StronglySorted (keyBefore key) before ->
  StronglySorted (keyBefore key) after ->
  Arrays.delta (byKey key) before after = (removed, added) ->
  (forall x, In x removed <-> In x before /\ ~ In (key x) (map key after))
  /\ (forall x, In x added <-> In x after /\ ~ In (key x) (map key before)).
Proof.
  revert after removed added.
  induction before as [|b bs IHb]; intros after removed added Hsb Hsa.
  - simpl. intros [= <- <-]. split; intros x; simpl; tauto.
  - induction after as [|a as' IHa] in removed, added, Hsa |- *.
    + simpl. intros [= <- <-]. split; intros x; simpl; tauto.
    + rewrite delta_cons_cons. unfold byKey at 1 3.
      pose proof (StronglySorted_inv Hsb) as [Hsbs Hb].
      pose proof (StronglySorted_inv Hsa) as [Hsas Ha].
      destruct (Strings.compare (key b) (key a) =? 0) eqn:E0.
      * apply Z.eqb_eq, compare_zero_eq in E0. intros H.
        destruct (IHb _ _ _ Hsbs Hsas H) as [Hr Hd]. split; intros x.
        -- rewrite Hr. simpl. split.
           ++ intros [Hx Hn]. split; [now right|]. intros [E | Hin]; [|tauto].
              apply (keyBefore_head_not_in b b bs Hsb (or_introl eq_refl) x Hx).
              congruence.
           ++ intros [[<- | Hx] Hn]; [exfalso; apply Hn; left; congruence|].
              split; [exact Hx | tauto].
        -- rewrite Hd. simpl. split.
           ++ intros [Hx Hn]. split; [now right|]. intros [E | Hin]; [|tauto].
              apply (keyBefore_head_not_in a a as' Hsa (or_introl eq_refl) x Hx).
              congruence.
           ++ intros [[<- | Hx] Hn]; [exfalso; apply Hn; left; congruence|].
              split; [exact Hx | tauto].
      * apply Z.eqb_neq in E0.
        destruct (Strings.compare (key b) (key a) <? 0) eqn:E1.
        -- apply Z.ltb_lt in E1.
           destruct (Arrays.delta (byKey key) bs (a :: as')) as [r ad] eqn:E.
           intros [= <- <-]. destruct (IHb _ _ _ Hsbs Hsa E) as [Hr Hd].
           split; intros x.
           ++ simpl. rewrite Hr. simpl. split.
              ** intros [-> | [Hx Hn]]; [|tauto]. split; [now left|].
                 intros [E' | Hin]; [now apply (keyBefore_neq x a)|].
                 apply in_map_iff in Hin as (y & Ey & Hy).
                 now apply (keyBefore_head_not_in x a as' Hsa (or_intror E1) y Hy).
              ** intros [[<- | Hx] Hn]; [now left | right; tauto].
           ++ rewrite Hd. simpl. split; [|tauto].
              intros [Hx Hn]. split; [exact Hx|]. intros [E' | Hin]; [|tauto].
              destruct Hx as [-> | Hx]; [now apply (keyBefore_neq b x)|].
              now apply (keyBefore_head_not_in b a as' Hsa (or_intror E1) x Hx).
        -- apply Z.ltb_ge in E1.
           assert (Hab : keyBefore key a b).
           { unfold keyBefore. rewrite (compare_flip (key b) (key a)). lia. }
           destruct (Arrays.delta (byKey key) (b :: bs) as') as [r ad] eqn:E.
           intros [= <- <-]. destruct (IHa _ _ Hsas eq_refl) as [Hr Hd].
           split; intros x.
           ++ rewrite Hr. simpl. split; [|tauto].
              intros [Hx Hn]. split; [exact Hx|]. intros [E' | Hin]; [|tauto].
              destruct Hx as [-> | Hx]; [now apply (keyBefore_neq a x)|].
              now apply (keyBefore_head_not_in a b bs Hsb (or_intror Hab) x Hx).
           ++ simpl. rewrite Hd. simpl. split.
              ** intros [-> | [Hx Hn]]; [|tauto]. split; [now left|].
                 intros [E' | Hin]; [now apply (keyBefore_neq x b)|].
                 apply in_map_iff in Hin as (y & Ey & Hy).
                 now apply (keyBefore_head_not_in x b bs Hsb (or_intror Hab) y Hy).
              ** intros [[<- | Hx] Hn]; [now left | right; tauto].
Qed.

End DeltaSorted.

(** ** Reading the model after a push *)

Lemma sortedRoots_current (this : t) :
  sortedRoots (_workspace this)
  = Arrays.sort _compareWorkspaceFolderByUri (currentWorkspaceFolders this).
Proof. unfold sortedRoots, currentWorkspaceFolders. now destruct (_workspace this). Qed.

Lemma getWorkspaceFolders_fromData (this : t) (data : option IWorkspaceData) :
  _workspace this = Workspace2.fromData data ->
  getWorkspaceFolders this = option_map data_folders data
  /\ getPath this = match dataFolders data with
                    | [] => None
                    | f :: _ => Some (Uri.fsPath (uri f))
                    end.
Proof.
  intros H. unfold getWorkspaceFolders, getPath. rewrite H.
  destruct data as [d|]; [rewrite fromData_Some|]; simpl; auto.
Qed.

(** X1.  After a snapshot is accepted (and after construction from one),
    [getWorkspaceFolders] returns the folders of the snapshot in their
    order and [getPath] the file path of its first folder, nothing for an
    empty or an absent snapshot, whatever the state was before.  After an
    absent snapshot no resource has a folder and [getRelativePath] gives
    every path back as it is. *)
Theorem acceptWorkspaceData_reads (this : t) (data : option IWorkspaceData) :
  (getWorkspaceFolders (acceptWorkspaceData this data) = option_map data_folders data
   /\ getPath (acceptWorkspaceData this data)
      = match dataFolders data with
        | [] => None
        | f :: _ => Some (Uri.fsPath (uri f))
        end)
  /\ (getWorkspaceFolders (constructor data) = option_map data_folders data
      /\ getPath (constructor data)
         = match dataFolders data with
           | [] => None
           | f :: _ => Some (Uri.fsPath (uri f))
           end)
  /\ (forall u resolveParent,
         getWorkspaceFolder (acceptWorkspaceData this None) u resolveParent = None)
  /\ (forall cwd p inc,
         getRelativePath cwd (acceptWorkspaceData this None) (PathString p) inc
         = Some p).
Proof.
  split; [|split; [|split]].
  - apply getWorkspaceFolders_fromData, acceptWorkspaceData_workspace.
  - now apply getWorkspaceFolders_fromData.
  - intros u r. unfold getWorkspaceFolder.
    now rewrite acceptWorkspaceData_workspace.
  - intros cwd p inc. rewrite getRelativePath_unfold. simpl.
    unfold getWorkspaceFolder. rewrite acceptWorkspaceData_workspace. simpl.
    now destruct (String.eqb p "").
Qed.

(** ** The content of the change event *)

Lemma acceptWorkspaceData_event (this : t) (data : option IWorkspaceData) :
  exists e,
    _onDidChangeWorkspace (acceptWorkspaceData this data)
    = _onDidChangeWorkspace this ++ [e]
    /\ Arrays.delta _compareWorkspaceFolderByUri
                    (Arrays.sort _compareWorkspaceFolderByUri
                                 (currentWorkspaceFolders this))
                    (Arrays.sort _compareWorkspaceFolderByUri (dataFolders data))
       = (removed e, added e).
Proof.
  rewrite acceptWorkspaceData_unfold, sortedRoots_current, sortedRoots_fromData.
  destruct (Arrays.delta _ _ _) as [rem add]. now exists (mkEvent add rem).
Qed.

Lemma In_sort {T : Type} (cmp : T -> T -> Z) (l : list T) (x : T) :
  In x (Arrays.sort cmp l) <-> In x l.
Proof.
  split; apply Permutation_in; [|symmetry]; apply sort_Permutation.
Qed.

(** X2.  The event of a push reports nothing foreign: every folder under
    [removed] was in the folder list before the push, every folder under
    [added] is in the snapshot, and the sizes add up. *)
Theorem acceptWorkspaceData_event_sound (this : t) (data : option IWorkspaceData) :
  exists e,
    _onDidChangeWorkspace (acceptWorkspaceData this data)
    = _onDidChangeWorkspace this ++ [e]
    /\ (forall f, In f (removed e) -> In f (currentWorkspaceFolders this))
    /\ (forall f, In f (added e) -> In f (dataFolders data))
    /\ (length (removed e) + length (dataFolders data)
        = length (added e) + length (currentWorkspaceFolders this))%nat.
Proof.
  destruct (acceptWorkspaceData_event this data) as (e & He & Hd).
  exists e. split; [exact He|].
  apply delta_sound in Hd as (Hr & Ha & Hl).
  repeat split.
  - intros f Hf. now apply (In_sort _compareWorkspaceFolderByUri), Hr.
  - intros f Hf. now apply (In_sort _compareWorkspaceFolderByUri), Ha.
  - rewrite <- (Permutation_length (sort_Permutation _compareWorkspaceFolderByUri
                                                     (dataFolders data))).
    rewrite <- (Permutation_length (sort_Permutation _compareWorkspaceFolderByUri
                                                     (currentWorkspaceFolders this))).
    exact Hl.
Qed.

Lemma strictly_sorted_keys {T : Type} (key : T -> string) (l : list T) :
  StronglySorted str_le (map key l) -> List.NoDup (map key l) ->
  StronglySorted (keyBefore key) l.
Proof.
  induction l as [|a l IH]; simpl; intros Hs Hn; constructor.
  - apply IH; [now apply StronglySorted_inv in Hs | now apply NoDup_cons_iff in Hn].
  - apply StronglySorted_inv in Hs as [_ Hall].
    apply NoDup_cons_iff in Hn as [Hnot _].
    rewrite List.Forall_forall in Hall. apply List.Forall_forall. intros y Hy.
    assert (Hle : str_le (key a) (key y)) by (apply Hall; now apply in_map).
    unfold keyBefore, str_le in *.
    destruct (Z.eq_dec (Strings.compare (key a) (key y)) 0) as [E|N]; [|lia].
    apply compare_zero_eq in E. exfalso. apply Hnot. rewrite E. now apply in_map.
Qed.

Lemma sort_strictly_sorted (l : list WorkspaceFolder) :
  List.NoDup (map folderKey l) ->
  StronglySorted (keyBefore folderKey)
                 (Arrays.sort _compareWorkspaceFolderByUri l).
Proof.
  intros Hn. apply strictly_sorted_keys.
  - change _compareWorkspaceFolderByUri with (byKey folderKey).
    rewrite map_key_sort. apply Sorted_StronglySorted; [apply _|apply sort_Sorted].
  - apply (Permutation_NoDup (l := map folderKey l)); [|exact Hn].
    apply Permutation_map. symmetry. apply sort_Permutation.
Qed.

(** X3.  When no two folders share an identifier, neither before the push
    nor in the snapshot, the event is exact: [removed] holds exactly the
    folders of the old list whose identifier the snapshot lacks, [added]
    exactly the folders of the snapshot whose identifier the old list
    lacks.  A folder that stays, under any name and index, is in
    neither. *)
Theorem acceptWorkspaceData_event_exact (this : t) (data : option IWorkspaceData) :
  List.NoDup (map folderKey (currentWorkspaceFolders this)) ->
  List.NoDup (map folderKey (dataFolders data)) ->
  exists e,
    _onDidChangeWorkspace (acceptWorkspaceData this data)
    = _onDidChangeWorkspace this ++ [e]
    /\ (forall f, In f (removed e)
                  <-> In f (currentWorkspaceFolders this)
                      /\ ~ In (folderKey f) (map folderKey (dataFolders data)))
    /\ (forall f, In f (added e)
                  <-> In f (dataFolders data)
                      /\ ~ In (folderKey f)
                              (map folderKey (currentWorkspaceFolders this))).
Proof.
  intros Hold Hnew.
  destruct (acceptWorkspaceData_event this data) as (e & He & Hd).
  exists e. split; [exact He|].
  change _compareWorkspaceFolderByUri with (byKey folderKey) in Hd at 1.
  apply (delta_sorted_exact folderKey) in Hd as [Hr Ha];
    try (apply sort_strictly_sorted; assumption).
  assert (Hkeys : forall l k,
             In k (map folderKey (Arrays.sort _compareWorkspaceFolderByUri l))
             <-> In k (map folderKey l)).
  { intros l k. split; apply Permutation_in; apply Permutation_map;
      [|symmetry]; apply sort_Permutation. }
  split; intros f.
  - rewrite Hr, In_sort, Hkeys. reflexivity.
  - rewrite Ha, In_sort, Hkeys. reflexivity.
Qed.

(** X4.  Closing the workspace reports every folder of the list as
    removed, and opening one from the closed state reports every folder
    of the snapshot as added, both sorted by identifier. *)
Theorem acceptWorkspaceData_open_close (this : t) (data : option IWorkspaceData) :
  _onDidChangeWorkspace (acceptWorkspaceData this None)
  = _onDidChangeWorkspace this
      ++ [mkEvent [] (Arrays.sort _compareWorkspaceFolderByUri
                                  (currentWorkspaceFolders this))]
  /\ (_workspace this = None ->
      _onDidChangeWorkspace (acceptWorkspaceData this data)
      = _onDidChangeWorkspace this
          ++ [mkEvent (Arrays.sort _compareWorkspaceFolderByUri (dataFolders data))
                      []]).
Proof.
  split.
  - rewrite acceptWorkspaceData_unfold, sortedRoots_current. simpl.
    now rewrite delta_nil_r.
  - intros Hw. rewrite acceptWorkspaceData_unfold, sortedRoots_fromData, Hw.
    reflexivity.
Qed.

(** ** The shape of an edit *)

Lemma splice_valid {T : Type} (l items : list T) (i d : Z) :
  0 <= i -> 0 <= d -> i + d <= Z.of_nat (length l) ->
  Arrays.splice l i d items
  = take (Z.to_nat i) l ++ items ++ drop (Z.to_nat i + Z.to_nat d) l.
Proof.
  intros Hi Hd Hlen. unfold Arrays.splice.
  rewrite (Z.min_l i) by lia. rewrite (Z.max_l d) by lia.
  rewrite (Z.min_l d) by lia. now rewrite Z2Nat.inj_add by lia.
Qed.

Lemma length_mapi_from {A B : Type} (f : A -> Z -> B) (i : Z) (l : list A) :
  length (Arrays.mapi_from f i l) = length l.
Proof. revert i. induction l as [|x l IH]; intros i; simpl; [|rewrite IH]; reflexivity. Qed.

Lemma lookup_mapi_from {A B : Type} (f : A -> Z -> B) (i : Z) (l : list A) (j : nat) :
  Arrays.mapi_from f i l !! j = (fun x => f x (i + Z.of_nat j)) <$> l !! j.
Proof.
  revert i j. induction l as [|x l IH]; intros i [|j]; simpl; try reflexivity.
  - now rewrite Z.add_0_r.
  - rewrite IH. destruct (l !! j); simpl; [|reflexivity].
    do 2 f_equal. lia.
Qed.

Lemma prospective_valid
      (isLinux : bool) (this : t) (i d : Z) (adds : list FolderToAdd) :
  validCall isLinux this i d adds ->
  prospective isLinux this i d adds
  = take (Z.to_nat i) (currentWorkspaceFolders this)
      ++ addedFolders isLinux adds
      ++ drop (Z.to_nat i + Z.to_nat d) (currentWorkspaceFolders this).
Proof. intros (Hi & Hd & _ & Hlen). now apply splice_valid. Qed.

Lemma length_addedFolders (isLinux : bool) (adds : list FolderToAdd) :
  length (addedFolders isLinux adds) = length (validatedDistinct isLinux adds).
Proof. apply length_mapi_from. Qed.

Lemma addedFolders_lookup
      (isLinux : bool) (adds : list FolderToAdd) (j : nat) (v : ValidatedFolder) :
  validatedDistinct isLinux adds !! j = Some v ->
  addedFolders isLinux adds !! j = Some (toWorkspaceFolder v (Z.of_nat j)).
Proof.
  intros Hv. unfold addedFolders, Arrays.mapi.
  now rewrite lookup_mapi_from, Hv.
Qed.

(** X5.  For a call that passes validation, the prospective list is the
    current list with [deleteCount] folders from [index] on replaced by
    the added folders.  The folders before [index] stay where they are,
    the folders behind the deleted ones follow the added ones, and the
    length changes by the number added less the number deleted.  The
    added folders stand for the validated folders one by one: each has
    the identifier offered, the name offered, or the base name of the
    identifier (its authority when that is empty) when no name or an
    empty one was offered, and as index its position among the added
    folders. *)
Theorem prospective_frame
        (isLinux : bool) (this : t) (i d : Z) (adds : list FolderToAdd) :
  validCall isLinux this i d adds ->
  let current := currentWorkspaceFolders this in
  let new := prospective isLinux this i d adds in
  let k := length (validatedDistinct isLinux adds) in
  (length new + Z.to_nat d = length current + k)%nat
  /\ (forall j, (j < Z.to_nat i)%nat -> new !! j = current !! j)
  /\ (forall j, new !! (Z.to_nat i + k + j)%nat
                = current !! (Z.to_nat i + Z.to_nat d + j)%nat)
  /\ (forall j v,
         validatedDistinct isLinux adds !! j = Some v ->
         exists f,
           new !! (Z.to_nat i + j)%nat = Some f
           /\ uri f = v_uri v
           /\ index f = Z.of_nat j
           /\ name f = match v_name v with
                       | Some n => if String.eqb n ""
                                   then Resources.basenameOrAuthority (v_uri v)
                                   else n
                       | None => Resources.basenameOrAuthority (v_uri v)
                       end).
Proof.
  intros Hv. cbv zeta. rewrite (prospective_valid _ _ _ _ _ Hv).
  destruct Hv as (Hi & Hd & _ & Hlen).
  set (cur := currentWorkspaceFolders this) in *.
  assert (Htake : length (take (Z.to_nat i) cur) = Z.to_nat i)
    by (apply length_take_le; lia).
  repeat split.
  - rewrite !length_app, Htake, length_drop, length_addedFolders. lia.
  - intros j Hj. rewrite lookup_app_l by lia. now apply lookup_take_lt.
  - intros j. rewrite lookup_app_r by lia. rewrite lookup_app_r
      by (rewrite length_addedFolders; lia).
    rewrite lookup_drop, Htake, length_addedFolders. f_equal. lia.
  - intros j v Hj. exists (toWorkspaceFolder v (Z.of_nat j)).
    split; [|repeat split].
    rewrite lookup_app_r by lia. rewrite lookup_app_l
      by (rewrite Htake, length_addedFolders; apply lookup_lt_Some in Hj; lia).
    rewrite <- (addedFolders_lookup isLinux adds j v Hj). f_equal. lia.
Qed.

(** ** Which edits go through *)

Lemma updateWorkspaceFolders_goes_through
      (isLinux : bool) (this : t) (ext : string) (i d : Z) (adds : list FolderToAdd) :
  validCall isLinux this i d adds ->
  ~ sameByUriAndName (currentWorkspaceFolders this)
                     (prospective isLinux this i d adds) ->
  updateWorkspaceFolders isLinux this ext (JsNumber i) (JsNumber d) adds
  = (true, accepted isLinux this ext i d adds).
Proof.
  intros Hv Hn. rewrite (updateWorkspaceFolders_valid _ _ _ _ _ _ Hv).
  rewrite bool_decide_eq_false_2; [reflexivity|].
  intros H. now apply delta_empty_iff in H.
Qed.

Lemma updateWorkspaceFolders_held_back
      (isLinux : bool) (this : t) (ext : string) (i d : Z) (adds : list FolderToAdd) :
  validCall isLinux this i d adds ->
  sameByUriAndName (currentWorkspaceFolders this)
                   (prospective isLinux this i d adds) ->
  updateWorkspaceFolders isLinux this ext (JsNumber i) (JsNumber d) adds
  = (false, this).
Proof.
  intros Hv Hs. rewrite (updateWorkspaceFolders_valid _ _ _ _ _ _ Hv).
  rewrite bool_decide_eq_true_2; [reflexivity|].
  now apply delta_empty_iff.
Qed.

Lemma sameByUriAndName_refl (l : list WorkspaceFolder) : sameByUriAndName l l.
Proof.
  induction l as [|f l IH]; constructor; [|exact IH].
  unfold _compareWorkspaceFolderByUriAndName. now rewrite !compare_refl.
Qed.

Lemma validatedDistinct_offer (isLinux : bool) (f : WorkspaceFolder) (n : string) :
  validatedDistinct isLinux [offer f n] = [mkValidated (uri f) (Some n)].
Proof. reflexivity. Qed.

Lemma addedFolders_offer (isLinux : bool) (f : WorkspaceFolder) (n : string) :
  n <> "" -> addedFolders isLinux [offer f n] = [mkFolder (uri f) n 0].
Proof.
  intros Hn. unfold addedFolders. rewrite validatedDistinct_offer.
  unfold Arrays.mapi, toWorkspaceFolder. simpl.
  apply String.eqb_neq in Hn. now rewrite Hn.
Qed.

Lemma validCall_replace_one
      (isLinux : bool) (this : t) (n : nat) (f g : WorkspaceFolder) (name' : string) :
  currentWorkspaceFolders this !! n = Some f ->
  validCall isLinux this (Z.of_nat n) 1 [offer g name'].
Proof.
  intros Hf. apply lookup_lt_Some in Hf. repeat split; lia.
Qed.

Lemma prospective_replace_one
      (isLinux : bool) (this : t) (n : nat) (f g : WorkspaceFolder) (name' : string) :
  currentWorkspaceFolders this !! n = Some f ->
  name' <> "" ->
  prospective isLinux this (Z.of_nat n) 1 [offer g name']
  = take n (currentWorkspaceFolders this)
      ++ mkFolder (uri g) name' 0 :: drop (S n) (currentWorkspaceFolders this).
Proof.
  intros Hf Hn.
  rewrite (prospective_valid _ _ _ _ _ (validCall_replace_one isLinux this n f g name' Hf)).
  rewrite addedFolders_offer by exact Hn. rewrite Nat2Z.id. simpl.
  do 3 f_equal. lia.
Qed.

Lemma resizing_goes_through
      (isLinux : bool) (this : t) (ext : string) (i d : Z) (adds : list FolderToAdd) :
  validCall isLinux this i d adds ->
  length (validatedDistinct isLinux adds) <> Z.to_nat d ->
  updateWorkspaceFolders isLinux this ext (JsNumber i) (JsNumber d) adds
  = (true, accepted isLinux this ext i d adds).
Proof.
  intros Hv Hk. apply updateWorkspaceFolders_goes_through; [exact Hv|].
  intros Hs. apply Forall2_length in Hs.
  rewrite (prospective_valid _ _ _ _ _ Hv) in Hs.
  destruct Hv as (Hi & Hd & _ & Hlen).
  rewrite !length_app, length_take_le, length_drop, length_addedFolders in Hs by lia.
  lia.
Qed.

Lemma proxy_accepted
      (isLinux : bool) (this : t) (ext : string) (i d : Z) (adds : list FolderToAdd) :
  _proxy (accepted isLinux this ext i d adds)
  = _proxy this ++ [UpdateWorkspaceFolders ext i d (validatedDistinct isLinux adds)].
Proof. unfold accepted. now destruct (_workspace this). Qed.

(** X6.  An edit that changes the number of folders always goes through:
    when a call passes validation and adds another number of folders
    than it deletes, it returns [true], sends one request with the
    arguments of the call and the deduplicated folders, and the folder
    list of an open workspace is the prospective list. *)
Theorem updateWorkspaceFolders_resizing_accepted
        (isLinux : bool) (this : t) (ext : string) (i d : Z) (adds : list FolderToAdd) :
  validCall isLinux this i d adds ->
  length (validatedDistinct isLinux adds) <> Z.to_nat d ->
  exists this',
    updateWorkspaceFolders isLinux this ext (JsNumber i) (JsNumber d) adds
    = (true, this')
    /\ _proxy this'
       = _proxy this
           ++ [UpdateWorkspaceFolders ext i d (validatedDistinct isLinux adds)]
    /\ (forall w, _workspace this = Some w ->
                  getWorkspaceFolders this' = Some (prospective isLinux this i d adds)).
Proof.
  intros Hv Hk. exists (accepted isLinux this ext i d adds).
  split; [now apply resizing_goes_through|]. split; [apply proxy_accepted|].
  intros w Hw. now rewrite getWorkspaceFolders_accepted, Hw.
Qed.

(** X7.  Offering a folder of the list again at its own position, under
    its own name, is held back: the call returns [false], sends nothing
    and leaves the state as it is. *)
Theorem updateWorkspaceFolders_same_folder_held_back
        (isLinux : bool) (this : t) (ext : string) (n : nat) (f : WorkspaceFolder) :
  currentWorkspaceFolders this !! n = Some f ->
  name f <> "" ->
  updateWorkspaceFolders isLinux this ext (JsNumber (Z.of_nat n)) (JsNumber 1)
                         [offer f (name f)]
  = (false, this).
Proof.
  intros Hf Hn. apply updateWorkspaceFolders_held_back.
  - now apply (validCall_replace_one isLinux this n f).
  - rewrite (prospective_replace_one isLinux this n f f (name f) Hf Hn).
    rewrite <- (take_drop_middle _ _ _ Hf) at 1.
    apply Forall2_app; [apply sameByUriAndName_refl|].
    constructor; [|apply sameByUriAndName_refl].
    unfold _compareWorkspaceFolderByUriAndName. simpl. now rewrite !compare_refl.
Qed.

(** X8.  Renaming a folder in place goes through: offering the folder at
    position [n] again under another, non-empty name returns [true] and
    the folder list then shows the new name at that position. *)
Theorem updateWorkspaceFolders_rename_accepted
        (isLinux : bool) (this : t) (ext : string) (n : nat) (f : WorkspaceFolder)
        (name' : string) (w : Workspace2.t) :
  _workspace this = Some w ->
  currentWorkspaceFolders this !! n = Some f ->
  name' <> "" -> name' <> name f ->
  exists this',
    updateWorkspaceFolders isLinux this ext (JsNumber (Z.of_nat n)) (JsNumber 1)
                           [offer f name']
    = (true, this')
    /\ getWorkspaceFolders this'
       = Some (take n (currentWorkspaceFolders this)
                 ++ mkFolder (uri f) name' 0 :: drop (S n) (currentWorkspaceFolders this)).
Proof.
  intros Hw Hf Hn Hdiff. eexists. split.
  - apply updateWorkspaceFolders_goes_through.
    + now apply (validCall_replace_one isLinux this n f).
    + rewrite (prospective_replace_one isLinux this n f f name' Hf Hn).
      intros Hs.
      assert (Hlen : length (take n (currentWorkspaceFolders this)) = n)
        by (apply length_take_le; apply lookup_lt_Some in Hf; lia).
      pose proof (Forall2_lookup_lr _ _ _ n f (mkFolder (uri f) name' 0) Hs Hf) as Hc.
      simpl in Hc.
      apply (rename_is_a_change f (mkFolder (uri f) name' 0)); [reflexivity | |].
      * simpl. congruence.
      * apply Hc. now apply list_lookup_middle.
  - rewrite getWorkspaceFolders_accepted, Hw.
    now rewrite (prospective_replace_one isLinux this n f f name' Hf Hn).
Qed.

(** ** Edits in a row *)

Lemma currentWorkspaceFolders_accepted
      (isLinux : bool) (this : t) (ext : string) (i d : Z) (adds : list FolderToAdd)
      (w : Workspace2.t) :
  _workspace this = Some w ->
  currentWorkspaceFolders (accepted isLinux this ext i d adds)
  = prospective isLinux this i d adds.
Proof.
  intros Hw.
  pose proof (getWorkspaceFolders_accepted isLinux this ext i d adds) as H.
  rewrite Hw in H. unfold getWorkspaceFolders in H.
  unfold currentWorkspaceFolders.
  destruct (_workspace (accepted isLinux this ext i d adds)); congruence.
Qed.

Lemma validatedDistinct_single (isLinux : bool) (f : FolderToAdd) (u : URI) :
  add_uri f = Some u ->
  validatedDistinct isLinux [f] = [mkValidated u (add_name f)].
Proof. intros H. unfold validatedDistinct, validateStep. simpl. now rewrite H. Qed.

(** X9.  The second edit works on the list the first one left: with a
    workspace open, inserting a folder at a position of the list and then
    deleting one folder at that position are both accepted, send one
    request each, and give back the folder list from before. *)
Theorem updateWorkspaceFolders_insert_then_delete
        (isLinux : bool) (this : t) (ext : string) (n : nat) (f : FolderToAdd)
        (u : URI) (w : Workspace2.t) :
  _workspace this = Some w ->
  (n <= length (currentWorkspaceFolders this))%nat ->
  add_uri f = Some u ->
  exists this1 this2,
    updateWorkspaceFolders isLinux this ext (JsNumber (Z.of_nat n)) (JsNumber 0) [f]
    = (true, this1)
    /\ updateWorkspaceFolders isLinux this1 ext (JsNumber (Z.of_nat n)) (JsNumber 1) []
       = (true, this2)
    /\ getWorkspaceFolders this2 = getWorkspaceFolders this
    /\ _proxy this2
       = _proxy this
           ++ [UpdateWorkspaceFolders ext (Z.of_nat n) 0 [mkValidated u (add_name f)];
               UpdateWorkspaceFolders ext (Z.of_nat n) 1 []].
Proof.
  intros Hw Hn Hu.
  pose proof (validatedDistinct_single isLinux f u Hu) as Hvd.
  assert (Hv1 : validCall isLinux this (Z.of_nat n) 0 [f]).
  { repeat split; try lia. rewrite Hvd. intros [_ H]. discriminate. }
  set (this1 := accepted isLinux this ext (Z.of_nat n) 0 [f]).
  assert (Hk : length (addedFolders isLinux [f]) = 1%nat)
    by (now rewrite length_addedFolders, Hvd).
  assert (Hcur1 : currentWorkspaceFolders this1
                  = take n (currentWorkspaceFolders this)
                      ++ addedFolders isLinux [f]
                      ++ drop n (currentWorkspaceFolders this)).
  { unfold this1. rewrite (currentWorkspaceFolders_accepted _ _ _ _ _ _ w Hw).
    rewrite (prospective_valid _ _ _ _ _ Hv1), Nat2Z.id. simpl.
    now rewrite Nat.add_0_r. }
  assert (Hw1 : exists w1, _workspace this1 = Some w1).
  { unfold this1, accepted. rewrite Hw. simpl. eauto. }
  destruct Hw1 as [w1 Hw1].
  assert (Htake : length (take n (currentWorkspaceFolders this)) = n)
    by (apply length_take_le; lia).
  assert (Hv2 : validCall isLinux this1 (Z.of_nat n) 1 []).
  { repeat split; try lia.
    rewrite Hcur1, !length_app, Htake, Hk. lia. }
  exists this1, (accepted isLinux this1 ext (Z.of_nat n) 1 []).
  split; [|split; [|split]].
  - apply resizing_goes_through; [exact Hv1|]. rewrite Hvd. simpl. lia.
  - apply resizing_goes_through; [exact Hv2|]. simpl. lia.
  - rewrite getWorkspaceFolders_accepted, Hw1.
    rewrite (prospective_valid _ _ _ _ _ Hv2), Hcur1, Nat2Z.id.
    change (addedFolders isLinux []) with (@nil WorkspaceFolder). simpl.
    rewrite take_app_length' by (now rewrite Htake).
    rewrite drop_app_ge by lia. rewrite Htake.
    rewrite drop_app_ge by lia. rewrite Hk.
    replace (n + Z.to_nat 1 - n - 1)%nat with 0%nat by lia.
    rewrite drop_0, take_drop.
    unfold getWorkspaceFolders, currentWorkspaceFolders. now rewrite Hw.
  - rewrite proxy_accepted. unfold this1. rewrite proxy_accepted, Hvd.
    now rewrite <- app_assoc.
Qed.

(** X10.  An edit talks to the main side only: whether it is accepted or
    not, [updateWorkspaceFolders] fires no change event and registers
    nothing; a refused call leaves the whole state as it is, and an
    accepted one sends exactly one request, which carries the index and
    the count of the call and the deduplicated folders, and keeps the
    identity, the name, the base folders and the path index of the
    workspace. *)
Theorem updateWorkspaceFolders_effects
        (isLinux : bool) (this : t) (ext : string) (index deleteCount : JsValue)
        (adds : list FolderToAdd) :
  let call := updateWorkspaceFolders isLinux this ext index deleteCount adds in
  _onDidChangeWorkspace (snd call) = _onDidChangeWorkspace this
  /\ _listeners (snd call) = _listeners this
  /\ (fst call = false -> snd call = this)
  /\ (fst call = true ->
      exists i d,
        index = JsNumber i /\ deleteCount = JsNumber d
        /\ _proxy (snd call)
           = _proxy this
               ++ [UpdateWorkspaceFolders ext i d (validatedDistinct isLinux adds)]
        /\ match _workspace this, _workspace (snd call) with
           | Some w, Some w' =>
               Workspace2.id w' = Workspace2.id w
               /\ Workspace2.name w' = Workspace2.name w
               /\ Workspace2.folders w' = Workspace2.folders w
               /\ Workspace2._structure w' = Workspace2._structure w
           | None, None => True
           | _, _ => False
           end).
Proof.
  cbv zeta.
  destruct (updateWorkspaceFolders isLinux this ext index deleteCount adds)
    as [[|] this'] eqn:E; simpl.
  - apply updateWorkspaceFolders_true_inv in E as (i & d & -> & -> & _ & _ & ->).
    split; [|split; [|split]].
    + unfold accepted. now destruct (_workspace this).
    + unfold accepted. now destruct (_workspace this).
    + discriminate.
    + intros _. exists i, d. repeat split; [apply proxy_accepted|].
      pose proof (accepted_frame isLinux this ext i d adds) as Hf. cbv zeta in Hf.
      destruct (_workspace this), (_workspace (accepted _ _ _ _ _ _)); tauto.
  - apply updateWorkspaceFolders_false_keeps_state in E. subst this'.
    repeat split; auto. discriminate.
Qed.

(** ** The deduplicated folders *)

Lemma existsb_sameIdentifier (isLinux : bool) (acc : list ValidatedFolder)
      (v : ValidatedFolder) :
  existsb (fun e => sameIdentifier isLinux e v) acc = true
  <-> In (validatedKey isLinux v) (map (validatedKey isLinux) acc).
Proof.
  rewrite existsb_exists, in_map_iff. split.
  - intros (e & He & Hs). exists e. split; [|exact He].
    now apply sameIdentifier_key in Hs.
  - intros (e & Hk & He). exists e. split; [exact He|].
    now apply sameIdentifier_key.
Qed.

Lemma NoDup_snoc {A : Type} (l : list A) (x : A) :
  List.NoDup l -> ~ In x l -> List.NoDup (l ++ [x]).
Proof.
  intros Hn Hx. apply (Permutation_NoDup (l := x :: l)).
  - apply Permutation_cons_append.
  - now constructor.
Qed.

Lemma validatedDistinct_from_facts (isLinux : bool) (adds : list FolderToAdd) :
  forall acc : list ValidatedFolder,
    List.NoDup (map (validatedKey isLinux) acc) ->
    let r := fold_left (validateStep isLinux) adds acc in
    List.NoDup (map (validatedKey isLinux) r)
    /\ (forall k, In k (map (validatedKey isLinux) r)
                  <-> In k (map (validatedKey isLinux) acc)
                      \/ exists f u, In f adds /\ add_uri f = Some u
                                     /\ identifierKey isLinux u = k)
    /\ (forall v, In v r ->
                  In v acc
                  \/ exists f, In f adds /\ add_uri f = Some (v_uri v)
                               /\ add_name f = v_name v).
Proof.
  induction adds as [|f adds IH]; intros acc Hnd; cbv zeta; simpl.
  - split; [exact Hnd|]. split.
    + intros k. split; [auto | intros [H | (f & u & [] & _)]; exact H].
    + auto.
  - destruct (add_uri f) as [u|] eqn:Eu.
    + rewrite (validateStep_valid _ _ _ _ Eu).
      set (v := mkValidated u (add_name f)).
      destruct (existsb (fun e => sameIdentifier isLinux e v) acc) eqn:Ev.
      * apply existsb_sameIdentifier in Ev.
        destruct (IH acc Hnd) as (Hn & Hk & Hv). cbv zeta in Hn, Hk, Hv.
        split; [exact Hn|]. split.
        -- intros k. rewrite Hk. split.
           ++ intros [H | (g & w & Hg & Hw & Hkw)]; [now left|].
              right. exists g, w. auto.
           ++ intros [H | (g & w & [<- | Hg] & Hw & Hkw)]; [now left | |].
              ** left. rewrite Eu in Hw. injection Hw as <-. now subst k.
              ** right. exists g, w. auto.
        -- intros x Hx. destruct (Hv x Hx) as [H | (g & Hg & Hw)]; [now left|].
           right. exists g. auto.
      * assert (Hnot : ~ In (validatedKey isLinux v)
                             (map (validatedKey isLinux) acc)).
        { rewrite <- existsb_sameIdentifier. now rewrite Ev. }
        assert (Hnd' : List.NoDup (map (validatedKey isLinux) (acc ++ [v]))).
        { rewrite map_app. simpl. apply NoDup_snoc; assumption. }
        destruct (IH (acc ++ [v]) Hnd') as (Hn & Hk & Hv). cbv zeta in Hn, Hk, Hv.
        split; [exact Hn|]. split.
        -- intros k. rewrite Hk, map_app, in_app_iff. simpl. split.
           ++ intros [[H | [H | []]] | (g & w & Hg & Hw & Hkw)].
              ** now left.
              ** right. exists f, u. auto.
              ** right. exists g, w. auto.
           ++ intros [H | (g & w & [<- | Hg] & Hw & Hkw)].
              ** left. now left.
              ** left. right. left. rewrite Eu in Hw. injection Hw as <-.
                 exact Hkw.
              ** right. exists g, w. auto.
        -- intros x Hx. destruct (Hv x Hx) as [H | (g & Hg & Hw)].
           ++ apply in_app_iff in H as [H | [<- | []]]; [now left|].
              right. exists f. auto.
           ++ right. exists g. auto.
    + unfold validateStep. rewrite Eu.
      destruct (IH acc Hnd) as (Hn & Hk & Hv). cbv zeta in Hn, Hk, Hv.
      split; [exact Hn|]. split.
      * intros k. rewrite Hk. split.
        -- intros [H | (g & w & Hg & Hw)]; [now left|]. right. exists g, w. auto.
        -- intros [H | (g & w & [<- | Hg] & Hw & Hkw)]; [now left | congruence |].
           right. exists g, w. auto.
      * intros x Hx. destruct (Hv x Hx) as [H | (g & Hg & Hw)]; [now left|].
        right. exists g. auto.
Qed.

Lemma length_validatedDistinct_from (isLinux : bool) (adds : list FolderToAdd) :
  forall acc : list ValidatedFolder,
    (length (fold_left (validateStep isLinux) adds acc)
     <= length acc + length adds)%nat.
Proof.
  induction adds as [|f adds IH]; intros acc; simpl; [lia|].
  etransitivity; [apply IH|]. unfold validateStep.
  destruct (add_uri f); [|lia].
  destruct (existsb _ acc); [lia|]. rewrite length_app. simpl. lia.
Qed.

(** X11.  The deduplicated folders carry every identifier that was
    offered and none twice: no two of them have the same identifier on
    the platform, an identifier is among theirs exactly when some
    argument with a resource identifier has it, and each of them is an
    argument that was offered, with its name. *)
Theorem validatedDistinct_facts (isLinux : bool) (adds : list FolderToAdd) :
  List.NoDup (map (validatedKey isLinux) (validatedDistinct isLinux adds))
  /\ (forall k, In k (map (validatedKey isLinux) (validatedDistinct isLinux adds))
                <-> exists f u, In f adds /\ add_uri f = Some u
                                /\ identifierKey isLinux u = k)
  /\ (forall v, In v (validatedDistinct isLinux adds) ->
                exists f, In f adds /\ add_uri f = Some (v_uri v)
                          /\ add_name f = v_name v)
  /\ (length (validatedDistinct isLinux adds) <= length adds)%nat.
Proof.
  destruct (validatedDistinct_from_facts isLinux adds [] (List.NoDup_nil _))
    as (Hn & Hk & Hv).
  cbv zeta in Hn, Hk, Hv. fold (validatedDistinct isLinux adds) in Hn, Hk, Hv.
  split; [exact Hn|]. split; [|split].
  - intros k. rewrite Hk. simpl. tauto.
  - intros v Hin. destruct (Hv v Hin) as [[] | H]. exact H.
  - apply (length_validatedDistinct_from isLinux adds []).
Qed.

Lemma validatedDistinct_keeps (isLinux : bool) (l : list ValidatedFolder) :
  forall acc : list ValidatedFolder,
    List.NoDup (map (validatedKey isLinux) (acc ++ l)) ->
    fold_left (validateStep isLinux) (map asOffer l) acc = acc ++ l.
Proof.
  induction l as [|v l IH]; intros acc Hnd; simpl.
  - now rewrite app_nil_r.
  - rewrite (validateStep_valid isLinux acc (asOffer v) (v_uri v) eq_refl). simpl.
    replace (mkValidated (v_uri v) (v_name v)) with v by now destruct v.
    assert (Hnot : existsb (fun e => sameIdentifier isLinux e v) acc = false).
    { apply not_true_is_false. rewrite existsb_sameIdentifier. intros Hin.
      rewrite map_app in Hnd. simpl in Hnd.
      apply NoDup_remove_2 in Hnd. apply Hnd, in_or_app. now left. }
    rewrite Hnot, (IH (acc ++ [v])); rewrite <- app_assoc; [reflexivity|exact Hnd].
Qed.

(** X12.  Deduplicating is idempotent: offered again, the deduplicated
    folders all pass, in their order and with their names. *)
Theorem validatedDistinct_idempotent (isLinux : bool) (adds : list FolderToAdd) :
  validatedDistinct isLinux (map asOffer (validatedDistinct isLinux adds))
  = validatedDistinct isLinux adds.
Proof.
  unfold validatedDistinct at 1.
  rewrite (validatedDistinct_keeps isLinux _ []); [reflexivity|].
  simpl. apply validatedDistinct_from_facts. constructor.
Qed.

(** ** The owner of a resource *)

Lemma findLongest_exact {E : Type} (t : gmap (list string) E)
      (pre rest : list string) (e : E) :
  t !! (pre ++ rest) = Some e ->
  TernarySearchTree.findLongest t pre rest = Some e.
Proof.
  revert pre. induction rest as [|s rest IH]; intros pre H; simpl.
  - now rewrite app_nil_r in H.
  - rewrite (IH (pre ++ [s])); [reflexivity|]. now rewrite <- app_assoc.
Qed.

Lemma indexOf_app (fs gs : list WorkspaceFolder)
      (t : gmap (list string) WorkspaceFolder) :
  indexOf (fs ++ gs) t = indexOf gs (indexOf fs t).
Proof. apply fold_left_app. Qed.

Lemma indexOf_lookup_other (gs : list WorkspaceFolder)
      (t : gmap (list string) WorkspaceFolder) (k : list string) :
  (forall g, In g gs -> keySegments g <> k) ->
  indexOf gs t !! k = t !! k.
Proof.
  revert t. induction gs as [|g gs IH]; intros t H; simpl; [reflexivity|].
  rewrite IH by (intros g' Hg'; apply H; now right).
  unfold TernarySearchTree.set. apply lookup_insert_ne. apply H. now left.
Qed.

(** X13.  With the path index built from the folders of the snapshot,
    [getWorkspaceFolder] answers with the owner of the resource: a folder
    of the snapshot that contains it and whose identifier is the longest
    among those that do, so that the innermost of nested folders wins,
    and nothing exactly when no folder contains it.  Asking for the
    parent changes the answer only for a resource whose segments are
    those of a folder's identifier. *)
Theorem getWorkspaceFolder_owner (this : t) (w : Workspace2.t) (u : URI) :
  _workspace this = Some w ->
  indexed w ->
  owner (Workspace2.folders w) u (getWorkspaceFolder this u false)
  /\ ((forall g, In g (Workspace2.folders w) -> keySegments g <> uriSegments u) ->
      getWorkspaceFolder this u true = getWorkspaceFolder this u false).
Proof.
  intros Hw Hidx. unfold getWorkspaceFolder. rewrite Hw.
  unfold Workspace2.getWorkspaceFolder, TernarySearchTree.get. rewrite Hidx.
  simpl. split; [apply findSubstr_owner|].
  intros Hnone.
  rewrite (indexOf_lookup_other _ _ _ Hnone).
  unfold TernarySearchTree.forPaths. rewrite lookup_empty.
  rewrite bool_decide_eq_false_2; [reflexivity|].
  intros [? ?]. discriminate.
Qed.

(** ** Reachable states *)

Lemma findFiles_state (pool : nat) (h : t) (include exclude : option GlobPattern)
      (maxResults : option Z) (token : option nat) :
  let h' := snd (findFiles pool h include exclude maxResults token) in
  _workspace h' = _workspace h
  /\ _onDidChangeWorkspace h' = _onDidChangeWorkspace h
  /\ _listeners h'
     = _listeners h ++ match token with Some tk => [(tk, pool)] | None => [] end
  /\ exists includePattern includeFolder excludePattern,
      _proxy h' = _proxy h ++ [StartSearch includePattern includeFolder
                                           excludePattern maxResults pool].
Proof.
  unfold findFiles.
  destruct include as [[s|base pattern]|], exclude as [[s'|base' pattern']|],
    token as [tk|]; simpl; rewrite ?app_nil_r; repeat split; eauto.
Qed.

Lemma cancel_state (h : t) (token : nat) :
  _workspace (cancel h token) = _workspace h
  /\ _listeners (cancel h token) = _listeners h
  /\ _onDidChangeWorkspace (cancel h token) = _onDidChangeWorkspace h
  /\ exists more,
      _proxy (cancel h token) = _proxy h ++ more
      /\ searchIds more = []
      /\ forall c, In c more ->
                   exists requestId, c = CancelSearch requestId
                                     /\ In (token, requestId) (_listeners h).
Proof.
  unfold cancel.
  assert (G : forall ls h0,
             let h1 := fold_left
                         (fun this '(tk, requestId) =>
                            if (tk =? token)%nat
                            then send this (CancelSearch requestId) else this)
                         ls h0 in
             _workspace h1 = _workspace h0
             /\ _listeners h1 = _listeners h0
             /\ _onDidChangeWorkspace h1 = _onDidChangeWorkspace h0
             /\ exists more,
                 _proxy h1 = _proxy h0 ++ more
                 /\ searchIds more = []
                 /\ forall c, In c more ->
                              exists requestId, c = CancelSearch requestId
                                                /\ In (token, requestId) ls).
  { induction ls as [|[tk requestId] ls IH]; intros h0; cbv zeta; simpl.
    - repeat split. exists []. rewrite app_nil_r. repeat split. intros c [].
    - destruct (tk =? token)%nat eqn:Etk.
      + apply Nat.eqb_eq in Etk. subst tk.
        destruct (IH (send h0 (CancelSearch requestId)))
          as (Hw & Hl & He & more & Hp & Hs & Hc).
        cbv zeta in *. simpl in *. repeat split; try assumption.
        exists (CancelSearch requestId :: more). rewrite Hp, <- app_assoc.
        repeat split; [exact Hs|].
        intros c [<- | Hin]; [eauto|].
        destruct (Hc c Hin) as (r & -> & Hr). eauto.
      + destruct (IH h0) as (Hw & Hl & He & more & Hp & Hs & Hc).
        cbv zeta in *. repeat split; try assumption.
        exists more. repeat split; try assumption.
        intros c Hin. destruct (Hc c Hin) as (r & -> & Hr). eauto. }
  apply (G (_listeners h) h).
Qed.

Lemma step_allIndexed (p : Process) (c : Call) :
  allIndexed p -> allIndexed (step p c).
Proof.
  intros Hinv j h' Hj.
  destruct c as [data | host inc exc maxResults token | host token | requestId
                | host includeUntitled | isLinux host ext index deleteCount adds
                | host data]; simpl in Hj;
    try (now apply (Hinv j));
    try (destruct (hosts p !! host) as [h|] eqn:Eh; [|now apply (Hinv j)]).
  - apply lookup_app_Some in Hj as [Hj | [_ Hj]]; [now apply (Hinv j)|].
    destruct (j - length (hosts p))%nat; [|discriminate].
    injection Hj as <-. apply constructor_hostIndexed.
  - destruct (findFiles (requestIdPool p) h inc exc maxResults token)
      as [pool h1] eqn:Ef.
    pose proof (findFiles_state (requestIdPool p) h inc exc maxResults token) as Hs.
    rewrite Ef in Hs. cbv zeta in Hs. simpl in Hs, Hj.
    apply list_lookup_insert_Some in Hj as [(<- & <- & _) | [_ Hj]];
      [|now apply (Hinv j)].
    intros w Hw. destruct Hs as (Hws & _). rewrite Hws in Hw.
    now apply (Hinv host h Eh).
  - simpl in Hj.
    apply list_lookup_insert_Some in Hj as [(<- & <- & _) | [_ Hj]];
      [|now apply (Hinv j)].
    intros w Hw. destruct (cancel_state h token) as (Hws & _). rewrite Hws in Hw.
    now apply (Hinv host h Eh).
  - simpl in Hj.
    apply list_lookup_insert_Some in Hj as [(<- & <- & _) | [_ Hj]];
      [|now apply (Hinv j)].
    intros w Hw. now apply (Hinv host h Eh).
  - simpl in Hj.
    apply list_lookup_insert_Some in Hj as [(<- & <- & _) | [_ Hj]];
      [|now apply (Hinv j)].
    apply updateWorkspaceFolders_hostIndexed. now apply (Hinv host).
  - simpl in Hj.
    apply list_lookup_insert_Some in Hj as [(<- & <- & _) | [_ Hj]];
      [|now apply (Hinv j)].
    apply acceptWorkspaceData_hostIndexed.
Qed.

Lemma run_allIndexed (p : Process) (calls : list Call) :
  allIndexed p -> allIndexed (run p calls).
Proof.
  revert p. induction calls as [|c calls IH]; intros p Hp; [exact Hp|].
  apply (IH (step p c)). now apply step_allIndexed.
Qed.

(** X15.  In every state the process can reach from its start, through
    any calls on any instances, the path index of an instance is the one
    built from the base folders of its model, and [getWorkspaceFolder]
    answers with the owner of the resource among these folders. *)
Theorem reachable_owner (calls : list Call) (j : nat) (h : t) (w : Workspace2.t) :
  hosts (run start calls) !! j = Some h ->
  _workspace h = Some w ->
  indexed w
  /\ forall u, owner (Workspace2.folders w) u (getWorkspaceFolder h u false).
Proof.
  intros Hj Hw.
  assert (Hidx : indexed w).
  { apply (run_allIndexed start calls) with (j := j) (h := h); try assumption.
    intros j' h' H'. simpl in H'. now rewrite lookup_nil in H'. }
  split; [exact Hidx|]. intros u.
  unfold getWorkspaceFolder. rewrite Hw.
  unfold Workspace2.getWorkspaceFolder. simpl. rewrite Hidx.
  apply findSubstr_owner.
Qed.

(** ** Cancellations *)

Lemma commit_cancelsKnown (p : Process) (host pool : nat) (h h' : t)
      (more : list ProxyCall) :
  cancelsKnown p ->
  hosts p !! host = Some h ->
  _proxy h' = _proxy h ++ more ->
  (forall requestId, In (CancelSearch requestId) more ->
                     exists tk, In (tk, requestId) (_listeners h)) ->
  (forall tk requestId, In (tk, requestId) (_listeners h') ->
                        In (tk, requestId) (_listeners h)
                        \/ In requestId (searchIds more)) ->
  cancelsKnown (commit p host pool h h').
Proof.
  intros [Hl Hc] Hh Hp Hmore Hlist. unfold commit. rewrite Hp, drop_sent.
  split; simpl.
  - intros j h0 tk requestId Hj Hin. rewrite searchIds_app. apply in_or_app.
    apply list_lookup_insert_Some in Hj as [(<- & <- & _) | [_ Hj]].
    + destruct (Hlist tk requestId Hin) as [Hold | Hnew]; [left | now right].
      now apply (Hl host h tk).
    + left. now apply (Hl j h0 tk).
  - intros requestId Hin. rewrite searchIds_app. apply in_or_app. left.
    apply in_app_or in Hin as [Hin | Hin]; [now apply Hc|].
    destruct (Hmore requestId Hin) as [tk Htk]. now apply (Hl host h tk).
Qed.

Lemma updateWorkspaceFolders_channels
      (isLinux : bool) (h : t) (ext : string) (index deleteCount : JsValue)
      (adds : list FolderToAdd) :
  let h' := snd (updateWorkspaceFolders isLinux h ext index deleteCount adds) in
  _listeners h' = _listeners h
  /\ exists more,
      _proxy h' = _proxy h ++ more
      /\ forall requestId, ~ In (CancelSearch requestId) more.
Proof.
  cbv zeta.
  destruct (updateWorkspaceFolders isLinux h ext index deleteCount adds)
    as [[|] h'] eqn:E; simpl.
  - apply updateWorkspaceFolders_true_inv in E as (i & d & _ & _ & _ & _ & ->).
    split; [unfold accepted; now destruct (_workspace h)|].
    eexists. split; [apply proxy_accepted|].
    intros requestId [H | []]. discriminate.
  - apply updateWorkspaceFolders_false_keeps_state in E. subst h'.
    split; [reflexivity|]. exists []. rewrite app_nil_r. split; auto.
Qed.

Lemma acceptWorkspaceData_listeners (h : t) (data : option IWorkspaceData) :
  _listeners (acceptWorkspaceData h data) = _listeners h.
Proof. rewrite acceptWorkspaceData_unfold. now destruct (Arrays.delta _ _ _). Qed.

Lemma step_cancelsKnown (p : Process) (c : Call) :
  cancelsKnown p -> cancelsKnown (step p c).
Proof.
  intros Hinv.
  destruct c as [data | host inc exc maxResults token | host token | requestId
                | host includeUntitled | isLinux host ext index deleteCount adds
                | host data]; simpl;
    try exact Hinv;
    try (destruct (hosts p !! host) as [h|] eqn:Eh; [|exact Hinv]).
  - destruct Hinv as [Hl Hc]. split; simpl; [|exact Hc].
    intros j h tk requestId Hj Hin.
    apply lookup_app_Some in Hj as [Hj | [_ Hj]]; [now apply (Hl j h tk)|].
    destruct (j - length (hosts p))%nat; [|discriminate].
    injection Hj as <-. destruct Hin.
  - pose proof (findFiles_state (requestIdPool p) h inc exc maxResults token) as Hs.
    destruct (findFiles (requestIdPool p) h inc exc maxResults token)
      as [pool h1] eqn:Ef.
    cbv zeta in Hs. simpl in Hs.
    destruct Hs as (_ & _ & Hls & ip & ifo & ep & Hp).
    apply (commit_cancelsKnown p host pool h h1 _ Hinv Eh Hp).
    + intros requestId [H | []]. discriminate.
    + intros tk requestId Hin. rewrite Hls in Hin.
      apply in_app_or in Hin as [Hin | Hin]; [now left|].
      destruct token as [tk0|]; [|destruct Hin].
      destruct Hin as [[= <- <-] | []]. right. now left.
  - destruct (cancel_state h token) as (_ & Hls & _ & more & Hp & _ & Hc).
    apply (commit_cancelsKnown p host _ h _ more Hinv Eh Hp).
    + intros requestId Hin. destruct (Hc _ Hin) as (r & [= <-] & Hr). eauto.
    + intros tk requestId Hin. rewrite Hls in Hin. now left.
  - apply (commit_cancelsKnown p host _ h _ [SaveAll includeUntitled] Hinv Eh).
    + reflexivity.
    + intros requestId [H | []]. discriminate.
    + intros tk requestId Hin. now left.
  - destruct (updateWorkspaceFolders_channels isLinux h ext index deleteCount adds)
      as (Hls & more & Hp & Hc).
    apply (commit_cancelsKnown p host _ h _ more Hinv Eh Hp).
    + intros requestId Hin. now destruct (Hc requestId).
    + intros tk requestId Hin. rewrite Hls in Hin. now left.
  - apply (commit_cancelsKnown p host _ h _ [] Hinv Eh).
    + now rewrite acceptWorkspaceData_proxy, app_nil_r.
    + intros requestId [].
    + intros tk requestId Hin. rewrite acceptWorkspaceData_listeners in Hin.
      now left.
Qed.

Lemma run_cancelsKnown (p : Process) (calls : list Call) :
  cancelsKnown p -> cancelsKnown (run p calls).
Proof.
  revert p. induction calls as [|c calls IH]; intros p Hp; [exact Hp|].
  apply (IH (step p c)). now apply step_cancelsKnown.
Qed.

(** X16.  A cancellation names a search that was started: whatever the
    calls, every [$cancelSearch] request that reaches the main side
    carries the request identifier of a [$startSearch] request that
    reached it, an identifier below the current value of the counter. *)
Theorem cancelSearch_names_a_search (calls : list Call) (requestId : nat) :
  In (CancelSearch requestId) (wire (run start calls)) ->
  In requestId (searchIds (wire (run start calls)))
  /\ (requestId < requestIdPool (run start calls))%nat.
Proof.
  intros Hin.
  assert (Hstart : cancelsKnown start).
  { split; simpl.
    - intros j h tk r Hj. now rewrite lookup_nil in Hj.
    - intros r []. }
  destruct (run_cancelsKnown start calls Hstart) as [_ Hc].
  pose proof (Hc requestId Hin) as Hid. split; [exact Hid|].
  destruct (run_searchIds start calls) as [Hw Hp].
  rewrite Hw in Hid. simpl in Hid, Hp. apply in_seq in Hid. lia.
Qed.

(** ** The order of the event lists *)

Lemma delta_sublist {T : Type} (cmp : T -> T -> Z)
      (before after removed added : list T) :
  Arrays.delta cmp before after = (removed, added) ->
  removed `sublist_of` before /\ added `sublist_of` after.
Proof.
  revert after removed added.
  induction before as [|b bs IHb]; intros after removed added.
  - simpl. intros [= <- <-]. split; reflexivity.
  - induction after as [|a as' IHa] in removed, added |- *.
    + simpl. intros [= <- <-]. split; reflexivity.
    + rewrite delta_cons_cons. destruct (cmp b a =? 0).
      * intros H. apply IHb in H as [Hr Ha]. split; now apply sublist_cons.
      * destruct (cmp b a <? 0).
        -- destruct (Arrays.delta cmp bs (a :: as')) as [r ad] eqn:E.
           intros [= <- <-]. destruct (IHb _ _ _ E) as [Hr Ha].
           split; [now apply sublist_skip | exact Ha].
        -- destruct (Arrays.delta cmp (b :: bs) as') as [r ad] eqn:E.
           intros [= <- <-]. destruct (IHa _ _ eq_refl) as [Hr Ha].
           split; [exact Hr | now apply sublist_skip].
Qed.

Lemma sublist_In {T : Type} (l1 l2 : list T) :
  l1 `sublist_of` l2 -> forall x, In x l1 -> In x l2.
Proof.
  induction 1 as [|x l1 l2 Hs IH|x l1 l2 Hs IH]; intros y Hy.
  - exact Hy.
  - destruct Hy as [<- | Hy]; [now left | right; auto].
  - right. auto.
Qed.

Lemma StronglySorted_sublist {T : Type} (R : T -> T -> Prop) (l1 l2 : list T) :
  l1 `sublist_of` l2 -> StronglySorted R l2 -> StronglySorted R l1.
Proof.
  induction 1 as [|x l1 l2 Hs IH|x l1 l2 Hs IH]; intros Hsorted.
  - constructor.
  - apply StronglySorted_inv in Hsorted as [Hl2 Hall]. constructor; [auto|].
    rewrite List.Forall_forall in *. intros y Hy. apply Hall.
    now apply (sublist_In l1 l2).
  - apply StronglySorted_inv in Hsorted as [Hl2 _]. auto.
Qed.

Lemma sort_byIdentifier (l : list WorkspaceFolder) :
  byIdentifier (Arrays.sort _compareWorkspaceFolderByUri l).
Proof.
  pose proof (sort_Sorted (map folderKey l)) as Hs.
  rewrite <- (map_key_sort folderKey) in Hs.
  change (byKey folderKey) with _compareWorkspaceFolderByUri in Hs.
  apply Sorted_StronglySorted in Hs; [|apply _].
  unfold byIdentifier.
  induction (Arrays.sort _compareWorkspaceFolderByUri l) as [|a s IH]; constructor.
  - apply IH. now apply StronglySorted_inv in Hs.
  - apply StronglySorted_inv in Hs as [_ Hall].
    rewrite List.Forall_forall in *. intros y Hy. apply Hall. now apply in_map.
Qed.

(** X17.  Both lists of a change event are in the order of the folder
    identifiers, and each keeps the order its folders have in the sorted
    old or new list. *)
Theorem acceptWorkspaceData_event_sorted (this : t) (data : option IWorkspaceData) :
  exists e,
    _onDidChangeWorkspace (acceptWorkspaceData this data)
    = _onDidChangeWorkspace this ++ [e]
    /\ removed e `sublist_of` Arrays.sort _compareWorkspaceFolderByUri
                                          (currentWorkspaceFolders this)
    /\ added e `sublist_of` Arrays.sort _compareWorkspaceFolderByUri
                                        (dataFolders data)
    /\ byIdentifier (removed e)
    /\ byIdentifier (added e).
Proof.
  destruct (acceptWorkspaceData_event this data) as (e & He & Hd).
  exists e. split; [exact He|].
  apply delta_sublist in Hd as [Hr Ha].
  repeat split; try assumption.
  - apply (StronglySorted_sublist _ _ _ Hr), sort_byIdentifier.
  - apply (StronglySorted_sublist _ _ _ Ha), sort_byIdentifier.
Qed.

(** X18.  A push is compared with the list an accepted edit has left,
    not with the snapshot before it: when the main side answers an
    accepted edit with a snapshot that has the identifiers of the
    prospective list, the change event of that push has an empty [added]
    and an empty [removed] list. *)
Theorem acceptWorkspaceData_after_edit
        (isLinux : bool) (this this' : t) (ext : string) (index deleteCount : JsValue)
        (adds : list FolderToAdd) (w : Workspace2.t) (data : option IWorkspaceData) :
  _workspace this = Some w ->
  updateWorkspaceFolders isLinux this ext index deleteCount adds = (true, this') ->
  map folderKey (currentWorkspaceFolders this') ≡ₚ map folderKey (dataFolders data) ->
  (exists i d, index = JsNumber i /\ deleteCount = JsNumber d
               /\ currentWorkspaceFolders this' = prospective isLinux this i d adds)
  /\ _onDidChangeWorkspace (acceptWorkspaceData this' data)
     = _onDidChangeWorkspace this ++ [mkEvent [] []].
Proof.
  intros Hw Hup Hperm.
  apply updateWorkspaceFolders_true_inv in Hup as (i & d & -> & -> & _ & _ & ->).
  split.
  - exists i, d. repeat split.
    apply (currentWorkspaceFolders_accepted _ _ _ _ _ _ w Hw).
  - rewrite acceptWorkspaceData_unfold, sortedRoots_current, sortedRoots_fromData.
    rewrite (delta_sorted_same_keys _ _ Hperm). simpl.
    unfold accepted. rewrite Hw. reflexivity.
Qed.

(** ** Instances of the theorems above *)

Ltac concrete :=
  vm_compute;
  first [ reflexivity | congruence | intuition congruence | intuition discriminate ].

Lemma sample_ab_keys :
  List.NoDup (map folderKey (currentWorkspaceFolders Sample.ab)).
Proof.
  vm_compute. repeat constructor; simpl; intuition discriminate.
Defined.

Lemma sample_bx_keys :
  List.NoDup (map folderKey (dataFolders (Sample.data [Sample.b; Sample.x]))).
Proof.
  vm_compute. repeat constructor; simpl; intuition discriminate.
Defined.

Lemma acceptWorkspaceData_event_exact_witness :
  List.NoDup (map folderKey (currentWorkspaceFolders Sample.ab))
  /\ List.NoDup (map folderKey (dataFolders (Sample.data [Sample.b; Sample.x])))
  /\ exists e,
      _onDidChangeWorkspace
        (acceptWorkspaceData Sample.ab (Sample.data [Sample.b; Sample.x]))
      = _onDidChangeWorkspace Sample.ab ++ [e]
      /\ (forall f, In f (removed e)
                    <-> In f (currentWorkspaceFolders Sample.ab)
                        /\ ~ In (folderKey f)
                                (map folderKey
                                     (dataFolders (Sample.data [Sample.b; Sample.x]))))
      /\ (forall f, In f (added e)
                    <-> In f (dataFolders (Sample.data [Sample.b; Sample.x]))
                        /\ ~ In (folderKey f)
                                (map folderKey (currentWorkspaceFolders Sample.ab))).
Proof.
  split; [exact sample_ab_keys|]. split; [exact sample_bx_keys|].
  exact (acceptWorkspaceData_event_exact
           Sample.ab (Sample.data [Sample.b; Sample.x])
           sample_ab_keys sample_bx_keys).
Defined.

Lemma sample_replace_valid : validCall true Sample.ab 1 1 [Sample.add "/c"].
Proof. repeat split; concrete. Defined.

Lemma prospective_frame_witness :
  validCall true Sample.ab 1 1 [Sample.add "/c"]
  /\ (length (prospective true Sample.ab 1 1 [Sample.add "/c"]) + Z.to_nat 1
      = length (currentWorkspaceFolders Sample.ab)
        + length (validatedDistinct true [Sample.add "/c"]))%nat.
Proof.
  split; [exact sample_replace_valid|].
  exact (proj1 (prospective_frame true Sample.ab 1 1 [Sample.add "/c"]
                                  sample_replace_valid)).
Defined.

Lemma sample_append_valid : validCall true Sample.single 1 0 [Sample.add "/c"].
Proof. repeat split; concrete. Defined.

Lemma updateWorkspaceFolders_resizing_accepted_witness :
  validCall true Sample.single 1 0 [Sample.add "/c"]
  /\ length (validatedDistinct true [Sample.add "/c"]) <> Z.to_nat 0
  /\ exists this',
      updateWorkspaceFolders true Sample.single "ext" (JsNumber 1) (JsNumber 0)
                             [Sample.add "/c"]
      = (true, this')
      /\ _proxy this'
         = _proxy Sample.single
             ++ [UpdateWorkspaceFolders "ext" 1 0
                   (validatedDistinct true [Sample.add "/c"])]
      /\ (forall w, _workspace Sample.single = Some w ->
                    getWorkspaceFolders this'
                    = Some (prospective true Sample.single 1 0 [Sample.add "/c"])).
Proof.
  split; [exact sample_append_valid|].
  assert (H : length (validatedDistinct true [Sample.add "/c"]) <> Z.to_nat 0)
    by (vm_compute; discriminate).
  split; [exact H|].
  exact (updateWorkspaceFolders_resizing_accepted
           true Sample.single "ext" 1 0 [Sample.add "/c"] sample_append_valid H).
Defined.

Lemma updateWorkspaceFolders_same_folder_held_back_witness :
  currentWorkspaceFolders Sample.ab !! 1%nat = Some Sample.b
  /\ name Sample.b <> ""
  /\ updateWorkspaceFolders false Sample.ab "ext" (JsNumber (Z.of_nat 1)) (JsNumber 1)
                            [offer Sample.b (name Sample.b)]
     = (false, Sample.ab).
Proof.
  assert (H : name Sample.b <> "") by (vm_compute; discriminate).
  split; [reflexivity|]. split; [exact H|].
  exact (updateWorkspaceFolders_same_folder_held_back
           false Sample.ab "ext" 1 Sample.b eq_refl H).
Defined.

Lemma updateWorkspaceFolders_rename_accepted_witness :
  _workspace Sample.ab = Some SampleEdit.ab
  /\ currentWorkspaceFolders Sample.ab !! 1%nat = Some Sample.b
  /\ "bee" <> "" /\ "bee" <> name Sample.b
  /\ exists this',
      updateWorkspaceFolders true Sample.ab "ext" (JsNumber (Z.of_nat 1)) (JsNumber 1)
                             [offer Sample.b "bee"]
      = (true, this')
      /\ getWorkspaceFolders this'
         = Some (take 1 (currentWorkspaceFolders Sample.ab)
                   ++ mkFolder (uri Sample.b) "bee" 0
                   :: drop 2 (currentWorkspaceFolders Sample.ab)).
Proof.
  assert (H1 : "bee" <> "") by discriminate.
  assert (H2 : "bee" <> name Sample.b) by (vm_compute; discriminate).
  split; [reflexivity|]. split; [reflexivity|]. split; [exact H1|].
  split; [exact H2|].
  exact (updateWorkspaceFolders_rename_accepted
           true Sample.ab "ext" 1 Sample.b "bee" SampleEdit.ab eq_refl eq_refl H1 H2).
Defined.

Lemma updateWorkspaceFolders_insert_then_delete_witness :
  _workspace Sample.ab = Some SampleEdit.ab
  /\ (1 <= length (currentWorkspaceFolders Sample.ab))%nat
  /\ add_uri (Sample.add "/c") = Some (Uri.file "/c")
  /\ exists this1 this2,
      updateWorkspaceFolders true Sample.ab "ext" (JsNumber (Z.of_nat 1)) (JsNumber 0)
                             [Sample.add "/c"]
      = (true, this1)
      /\ updateWorkspaceFolders true this1 "ext" (JsNumber (Z.of_nat 1)) (JsNumber 1) []
         = (true, this2)
      /\ getWorkspaceFolders this2 = getWorkspaceFolders Sample.ab
      /\ _proxy this2
         = _proxy Sample.ab
             ++ [UpdateWorkspaceFolders "ext" (Z.of_nat 1) 0
                   [mkValidated (Uri.file "/c") (add_name (Sample.add "/c"))];
                 UpdateWorkspaceFolders "ext" (Z.of_nat 1) 1 []].
Proof.
  assert (H : (1 <= length (currentWorkspaceFolders Sample.ab))%nat)
    by (vm_compute; lia).
  split; [reflexivity|]. split; [exact H|]. split; [reflexivity|].
  exact (updateWorkspaceFolders_insert_then_delete
           true Sample.ab "ext" 1 (Sample.add "/c") (Uri.file "/c") SampleEdit.ab
           eq_refl H eq_refl).
Defined.

Lemma getWorkspaceFolder_owner_witness :
  _workspace Sample.double = Some SampleModel.double
  /\ indexed SampleModel.double
  /\ owner (Workspace2.folders SampleModel.double) (Uri.file "/a/b")
           (getWorkspaceFolder Sample.double (Uri.file "/a/b") false).
Proof.
  split; [reflexivity|]. split; [reflexivity|].
  exact (proj1 (getWorkspaceFolder_owner Sample.double SampleModel.double
                                         (Uri.file "/a/b") eq_refl eq_refl)).
Defined.

Lemma reachable_owner_witness :
  hosts (run start SampleEdit.oneHost) !! 0%nat = Some Sample.double
  /\ _workspace Sample.double = Some SampleModel.double
  /\ indexed SampleModel.double
  /\ forall u, owner (Workspace2.folders SampleModel.double) u
                     (getWorkspaceFolder Sample.double u false).
Proof.
  split; [reflexivity|]. split; [reflexivity|].
  exact (reachable_owner SampleEdit.oneHost 0 Sample.double SampleModel.double
                         eq_refl eq_refl).
Defined.

Lemma sample_cancel_on_wire : In (CancelSearch 0) (wire (run start sampleCalls)).
Proof. vm_compute. auto. Defined.

Lemma cancelSearch_names_a_search_witness :
  In (CancelSearch 0) (wire (run start sampleCalls))
  /\ In 0%nat (searchIds (wire (run start sampleCalls)))
  /\ (0 < requestIdPool (run start sampleCalls))%nat.
Proof.
  split; [exact sample_cancel_on_wire|].
  exact (cancelSearch_names_a_search sampleCalls 0 sample_cancel_on_wire).
Defined.

Lemma sample_confirmed :
  map folderKey
      (currentWorkspaceFolders (accepted true Sample.single "ext" 1 0 [Sample.add "/c"]))
    ≡ₚ map folderKey (dataFolders (Sample.data [SampleEdit.c; Sample.a])).
Proof. vm_compute. apply perm_swap. Defined.

Lemma acceptWorkspaceData_after_edit_witness :
  _workspace Sample.single = Some SampleEdit.single
  /\ updateWorkspaceFolders true Sample.single "ext" (JsNumber 1) (JsNumber 0)
                            [Sample.add "/c"]
     = (true, accepted true Sample.single "ext" 1 0 [Sample.add "/c"])
  /\ _onDidChangeWorkspace
       (acceptWorkspaceData (accepted true Sample.single "ext" 1 0 [Sample.add "/c"])
                            (Sample.data [SampleEdit.c; Sample.a]))
     = _onDidChangeWorkspace Sample.single ++ [mkEvent [] []].
Proof.
  split; [reflexivity|]. split; [reflexivity|].
  exact (proj2 (acceptWorkspaceData_after_edit
                  true Sample.single _ "ext" (JsNumber 1) (JsNumber 0)
                  [Sample.add "/c"] SampleEdit.single
                  (Sample.data [SampleEdit.c; Sample.a])
                  eq_refl eq_refl sample_confirmed)).
Defined.

(** * Paths made of plain segments *)

Section Splitting.
Variable p : ascii -> bool.

Lemma split_on_not_nil (cs : list ascii) : Strings.split_on p cs <> [].
Proof.
  induction cs as [|c cs IH]; simpl; [discriminate|].
  destruct (p c); [discriminate|].
  destruct (Strings.split_on p cs); discriminate.
Qed.

Lemma split_on_free (w : list ascii) :
  forallb (fun c => negb (p c)) w = true -> Strings.split_on p w = [w].
Proof.
  induction w as [|c w IH]; simpl; [reflexivity|].
  intros H. apply andb_true_iff in H as [Hc Hw].
  apply negb_true_iff in Hc. rewrite Hc, (IH Hw). reflexivity.
Qed.

(** Cutting at a separator: the pieces of the text before it, then the
    pieces of the text behind it. *)
Lemma split_on_app_sep (a b : list ascii) (c : ascii) :
  p c = true ->
  Strings.split_on p (a ++ c :: b) = Strings.split_on p a ++ Strings.split_on p b.
Proof.
  intros Hc. induction a as [|x a IH]; simpl.
  - now rewrite Hc.
  - destruct (p x); [now rewrite IH|].
    rewrite IH. pose proof (split_on_not_nil a) as Hn.
    destruct (Strings.split_on p a); [contradiction | reflexivity].
Qed.

Lemma pieces_app_sep (a b : list ascii) (c : ascii) :
  p c = true -> pieces p (a ++ c :: b) = pieces p a ++ pieces p b.
Proof.
  intros Hc. unfold pieces. now rewrite (split_on_app_sep a b c Hc), List.filter_app.
Qed.

Lemma pieces_free (w : list ascii) :
  Strings.nonEmpty w = true ->
  forallb (fun c => negb (p c)) w = true ->
  pieces p w = [w].
Proof.
  intros Hn Hw. unfold pieces. rewrite (split_on_free w Hw). simpl. now rewrite Hn.
Qed.

Lemma pieces_nil : pieces p [] = [].
Proof. reflexivity. Qed.

End Splitting.

Lemma append_cons (c : ascii) (s u : string) : String c s +:+ u = String c (s +:+ u).
Proof. reflexivity. Qed.


Lemma chars_app (s u : string) :
  list_ascii_of_string (s +:+ u) = list_ascii_of_string s ++ list_ascii_of_string u.
Proof.
  induction s as [|c s IH]; [reflexivity|].
  rewrite append_cons. simpl. now rewrite IH.
Qed.

Lemma append_assoc (s u v : string) : (s +:+ u) +:+ v = s +:+ u +:+ v.
Proof.
  induction s as [|c s IH]; [reflexivity|].
  rewrite !append_cons. now rewrite IH.
Qed.


Lemma chars_pathOf_cons (s : string) (segs : list string) :
  list_ascii_of_string (pathOf (s :: segs))
  = "/"%char :: list_ascii_of_string s ++ list_ascii_of_string (pathOf segs).
Proof. simpl pathOf. rewrite !chars_app. reflexivity. Qed.

Lemma pathOf_app (front back : list string) :
  pathOf (front ++ back) = pathOf front +:+ pathOf back.
Proof.
  induction front as [|s front IH]; [reflexivity|].
  simpl. rewrite IH. now rewrite !append_assoc.
Qed.

Lemma cleanSegment_chars (s : string) :
  cleanSegment s = true ->
  Strings.nonEmpty (list_ascii_of_string s) = true
  /\ forallb (fun c => negb (Strings.isSep c)) (list_ascii_of_string s) = true
  /\ forallb (fun c => negb (Strings.isSlash c)) (list_ascii_of_string s) = true.
Proof.
  unfold cleanSegment. intros H. apply andb_true_iff in H as [Hn Hs].
  repeat split; try assumption.
  rewrite forallb_forall in *. intros c Hc. specialize (Hs c Hc).
  unfold Strings.isSep in Hs. apply negb_true_iff in Hs.
  apply orb_false_iff in Hs as [Hs _]. now rewrite Hs.
Qed.

(** The pieces of a text followed by a path of clean segments, cut at
    slashes or at both separators. *)
Lemma pieces_pathOf (p : ascii -> bool) (segs : list string) (a : list ascii) :
  p "/"%char = true ->
  (forall s, In s segs ->
             Strings.nonEmpty (list_ascii_of_string s) = true
             /\ forallb (fun c => negb (p c)) (list_ascii_of_string s) = true) ->
  pieces p (a ++ list_ascii_of_string (pathOf segs))
  = pieces p a ++ map list_ascii_of_string segs.
Proof.
  intros Hp. revert a. induction segs as [|s segs IH]; intros a Hsegs.
  - simpl. now rewrite !app_nil_r.
  - rewrite chars_pathOf_cons, (pieces_app_sep p a _ _ Hp).
    rewrite (IH (list_ascii_of_string s)) by (intros s' Hs'; apply Hsegs; now right).
    destruct (Hsegs s (or_introl eq_refl)) as [Hn Hf].
    now rewrite (pieces_free p _ Hn Hf).
Qed.

Lemma map_string_of_chars (segs : list string) :
  map string_of_list_ascii (map list_ascii_of_string segs) = segs.
Proof.
  induction segs as [|s segs IH]; simpl; [reflexivity|].
  now rewrite string_of_list_ascii_of_string, IH.
Qed.

Lemma segments_pieces (key : string) :
  Paths.segments key
  = map string_of_list_ascii (pieces Strings.isSep (list_ascii_of_string key)).
Proof. reflexivity. Qed.


Lemma segments_pathOf (pre : string) (segs : list string) :
  Forall (fun s => cleanSegment s = true) segs ->
  Paths.segments (pre +:+ pathOf segs) = Paths.segments pre ++ segs.
Proof.
  intros Hc. rewrite !segments_pieces.
  rewrite chars_app, (pieces_pathOf Strings.isSep segs _ eq_refl).
  - now rewrite map_app, map_string_of_chars.
  - intros s Hs. rewrite Forall_forall in Hc.
    destruct (cleanSegment_chars s (Hc s (proj2 (list_elem_of_In _ _) Hs)))
      as (Hn & Hf & _).
    auto.
Qed.


Lemma segments_slash (pre : string) :
  Paths.segments (pre +:+ "/") = Paths.segments pre.
Proof.
  rewrite !segments_pieces.
  rewrite chars_app. simpl.
  rewrite (pieces_app_sep Strings.isSep _ [] "/"%char eq_refl), pieces_nil.
  now rewrite app_nil_r.
Qed.

Lemma skipWhile_all (q : ascii -> bool) (l : list ascii) :
  forallb q l = true -> Strings.skipWhile q l = [].
Proof.
  induction l as [|c l IH]; simpl; [reflexivity|].
  intros H. apply andb_true_iff in H as [Hc Hl]. now rewrite Hc, IH.
Qed.

Lemma skipWhile_app_stop (q : ascii -> bool) (w r : list ascii) (c : ascii) :
  forallb q w = true -> q c = false ->
  Strings.skipWhile q (w ++ c :: r) = c :: r.
Proof.
  intros Hw Hc. induction w as [|x w IH]; simpl.
  - now rewrite Hc.
  - simpl in Hw. apply andb_true_iff in Hw as [Hx Hw]. now rewrite Hx, IH.
Qed.

Lemma skipWhile_stay (q : ascii -> bool) (l : list ascii) :
  forallb (fun c => negb (q c)) l = true -> Strings.skipWhile q l = l.
Proof.
  destruct l as [|c l]; simpl; [reflexivity|].
  intros H. apply andb_true_iff in H as [Hc _].
  apply negb_true_iff in Hc. now rewrite Hc.
Qed.

Lemma forallb_rev (q : ascii -> bool) (l : list ascii) :
  forallb q (rev l) = forallb q l.
Proof.
  destruct (forallb q l) eqn:E.
  - rewrite forallb_forall in *. intros c Hc. apply E. now apply in_rev.
  - destruct (forallb q (rev l)) eqn:E'; [|reflexivity].
    rewrite <- E. symmetry. rewrite forallb_forall in *.
    intros c Hc. apply E'. now apply in_rev in Hc.
Qed.

(** The directory of a path of clean segments is the path of the segments
    but the last, and the root for a single segment. *)
Lemma dirname_pathOf (front : list string) (lst : string) :
  Forall (fun s => cleanSegment s = true) (front ++ [lst]) ->
  Paths.dirname (pathOf (front ++ [lst]))
  = match front with [] => "/" | _ => pathOf front end.
Proof.
  intros Hc. rewrite Forall_app in Hc. destruct Hc as [Hfront Hlst].
  apply Forall_inv in Hlst. apply cleanSegment_chars in Hlst as (Hn & _ & Hslash).
  set (L := list_ascii_of_string lst) in *.
  assert (Hstay : Strings.skipWhile Strings.isSlash (rev L) = rev L)
    by (apply skipWhile_stay; now rewrite forallb_rev).
  assert (Hall : forallb (fun c => negb (Strings.isSlash c)) (rev L) = true)
    by (now rewrite forallb_rev).
  unfold Paths.dirname.
  rewrite pathOf_app, chars_app. simpl (pathOf [lst]).
  rewrite !chars_app. fold L. simpl (list_ascii_of_string "/").
  simpl (list_ascii_of_string ""). rewrite app_nil_r.
  destruct front as [|s1 front'].
  - simpl. rewrite Hstay, (skipWhile_all _ _ Hall). reflexivity.
  - rewrite chars_pathOf_cons.
    set (B := list_ascii_of_string s1 ++ list_ascii_of_string (pathOf front')).
    assert (HB : B <> []).
    { apply Forall_inv, cleanSegment_chars in Hfront as (Hn1 & _).
      unfold B. destruct (list_ascii_of_string s1); [discriminate|discriminate]. }
    replace (("/"%char :: B) ++ ["/"%char] ++ L)
      with ("/"%char :: (B ++ "/"%char :: L)) by reflexivity.
    cbv iota beta zeta.
    replace (rev (B ++ "/"%char :: L)) with (rev L ++ "/"%char :: rev B)
      by (rewrite rev_app_distr; simpl; now rewrite <- app_assoc).
    destruct (rev L) as [|x xs] eqn:EL.
    { apply (f_equal (@rev ascii)) in EL. rewrite rev_involutive in EL.
      rewrite EL in Hn. discriminate. }
    simpl in Hall. apply andb_true_iff in Hall as [Hx Hxs].
    apply negb_true_iff in Hx. simpl. rewrite Hx. simpl. rewrite Hx. simpl.
    rewrite (skipWhile_app_stop _ xs (rev B) "/"%char Hxs eq_refl).
    destruct (rev B) as [|k ks] eqn:EB.
    { apply (f_equal (@rev ascii)) in EB. rewrite rev_involutive in EB.
      contradiction. }
    rewrite <- EB, rev_involutive. unfold B.
    change ("/"%char :: list_ascii_of_string s1 ++ list_ascii_of_string (pathOf front'))
      with (list_ascii_of_string "/" ++ list_ascii_of_string s1
              ++ list_ascii_of_string (pathOf front')).
    rewrite <- !chars_app. now rewrite string_of_list_ascii_of_string.
Qed.

(** ** The segments of a resource with a plain path *)

Lemma toString_prefix (u : URI) : Uri.toString u = uriPrefix u +:+ path u.
Proof. unfold Uri.toString, uriPrefix. now rewrite !append_assoc. Qed.

Lemma uriSegments_plain (u : URI) (segs : list string) :
  path u = pathOf segs ->
  Forall (fun s => cleanSegment s = true) segs ->
  uriSegments u = Paths.segments (uriPrefix u) ++ segs.
Proof.
  intros Hp Hc. unfold uriSegments. rewrite toString_prefix, Hp.
  now apply segments_pathOf.
Qed.

(** For a resource whose path is made of clean segments, the segments of
    the parent directory are those of the resource but the last. *)
Lemma parent_segments (u : URI) (front : list string) (lst : string) :
  path u = pathOf (front ++ [lst]) ->
  Forall (fun s => cleanSegment s = true) (front ++ [lst]) ->
  uriSegments (parentOf u) = removelast (uriSegments u).
Proof.
  intros Hp Hc.
  rewrite (uriSegments_plain u _ Hp Hc), app_assoc, removelast_last.
  unfold uriSegments, parentOf.
  rewrite toString_prefix. simpl. fold (uriPrefix u).
  change (uriPrefix (Uri.with_path u (Paths.dirname (path u)))) with (uriPrefix u).
  rewrite Hp, (dirname_pathOf front lst Hc).
  destruct front as [|s front'].
  - now rewrite segments_slash, app_nil_r.
  - apply segments_pathOf. rewrite Forall_app in Hc. tauto.
Qed.

Lemma owner_ownerAt (fs : list WorkspaceFolder) (u : URI)
      (r : option WorkspaceFolder) :
  owner fs u r <-> ownerAt fs (uriSegments u) r.
Proof. reflexivity. Qed.

Lemma reachable_indexed (calls : list Call) (j : nat) (h : t) (w : Workspace2.t) :
  hosts (run start calls) !! j = Some h -> _workspace h = Some w -> indexed w.
Proof.
  intros Hj Hw.
  apply (run_allIndexed start calls) with (j := j) (h := h); try assumption.
  intros j' h' H'. simpl in H'. now rewrite lookup_nil in H'.
Qed.

(** C6.  In every state the process reaches, let [f] be a folder of the
    model's snapshot.  A resource strictly nested under the identifier of
    [f], with no other folder of the snapshot containing it, resolves to
    [f], with or without [resolveParent].  A resource equal to the
    identifier of [f] resolves, with [resolveParent], to the owner of its
    parent directory; when its path is made of plain segments, that is a
    folder with the longest identifier among those leading the segments
    of [f]'s identifier but the last, and nothing when there is no such
    folder. *)
Theorem getWorkspaceFolder_containment
        (calls : list Call) (j : nat) (this : t) (w : Workspace2.t)
        (u : URI) (f : WorkspaceFolder) :
  hosts (run start calls) !! j = Some this ->
  _workspace this = Some w ->
  In f (Workspace2.folders w) ->
  (strictlyContains f u ->
   (forall g, In g (Workspace2.folders w) -> contains g u -> g = f) ->
   forall resolveParent, getWorkspaceFolder this u resolveParent = Some f)
  /\ (Uri.toString u = folderKey f ->
      owner (Workspace2.folders w) (parentOf u) (getWorkspaceFolder this u true)
      /\ forall front lst,
          path u = pathOf (front ++ [lst]) ->
          Forall (fun s => cleanSegment s = true) (front ++ [lst]) ->
          uriSegments (parentOf u) = removelast (keySegments f)
          /\ ownerAt (Workspace2.folders w) (removelast (keySegments f))
                     (getWorkspaceFolder this u true)).
Proof.
  intros Hj Hw Hf.
  pose proof (reachable_indexed calls j this w Hj Hw) as Hidx.
  unfold getWorkspaceFolder. rewrite Hw.
  unfold Workspace2.getWorkspaceFolder, TernarySearchTree.get. rewrite Hidx.
  set (fs := Workspace2.folders w) in *. split.
  - intros [Hc Hstrict] Huniq r.
    assert (Hget : indexOf fs TernarySearchTree.forPaths
                     !! Paths.segments (Uri.toString u) = None).
    { destruct (indexOf fs _ !! Paths.segments (Uri.toString u)) as [g|] eqn:E;
        [|reflexivity].
      apply indexOf_lookup_Some in E as [[Hg Hk] | E];
        [|unfold TernarySearchTree.forPaths in E; rewrite lookup_empty in E;
          discriminate].
      assert (g = f) by (apply Huniq; [exact Hg | unfold contains; now rewrite Hk]).
      subst g. contradiction. }
    rewrite Hget, bool_decide_eq_false_2, andb_false_r
      by (intros [? ?]; discriminate).
    pose proof (findSubstr_owner fs u) as Hown.
    destruct (TernarySearchTree.findSubstr _ _) as [g|]; simpl in Hown.
    + destruct Hown as (Hg & Hcg & _). f_equal. now apply Huniq.
    + now destruct (Hown f Hf).
  - intros Hkey.
    destruct (indexOf_lookup_folder fs f Hf) as (g & _ & _ & Hsome).
    unfold keySegments in Hsome. rewrite <- Hkey in Hsome.
    rewrite Hsome, bool_decide_eq_true_2 by eauto. simpl.
    fold (parentOf u).
    pose proof (findSubstr_owner fs (parentOf u)) as Hown.
    split; [exact Hown|].
    intros front lst Hp Hc.
    assert (Hseg : uriSegments (parentOf u) = removelast (keySegments f)).
    { rewrite (parent_segments u front lst Hp Hc).
      unfold keySegments, uriSegments. now rewrite Hkey. }
    split; [exact Hseg|]. rewrite <- Hseg. now apply owner_ownerAt.
Qed.

Lemma sample_only_a :
  forall g, In g (Workspace2.folders SampleModel.double) ->
            contains g (Uri.file "/a/b/c.txt") -> g = Sample.a.
Proof.
  intros g [<- | [<- | []]] Hc; [reflexivity|].
  destruct Hc as [k Hk]. vm_compute in Hk. discriminate.
Defined.

Lemma sample_strictly_in_a : strictlyContains Sample.a (Uri.file "/a/b/c.txt").
Proof.
  split.
  - exists ["b"; "c.txt"]. reflexivity.
  - vm_compute. discriminate.
Defined.

Lemma sample_inner_plain :
  Forall (fun s => cleanSegment s = true) (["a"] ++ ["b"]).
Proof. repeat constructor. Defined.

Lemma getWorkspaceFolder_containment_witness :
  (hosts (run start SampleEdit.oneHost) !! 0%nat = Some Sample.double
   /\ _workspace Sample.double = Some SampleModel.double
   /\ In Sample.a (Workspace2.folders SampleModel.double)
   /\ strictlyContains Sample.a (Uri.file "/a/b/c.txt")
   /\ forall resolveParent,
       getWorkspaceFolder Sample.double (Uri.file "/a/b/c.txt") resolveParent
       = Some Sample.a)
  /\ (hosts (run start SampleNested.oneHost) !! 0%nat = Some SampleModel.nested
      /\ _workspace SampleModel.nested = Some SampleNested.model
      /\ In SampleModel.inner (Workspace2.folders SampleNested.model)
      /\ Uri.toString (Uri.file "/a/b") = folderKey SampleModel.inner
      /\ path (Uri.file "/a/b") = pathOf (["a"] ++ ["b"])
      /\ uriSegments (parentOf (Uri.file "/a/b"))
         = removelast (keySegments SampleModel.inner)
      /\ ownerAt (Workspace2.folders SampleNested.model)
                 (removelast (keySegments SampleModel.inner))
                 (getWorkspaceFolder SampleModel.nested (Uri.file "/a/b") true)
      /\ getWorkspaceFolder SampleModel.nested (Uri.file "/a/b") true
         = Some Sample.a).
Proof.
  split.
  - split; [reflexivity|]. split; [reflexivity|].
    split; [left; reflexivity|]. split; [exact sample_strictly_in_a|].
    exact (proj1 (getWorkspaceFolder_containment
                    SampleEdit.oneHost 0 Sample.double SampleModel.double
                    (Uri.file "/a/b/c.txt") Sample.a
                    eq_refl eq_refl (or_introl eq_refl))
                 sample_strictly_in_a sample_only_a).
  - split; [reflexivity|]. split; [reflexivity|].
    split; [right; left; reflexivity|]. split; [reflexivity|].
    split; [reflexivity|].
    pose proof (proj2 (proj2 (getWorkspaceFolder_containment
                                SampleNested.oneHost 0 SampleModel.nested
                                SampleNested.model (Uri.file "/a/b") SampleModel.inner
                                eq_refl eq_refl (or_intror (or_introl eq_refl)))
                             eq_refl)
                      ["a"] "b" eq_refl sample_inner_plain) as [H1 H2].
    split; [exact H1|]. split; [exact H2 | reflexivity].
Defined.

(** ** Relative paths below a root made of plain segments *)



















(** A [null] argument is neither a string nor undefined: its [fsPath] is
    read, which throws. *)
Example getRelativePath_null (cwd : string) (this : t) (inc : option bool) :
  getRelativePathCall cwd this None inc = ThrowsTypeError.
Proof. reflexivity. Qed.

(** A path that does not start with a slash is resolved against the
    working directory by [relative], while the resource built from it
    gets a slash in front: with the folders [/a] and [/b] and the working
    directory [/home], the path [b/c.txt] has the owner [/b] and comes
    back as [home/b/c.txt]. *)
Example getRelativePath_working_directory :
  getWorkspaceFolder Sample.ab (Uri.file "b/c.txt") true = Some Sample.b
  /\ Paths.relative "/home" (Uri.fsPath (uri Sample.b)) "b/c.txt"
     = "../home/b/c.txt"
  /\ getRelativePath "/home" Sample.ab (PathString "b/c.txt") None
     = Some "home/b/c.txt"
  /\ getRelativePath "/b" Sample.ab (PathString "b/c.txt") None
     = Some "b/b/c.txt".
Proof. repeat split; reflexivity. Qed.

(** ** A folder asked for by its own identifier *)

(** Among the folders whose identifiers have the segments of a resource,
    the last one of the snapshot is the answer for that resource. *)
Lemma getWorkspaceFolder_last_wins
      (w : Workspace2.t) (fs gs : list WorkspaceFolder) (g : WorkspaceFolder)
      (u : URI) :
  indexed w ->
  Workspace2.folders w = fs ++ g :: gs ->
  (forall h, In h gs -> keySegments h <> keySegments g) ->
  uriSegments u = keySegments g ->
  Workspace2.getWorkspaceFolder w u false = Some g.
Proof.
  intros Hidx Hfs Hlast Hu.
  unfold Workspace2.getWorkspaceFolder. rewrite Hidx, Hfs. simpl.
  unfold TernarySearchTree.findSubstr. apply findLongest_exact. simpl.
  fold (uriSegments u). rewrite Hu.
  rewrite indexOf_app. simpl.
  rewrite (indexOf_lookup_other gs _ _ Hlast).
  unfold TernarySearchTree.set. fold (folderKey g). apply lookup_insert_eq.
Qed.

(** X14.  In every state the process reaches, a folder of the snapshot
    resolves to itself unless a later folder of the snapshot has an
    identifier with the same path segments (the same identifier, or one
    that differs in separators only, as [/a] and [/a/]): asked for the
    folder's own identifier, [getWorkspaceFolder] answers with the
    folder.  When later folders have these segments, the answer is the
    last of them. *)
Theorem getWorkspaceFolder_self
        (calls : list Call) (j : nat) (this : t) (w : Workspace2.t)
        (fs gs : list WorkspaceFolder) (f : WorkspaceFolder) :
  hosts (run start calls) !! j = Some this ->
  _workspace this = Some w ->
  Workspace2.folders w = fs ++ f :: gs ->
  ((forall g, In g gs -> keySegments g <> keySegments f) ->
   getWorkspaceFolder this (uri f) false = Some f)
  /\ (forall g gs1 gs2,
         gs = gs1 ++ g :: gs2 ->
         keySegments g = keySegments f ->
         (forall h, In h gs2 -> keySegments h <> keySegments f) ->
         getWorkspaceFolder this (uri f) false = Some g).
Proof.
  intros Hj Hw Hfs.
  pose proof (reachable_indexed calls j this w Hj Hw) as Hidx.
  unfold getWorkspaceFolder. rewrite Hw. split.
  - intros Hlast.
    now apply (getWorkspaceFolder_last_wins w fs gs f (uri f)).
  - intros g gs1 gs2 -> Hg Hlast.
    apply (getWorkspaceFolder_last_wins w (fs ++ f :: gs1) gs2 g (uri f)).
    + exact Hidx.
    + rewrite Hfs, <- app_assoc. reflexivity.
    + intros h Hh. rewrite Hg. now apply Hlast.
    + symmetry. exact Hg.
Qed.

Lemma sample_x_other_segments :
  forall g, In g [Sample.x] -> keySegments g <> keySegments Sample.a.
Proof. intros g [<- | []]. vm_compute. discriminate. Defined.

Lemma sample_none_later :
  forall h : WorkspaceFolder, In h [] -> keySegments h <> keySegments Sample.a.
Proof. intros h []. Defined.

Lemma getWorkspaceFolder_self_witness :
  (hosts (run start SampleEdit.oneHost) !! 0%nat = Some Sample.double
   /\ _workspace Sample.double = Some SampleModel.double
   /\ Workspace2.folders SampleModel.double = [] ++ Sample.a :: [Sample.x]
   /\ getWorkspaceFolder Sample.double (uri Sample.a) false = Some Sample.a)
  /\ (hosts (run start SampleSlash.oneHost) !! 0%nat = Some SampleSlash.host
      /\ _workspace SampleSlash.host = Some SampleSlash.model
      /\ Workspace2.folders SampleSlash.model
         = [] ++ Sample.a :: ([] ++ SampleSlash.slash :: [])
      /\ folderKey SampleSlash.slash <> folderKey Sample.a
      /\ keySegments SampleSlash.slash = keySegments Sample.a
      /\ getWorkspaceFolder SampleSlash.host (uri Sample.a) false
         = Some SampleSlash.slash).
Proof.
  split.
  - split; [reflexivity|]. split; [reflexivity|]. split; [reflexivity|].
    exact (proj1 (getWorkspaceFolder_self
                    SampleEdit.oneHost 0 Sample.double SampleModel.double
                    [] [Sample.x] Sample.a eq_refl eq_refl eq_refl)
                 sample_x_other_segments).
  - split; [reflexivity|]. split; [reflexivity|]. split; [reflexivity|].
    split; [vm_compute; discriminate|]. split; [reflexivity|].
    exact (proj2 (getWorkspaceFolder_self
                    SampleSlash.oneHost 0 SampleSlash.host SampleSlash.model
                    [] [SampleSlash.slash] Sample.a eq_refl eq_refl eq_refl)
                 SampleSlash.slash [] [] eq_refl eq_refl sample_none_later).
Defined.
